(** * EZModbus: the register store, its request handlers and the start-up
    supervisor, embedded from [handler.go], [config.go] and [server.go].

    Go's fixed-width integers are carried as [Z] with the wrap-around of
    every arithmetic step and conversion written out; slices are lists
    indexed through [index] and [assign], which panic out of range as Go
    does; the handler object is a record threaded through a small
    state-and-panic monad. Locks are not modelled: every operation is
    taken to run to completion on its own (the accesses to the tables are
    serialised by [mu] in the source). *)

From stdpp Require Import base list numbers strings.
From Stdlib Require Import ZArith Lia.

Local Open Scope string_scope.
Local Open Scope list_scope.
Local Open Scope Z_scope.

(** ** Machine integers *)

Definition uint16 (x : Z) : Z := x mod 65536.
Definition uint64 (x : Z) : Z := x mod 18446744073709551616.
Definition MaxUint16 : Z := 65535.
Definition MaxUint64 : Z := 18446744073709551615.

(** ** Panics and slices *)

Inductive RuntimeError : Type :=
  | IndexOutOfRange (i len : Z)
  | MakeSliceLenOutOfRange.

Inductive run (A : Type) : Type :=
  | Ok (a : A)
  | Panic (e : RuntimeError).
Arguments Ok {A} a.
Arguments Panic {A} e.

Definition len {A} (s : list A) : Z := Z.of_nat (length s).

(** [s[i]] *)
Definition index {A} (s : list A) (i : Z) : run A :=
  if (i <? 0) || (len s <=? i) then Panic (IndexOutOfRange i (len s))
  else match s !! Z.to_nat i with
       | Some x => Ok x
       | None => Panic (IndexOutOfRange i (len s))
       end.

(** [s[i] = v] *)
Definition assign {A} (s : list A) (i : Z) (v : A) : run (list A) :=
  if (i <? 0) || (len s <=? i) then Panic (IndexOutOfRange i (len s))
  else Ok (<[Z.to_nat i := v]> s).

(** [make([]T, n)] with the zero value [z] *)
Definition make {A} (z : A) (n : Z) : run (list A) :=
  if n <? 0 then Panic MakeSliceLenOutOfRange else Ok (replicate (Z.to_nat n) z).

(** ** config.go *)

Record RegisterValue : Type := {
  Type_ : string;
  Address : Z;   (* uint16 *)
  Value : Z      (* uint16 *)
}.

Record ModbusConfig : Type := {
  UnitID : Z;          (* uint8 *)
  MaxRegisters : Z;    (* int *)
  CounterAddress : Z;  (* uint16 *)
  UpdateInterval : Z;  (* int *)
  InitialData : list RegisterValue
}.

Record ServerConfig : Type := {
  MaxRetries : Z;  (* int *)
  RetryDelay : Z   (* int *)
}.

Definition wf_RegisterValue (d : RegisterValue) : Prop :=
  0 <= Address d <= MaxUint16 /\ 0 <= Value d <= MaxUint16.

Definition wf_ModbusConfig (c : ModbusConfig) : Prop :=
  0 <= UnitID c <= 255 /\ 0 <= CounterAddress c <= MaxUint16 /\
  Forall wf_RegisterValue (InitialData c).

(** ** mlog: the calls the logger receives, in order

    A call is kept with its level and message, whatever level the logger
    is configured to print; the key-value payload is left out. *)

Inductive LogLevel : Type := DEBUG | INFO | WARN | ERROR.

Record LogEntry : Type := { Level : LogLevel; Message : string }.

(** ** The requests of the modbus library *)

Inductive ModbusError : Type := ErrIllegalFunction | ErrIllegalDataAddress.

Module HoldingRegistersRequest.
Record t : Type := {
  UnitId : Z;      (* uint8 *)
  Addr : Z;        (* uint16 *)
  Quantity : Z;    (* uint16 *)
  IsWrite : bool;
  Args : list Z    (* []uint16 *)
}.
Definition wf (r : t) : Prop :=
  0 <= UnitId r <= 255 /\ 0 <= Addr r <= MaxUint16 /\ 0 <= Quantity r <= MaxUint16.
End HoldingRegistersRequest.

Module InputRegistersRequest.
Record t : Type := {
  UnitId : Z;      (* uint8 *)
  Addr : Z;        (* uint16 *)
  Quantity : Z     (* uint16 *)
}.
End InputRegistersRequest.

Module CoilsRequest.
Record t : Type := {
  UnitId : Z;
  Addr : Z;
  Quantity : Z;
  IsWrite : bool;
  Args : list bool
}.
Definition wf (r : t) : Prop :=
  0 <= UnitId r <= 255 /\ 0 <= Addr r <= MaxUint16 /\ 0 <= Quantity r <= MaxUint16.
End CoilsRequest.

Module DiscreteInputsRequest.
Record t : Type := {
  UnitId : Z;      (* uint8 *)
  Addr : Z;        (* uint16 *)
  Quantity : Z     (* uint16 *)
}.
End DiscreteInputsRequest.

Module HR := HoldingRegistersRequest.
Module IR := InputRegistersRequest.
Module CR := CoilsRequest.
Module DR := DiscreteInputsRequest.

(** ** handler.go: the data *)

Record Stats : Type := {
  RequestsHandled : Z;  (* uint64 *)
  Errors : Z;           (* uint64 *)
  StartTime : Z         (* time.Time *)
}.

Record ModbusHandler : Type := {
  config : ModbusConfig;
  logger : list LogEntry;
  holdingRegs : list Z;
  inputRegs : list Z;
  coils : list bool;
  discreteInputs : list bool;
  counter : Z;  (* uint16 *)
  stats : Stats
}.

(** What a handler hands back: [(res, nil)] or [(nil, err)]. *)
Inductive Reply (A : Type) : Type :=
  | Values (res : list A)
  | Exception (err : ModbusError).
Arguments Values {A} res.
Arguments Exception {A} err.

(** ** The monad of the methods of [*ModbusHandler] *)

Definition M (A : Type) : Type := ModbusHandler -> ModbusHandler * run A.

Definition ret {A} (a : A) : M A := fun h => (h, Ok a).

Definition bind {A B} (m : M A) (f : A -> M B) : M B :=
  fun h => match m h with
           | (h', Ok a) => f a h'
           | (h', Panic e) => (h', Panic e)
           end.

Declare Scope go_scope.
Delimit Scope go_scope with go.
Notation "x <- m ;; k" := (bind m (fun x => k))
  (at level 100, m at next level, right associativity) : go_scope.
Notation "m ;; k" := (bind m (fun _ => k))
  (at level 100, right associativity) : go_scope.
Local Open Scope go_scope.

Definition get : M ModbusHandler := fun h => (h, Ok h).
Definition lift {A} (r : run A) : M A := fun h => (h, r).

Definition set_holdingRegs (s : list Z) : M unit := fun h =>
  ({| config := config h; logger := logger h; holdingRegs := s;
      inputRegs := inputRegs h; coils := coils h;
      discreteInputs := discreteInputs h; counter := counter h;
      stats := stats h |}, Ok tt).

Definition set_inputRegs (s : list Z) : M unit := fun h =>
  ({| config := config h; logger := logger h; holdingRegs := holdingRegs h;
      inputRegs := s; coils := coils h;
      discreteInputs := discreteInputs h; counter := counter h;
      stats := stats h |}, Ok tt).

Definition set_coils (s : list bool) : M unit := fun h =>
  ({| config := config h; logger := logger h; holdingRegs := holdingRegs h;
      inputRegs := inputRegs h; coils := s;
      discreteInputs := discreteInputs h; counter := counter h;
      stats := stats h |}, Ok tt).

Definition set_discreteInputs (s : list bool) : M unit := fun h =>
  ({| config := config h; logger := logger h; holdingRegs := holdingRegs h;
      inputRegs := inputRegs h; coils := coils h;
      discreteInputs := s; counter := counter h;
      stats := stats h |}, Ok tt).

Definition set_counter (c : Z) : M unit := fun h =>
  ({| config := config h; logger := logger h; holdingRegs := holdingRegs h;
      inputRegs := inputRegs h; coils := coils h;
      discreteInputs := discreteInputs h; counter := c;
      stats := stats h |}, Ok tt).

Definition set_stats (s : Stats) : M unit := fun h =>
  ({| config := config h; logger := logger h; holdingRegs := holdingRegs h;
      inputRegs := inputRegs h; coils := coils h;
      discreteInputs := discreteInputs h; counter := counter h;
      stats := s |}, Ok tt).

(** [h.logger.Warn(msg, ...)] and its siblings: the call is recorded. *)
Definition log (l : LogLevel) (msg : string) : M unit := fun h =>
  ({| config := config h;
      logger := logger h ++ [{| Level := l; Message := msg |}];
      holdingRegs := holdingRegs h;
      inputRegs := inputRegs h; coils := coils h;
      discreteInputs := discreteInputs h; counter := counter h;
      stats := stats h |}, Ok tt).

(** [atomic.AddUint64(&h.stats.RequestsHandled, 1)] *)
Definition AddRequestsHandled (d : Z) : M unit :=
  h <- get ;;
  set_stats {| RequestsHandled := uint64 (RequestsHandled (stats h) + d);
               Errors := Errors (stats h);
               StartTime := StartTime (stats h) |}.

(** [atomic.AddUint64(&h.stats.Errors, 1)] *)
Definition AddErrors (d : Z) : M unit :=
  h <- get ;;
  set_stats {| RequestsHandled := RequestsHandled (stats h);
               Errors := uint64 (Errors (stats h) + d);
               StartTime := StartTime (stats h) |}.

(** [for i := 0; i < n; i++ { res = body(i, res) }], [count] iterations
    left and [i] the current index. *)
Fixpoint for_range {A} (count : nat) (i : Z) (body : Z -> A -> M A) (res : A) : M A :=
  match count with
  | O => ret res
  | S count' => res' <- body i res ;; for_range count' (i + 1) body res'
  end.

(** [for _, data := range l { body(data) }] *)
Fixpoint for_each {A} (l : list A) (body : A -> M unit) : M unit :=
  match l with
  | [] => ret tt
  | x :: l' => body x ;; for_each l' body
  end.

(** ** handler.go: the table accesses *)

Definition load_holding (addr : Z) : M Z :=
  h <- get ;; lift (index (holdingRegs h) addr).
Definition store_holding (addr v : Z) : M unit :=
  h <- get ;; s <- lift (assign (holdingRegs h) addr v) ;; set_holdingRegs s.
Definition load_input (addr : Z) : M Z :=
  h <- get ;; lift (index (inputRegs h) addr).
Definition store_input (addr v : Z) : M unit :=
  h <- get ;; s <- lift (assign (inputRegs h) addr v) ;; set_inputRegs s.
Definition load_coil (addr : Z) : M bool :=
  h <- get ;; lift (index (coils h) addr).
Definition store_coil (addr : Z) (v : bool) : M unit :=
  h <- get ;; s <- lift (assign (coils h) addr v) ;; set_coils s.
Definition load_discrete (addr : Z) : M bool :=
  h <- get ;; lift (index (discreteInputs h) addr).
Definition store_discrete (addr : Z) (v : bool) : M unit :=
  h <- get ;; s <- lift (assign (discreteInputs h) addr v) ;; set_discreteInputs s.

(** ** NewModbusHandler *)

(** The body of the loop over [config.InitialData]. *)
Definition seed (config : ModbusConfig) (data : RegisterValue) : M unit :=
  if uint16 (MaxRegisters config) <=? Address data then
    log WARN "Initial data address out of bounds, skipping"
  else if String.eqb (Type_ data) "holding" then
    store_holding (Address data) (Value data)
  else if String.eqb (Type_ data) "input" then
    store_input (Address data) (Value data)
  else if String.eqb (Type_ data) "coil" then
    store_coil (Address data) (negb (Value data =? 0))
  else if String.eqb (Type_ data) "discrete" then
    store_discrete (Address data) (negb (Value data =? 0))
  else
    log WARN "Unknown initial data type in config, skipping".

(** The struct literal of [NewModbusHandler]: four fresh tables, the
    counter at its zero value, the start time taken from the clock. *)
Definition alloc (config : ModbusConfig) (now : Z) : run ModbusHandler :=
  match make 0 (MaxRegisters config), make 0 (MaxRegisters config),
        make false (MaxRegisters config), make false (MaxRegisters config) with
  | Ok hr, Ok ir, Ok cs, Ok ds =>
      Ok {| config := config; logger := [];
            holdingRegs := hr; inputRegs := ir; coils := cs; discreteInputs := ds;
            counter := 0;
            stats := {| RequestsHandled := 0; Errors := 0; StartTime := now |} |}
  | Panic e, _, _, _ | _, Panic e, _, _ | _, _, Panic e, _ | _, _, _, Panic e => Panic e
  end.

Definition NewModbusHandler (config : ModbusConfig) (now : Z) : run ModbusHandler :=
  match alloc config now with
  | Panic e => Panic e
  | Ok h =>
      match (for_each (InitialData config) (seed config) ;;
             store_holding (CounterAddress config) 0 ;;
             log INFO "Handler initialized") h with
      | (h', Ok _) => Ok h'
      | (_, Panic e) => Panic e
      end
  end.

(** ** UpdateCounter *)

Definition UpdateCounter : M unit :=
  h <- get ;;
  let oldValue := counter h in
  set_counter (uint16 (counter h + 1)) ;;
  h <- get ;;
  store_holding (CounterAddress (config h)) (counter h) ;;
  (if counter h =? 0 then
     log WARN "Counter overflow, resetting" ;;
     set_counter 1 ;;
     store_holding (CounterAddress (config h)) 1
   else ret tt) ;;
  log DEBUG "Counter updated".

(** ** GetStats *)

Definition GetStats (h : ModbusHandler) : Stats :=
  {| RequestsHandled := RequestsHandled (stats h);
     Errors := Errors (stats h);
     StartTime := StartTime (stats h) |}.

(** ** The four handlers *)

(** The body of the loop of [HandleHoldingRegisters]. *)
Definition holding_body (req : HR.t) (i : Z) (res : list Z) : M (list Z) :=
  let addr := HR.Addr req + i in
  (if HR.IsWrite req then
     h <- get ;;
     if negb (uint16 addr =? CounterAddress (config h)) then
       old <- load_holding addr ;;
       v <- lift (index (HR.Args req) i) ;;
       store_holding addr v ;;
       log DEBUG "Register written"
     else ret tt
   else ret tt) ;;
  x <- load_holding addr ;;
  ret (res ++ [x]).

Definition HandleHoldingRegisters (req : HR.t) : M (Reply Z) :=
  AddRequestsHandled 1 ;;
  h <- get ;;
  if negb (HR.UnitId req =? UnitID (config h)) then
    AddErrors 1 ;;
    log WARN "Invalid unit ID" ;;
    ret (Exception ErrIllegalFunction)
  else if len (holdingRegs h) <? HR.Addr req + HR.Quantity req then
    AddErrors 1 ;;
    log WARN "Address out of bounds" ;;
    ret (Exception ErrIllegalDataAddress)
  else
    res <- for_range (Z.to_nat (HR.Quantity req)) 0 (holding_body req) [] ;;
    log DEBUG "Holding registers handled" ;;
    ret (Values res).

(** The body of the loop of [HandleInputRegisters]. *)
Definition input_body (req : IR.t) (i : Z) (res : list Z) : M (list Z) :=
  x <- load_input (IR.Addr req + i) ;;
  ret (res ++ [x]).

Definition HandleInputRegisters (req : IR.t) : M (Reply Z) :=
  AddRequestsHandled 1 ;;
  h <- get ;;
  if negb (IR.UnitId req =? UnitID (config h)) then
    AddErrors 1 ;;
    ret (Exception ErrIllegalFunction)
  else if len (inputRegs h) <? IR.Addr req + IR.Quantity req then
    AddErrors 1 ;;
    ret (Exception ErrIllegalDataAddress)
  else
    res <- for_range (Z.to_nat (IR.Quantity req)) 0 (input_body req) [] ;;
    ret (Values res).

(** The body of the loop of [HandleCoils]. *)
Definition coils_body (req : CR.t) (i : Z) (res : list bool) : M (list bool) :=
  let addr := CR.Addr req + i in
  (if CR.IsWrite req then
     v <- lift (index (CR.Args req) i) ;;
     store_coil addr v
   else ret tt) ;;
  x <- load_coil addr ;;
  ret (res ++ [x]).

Definition HandleCoils (req : CR.t) : M (Reply bool) :=
  AddRequestsHandled 1 ;;
  h <- get ;;
  if negb (CR.UnitId req =? UnitID (config h)) then
    AddErrors 1 ;;
    ret (Exception ErrIllegalFunction)
  else if len (coils h) <? CR.Addr req + CR.Quantity req then
    AddErrors 1 ;;
    ret (Exception ErrIllegalDataAddress)
  else
    res <- for_range (Z.to_nat (CR.Quantity req)) 0 (coils_body req) [] ;;
    ret (Values res).

(** The body of the loop of [HandleDiscreteInputs]. *)
Definition discrete_body (req : DR.t) (i : Z) (res : list bool) : M (list bool) :=
  x <- load_discrete (DR.Addr req + i) ;;
  ret (res ++ [x]).

Definition HandleDiscreteInputs (req : DR.t) : M (Reply bool) :=
  AddRequestsHandled 1 ;;
  h <- get ;;
  if negb (DR.UnitId req =? UnitID (config h)) then
    AddErrors 1 ;;
    ret (Exception ErrIllegalFunction)
  else if len (discreteInputs h) <? DR.Addr req + DR.Quantity req then
    AddErrors 1 ;;
    ret (Exception ErrIllegalDataAddress)
  else
    res <- for_range (Z.to_nat (DR.Quantity req)) 0 (discrete_body req) [] ;;
    ret (Values res).

(** ** The configurations and requests of handler_test.go *)

Definition test_cfg (maxRegs ctr : Z) : ModbusConfig :=
  {| UnitID := 1; MaxRegisters := maxRegs; CounterAddress := ctr;
     UpdateInterval := 1; InitialData := [] |}.

Definition read_holding (unit addr qty : Z) : HR.t :=
  {| HR.UnitId := unit; HR.Addr := addr; HR.Quantity := qty;
     HR.IsWrite := false; HR.Args := [] |}.

Definition write_holding (unit addr : Z) (vs : list Z) : HR.t :=
  {| HR.UnitId := unit; HR.Addr := addr; HR.Quantity := len vs;
     HR.IsWrite := true; HR.Args := vs |}.

Definition read_coils (unit addr qty : Z) : CR.t :=
  {| CR.UnitId := unit; CR.Addr := addr; CR.Quantity := qty;
     CR.IsWrite := false; CR.Args := [] |}.

Definition write_coils (unit addr : Z) (vs : list bool) : CR.t :=
  {| CR.UnitId := unit; CR.Addr := addr; CR.Quantity := len vs;
     CR.IsWrite := true; CR.Args := vs |}.

(** [m] run on the handler a construction gave; [None] when the
    construction panicked. *)
Definition on_new {A} (c : ModbusConfig) (m : M A) : option (run A) :=
  match NewModbusHandler c 0 with
  | Ok h => Some (snd (m h))
  | Panic _ => None
  end.

(** ** The handler as the transport sees it

    The modbus library calls one of the four methods according to the
    function code of the request. *)

Inductive Request : Type :=
  | ReqHolding (r : HR.t)
  | ReqInput (r : IR.t)
  | ReqCoils (r : CR.t)
  | ReqDiscrete (r : DR.t).

Inductive Result : Type :=
  | Registers (res : list Z)
  | Bits (res : list bool)
  | Error (err : ModbusError).

Definition registers (r : Reply Z) : Result :=
  match r with Values res => Registers res | Exception e => Error e end.
Definition bits (r : Reply bool) : Result :=
  match r with Values res => Bits res | Exception e => Error e end.

Definition Handle (req : Request) : M Result :=
  match req with
  | ReqHolding r => x <- HandleHoldingRegisters r ;; ret (registers x)
  | ReqInput r => x <- HandleInputRegisters r ;; ret (registers x)
  | ReqCoils r => x <- HandleCoils r ;; ret (bits x)
  | ReqDiscrete r => x <- HandleDiscreteInputs r ;; ret (bits x)
  end.

Definition req_UnitId (req : Request) : Z :=
  match req with
  | ReqHolding r => HR.UnitId r | ReqInput r => IR.UnitId r
  | ReqCoils r => CR.UnitId r | ReqDiscrete r => DR.UnitId r
  end.

Definition req_Addr (req : Request) : Z :=
  match req with
  | ReqHolding r => HR.Addr r | ReqInput r => IR.Addr r
  | ReqCoils r => CR.Addr r | ReqDiscrete r => DR.Addr r
  end.

Definition req_Quantity (req : Request) : Z :=
  match req with
  | ReqHolding r => HR.Quantity r | ReqInput r => IR.Quantity r
  | ReqCoils r => CR.Quantity r | ReqDiscrete r => DR.Quantity r
  end.

(** The length of the table a request is aimed at. *)
Definition table_len (h : ModbusHandler) (req : Request) : Z :=
  match req with
  | ReqHolding _ => len (holdingRegs h) | ReqInput _ => len (inputRegs h)
  | ReqCoils _ => len (coils h) | ReqDiscrete _ => len (discreteInputs h)
  end.

(** The four tables and the counter are the same in [h] and [h']. *)
Definition same_tables (h h' : ModbusHandler) : Prop :=
  holdingRegs h' = holdingRegs h /\ inputRegs h' = inputRegs h /\
  coils h' = coils h /\ discreteInputs h' = discreteInputs h /\
  counter h' = counter h.

(** ** Executions: the counter loop's ticks and the clients' requests *)

Inductive Op : Type :=
  | Tick
  | Call (req : Request).

Definition exec_op (o : Op) : M unit :=
  match o with
  | Tick => UpdateCounter
  | Call req => Handle req ;; ret tt
  end.

Definition exec (ops : list Op) : M unit := for_each ops exec_op.

(** [h'] is what [ops] leave of [h] when none of them panics. *)
Definition runs_to (h : ModbusHandler) (ops : list Op) (h' : ModbusHandler) : Prop :=
  exec ops h = (h', Ok tt).

Definition is_call (o : Op) : bool :=
  match o with Tick => false | Call _ => true end.

(** The number of handler invocations among [ops]. *)
Definition calls (ops : list Op) : Z := len (filter (fun o => is_call o = true) ops).

(** ** server.go: Start *)

Module Server.

(** What [Start] does to the world around it, in order. *)
Inductive Event : Type :=
  | StartServer (attempt : Z)   (* a call of s.startServer *)
  | Wait (seconds : Z)          (* time.After(RetryDelay * time.Second) fired *)
  | Log (l : LogLevel) (msg : string).

Inductive StartResult : Type :=
  | Served                          (* startServer returned nil: it served until ctx was cancelled *)
  | CtxErr                          (* return ctx.Err() *)
  | MaxRetriesExceeded (max : Z).   (* fmt.Errorf("max retries (%d) exceeded", ...) *)

(** The collaborators: whether the call of [startServer] making attempt
    number [n] returns an error, and whether the context is found
    cancelled the [k]-th time a [select] consults [ctx.Done()]. *)
Record World : Type := {
  startServer_fails : Z -> bool;
  ctx_done : nat -> bool
}.

(** The [for] loop of [Start]; [fuel] bounds the number of iterations,
    [polls] counts the [select]s on [ctx.Done()] so far. *)
Fixpoint Start_loop (c : ServerConfig) (w : World) (fuel : nat)
    (retryCount : Z) (polls : nat) (trace : list Event)
    : option (StartResult * list Event) :=
  match fuel with
  | O => None
  | S fuel' =>
      let attempt (polls : nat) (trace : list Event) :=
        let trace := trace ++ [StartServer (retryCount + 1)] in
        if startServer_fails w (retryCount + 1) then
          Start_loop c w fuel' (retryCount + 1) polls
            (trace ++ [Log ERROR "Server start failed"])
        else Some (Served, trace) in
      if ctx_done w polls then Some (CtxErr, trace)
      else if 0 <? retryCount then
        if MaxRetries c <=? retryCount then
          Some (MaxRetriesExceeded (MaxRetries c), trace)
        else
          let trace := trace ++ [Log WARN "Retrying server start"] in
          if ctx_done w (S polls) then Some (CtxErr, trace)
          else attempt (S (S polls)) (trace ++ [Wait (RetryDelay c)])
      else attempt (S polls) trace
  end.

Definition Start (c : ServerConfig) (w : World) (fuel : nat)
    : option (StartResult * list Event) :=
  Start_loop c w fuel 0 0%nat [].

Definition is_attempt (e : Event) : bool :=
  match e with StartServer _ => true | _ => false end.
Definition is_wait (e : Event) : bool :=
  match e with Wait _ => true | _ => false end.
Definition is_action (e : Event) : bool := is_attempt e || is_wait e.

(** The attempts and waits of a trace, the log calls left out. *)
Definition actions (t : list Event) : list Event :=
  filter (fun e => is_action e = true) t.

(** Attempt [n], then a wait and the next attempt, [k] times over. *)
Fixpoint retries (c : ServerConfig) (n : Z) (k : nat) : list Event :=
  match k with
  | O => []
  | S k' => Wait (RetryDelay c) :: StartServer n :: retries c (n + 1) k'
  end.

(** How many times [startServer] was called, and how many retry delays
    were waited out. *)
Definition attempts (t : list Event) : Z :=
  len (filter (fun e => is_attempt e = true) t).
Definition waits (t : list Event) : Z :=
  len (filter (fun e => is_wait e = true) t).

(** A transport that never starts and a context that is never cancelled. *)
Definition always_failing : World :=
  {| startServer_fails := fun _ => true; ctx_done := fun _ => false |}.

End Server.

(** ** Predicates of the statements *)

(** [m] leaves every handler [h] related by [R] to what it makes of it,
    whether it returns or panics. *)
Definition preserves {A} (R : relation ModbusHandler) (m : M A) : Prop :=
  forall h, R h (fst (m h)).

(** What the loops of the handlers keep of the handler: everything but
    the log and the contents of the two writable tables, whose lengths
    stay, as does the holding register at the counter address. *)
Definition frame (h h' : ModbusHandler) : Prop :=
  config h' = config h /\ stats h' = stats h /\ counter h' = counter h /\
  inputRegs h' = inputRegs h /\ discreteInputs h' = discreteInputs h /\
  len (holdingRegs h') = len (holdingRegs h) /\
  len (coils h') = len (coils h) /\
  (uint16 (CounterAddress (config h)) = CounterAddress (config h) ->
   index (holdingRegs h') (CounterAddress (config h))
   = index (holdingRegs h) (CounterAddress (config h))).

(** The statistics after one invocation, failed or not. *)
Definition bumped (s s' : Stats) (failed : bool) : Prop :=
  RequestsHandled s' = uint64 (RequestsHandled s + 1) /\
  Errors s' = (if failed then uint64 (Errors s + 1) else Errors s) /\
  StartTime s' = StartTime s.

(** One invocation, from [h] to [h'] with outcome [r], of a handler whose
    request carries [unit], [addr] and [qty] and whose table has [tlen]
    entries. *)
Definition handled (h : ModbusHandler) (unit addr qty tlen : Z)
    (h' : ModbusHandler) (r : run Result) : Prop :=
  config h' = config h /\ counter h' = counter h /\
  inputRegs h' = inputRegs h /\ discreteInputs h' = discreteInputs h /\
  len (holdingRegs h') = len (holdingRegs h) /\
  len (coils h') = len (coils h) /\
  (uint16 (CounterAddress (config h)) = CounterAddress (config h) ->
   index (holdingRegs h') (CounterAddress (config h))
   = index (holdingRegs h) (CounterAddress (config h))) /\
  match r with
  | Ok (Error ErrIllegalFunction) =>
      unit <> UnitID (config h) /\ same_tables h h' /\
      bumped (stats h) (stats h') true
  | Ok (Error ErrIllegalDataAddress) =>
      unit = UnitID (config h) /\ tlen < addr + qty /\ same_tables h h' /\
      bumped (stats h) (stats h') true
  | Ok (Registers _) | Ok (Bits _) | Panic _ =>
      unit = UnitID (config h) /\ addr + qty <= tlen /\
      bumped (stats h) (stats h') false
  end.

(** What the data model promises of a handler: four tables of the
    configured length, and the counter mirrored in its holding register. *)
Definition consistent (h : ModbusHandler) : Prop :=
  wf_ModbusConfig (config h) /\
  len (holdingRegs h) = MaxRegisters (config h) /\
  len (inputRegs h) = MaxRegisters (config h) /\
  len (coils h) = MaxRegisters (config h) /\
  len (discreteInputs h) = MaxRegisters (config h) /\
  0 <= counter h <= MaxUint16 /\
  index (holdingRegs h) (CounterAddress (config h)) = Ok (counter h).

(** What seeding keeps of the freshly allocated handler. *)
Definition sized (c : ModbusConfig) (now : Z) (h : ModbusHandler) : Prop :=
  config h = c /\ counter h = 0 /\
  stats h = {| RequestsHandled := 0; Errors := 0; StartTime := now |} /\
  len (holdingRegs h) = MaxRegisters c /\
  len (inputRegs h) = MaxRegisters c /\
  len (coils h) = MaxRegisters c /\
  len (discreteInputs h) = MaxRegisters c.

(** The zero value of the struct, and the handler of a construction that
    is known not to panic. *)
Definition zero_handler (c : ModbusConfig) : ModbusHandler :=
  {| config := c; logger := []; holdingRegs := []; inputRegs := [];
     coils := []; discreteInputs := []; counter := 0;
     stats := {| RequestsHandled := 0; Errors := 0; StartTime := 0 |} |}.

Definition must_new (c : ModbusConfig) (now : Z) : ModbusHandler :=
  match NewModbusHandler c now with
  | Ok h => h
  | Panic _ => zero_handler c
  end.

(** The handler of the tests: 200 registers, counter at address 10. *)
Definition handler_200 : ModbusHandler := must_new (test_cfg 200 10) 0.

(** A request of the tests' handler with a foreign unit id, aimed past the
    end of the table. *)
Definition foreign_request : Request := ReqHolding (read_holding 99 199 5).

(** The handler of the tests after five ticks of the counter loop. *)
Definition five_ticks : list Op := [Tick; Tick; Tick; Tick; Tick].
Definition handler_200_at_5 : ModbusHandler := fst (exec five_ticks handler_200).

(** [n] ticks of the counter loop in a row. *)
Definition ticks (n : Z) : list Op := repeat Tick (Z.to_nat n).

(** The two entries [UpdateCounter] logs. *)
Definition overflow_warning : LogEntry :=
  {| Level := WARN; Message := "Counter overflow, resetting" |}.
Definition counter_updated : LogEntry :=
  {| Level := DEBUG; Message := "Counter updated" |}.

(** Write requests that announce more values than they carry. *)
Definition short_holding_write : HR.t :=
  {| HR.UnitId := 1; HR.Addr := 5; HR.Quantity := 2;
     HR.IsWrite := true; HR.Args := [7] |}.

Definition short_coils_write : CR.t :=
  {| CR.UnitId := 1; CR.Addr := 0; CR.Quantity := 2;
     CR.IsWrite := true; CR.Args := [true] |}.

(** A write of one register that carries no value, aimed at the counter. *)
Definition empty_counter_write : HR.t :=
  {| HR.UnitId := 1; HR.Addr := 10; HR.Quantity := 1;
     HR.IsWrite := true; HR.Args := [] |}.


(** The whole 16-bit address space, one holding register seeded. *)
Definition full_space_cfg : ModbusConfig :=
  {| UnitID := 1; MaxRegisters := 65536; CounterAddress := 0;
     UpdateInterval := 1;
     InitialData := [{| Type_ := "holding"; Address := 5; Value := 7 |}] |}.

(** The entries the construction logs. *)
Definition out_of_bounds_warning : LogEntry :=
  {| Level := WARN; Message := "Initial data address out of bounds, skipping" |}.
Definition unknown_type_warning : LogEntry :=
  {| Level := WARN; Message := "Unknown initial data type in config, skipping" |}.
Definition handler_initialized : LogEntry :=
  {| Level := INFO; Message := "Handler initialized" |}.

(** The table kinds [NewModbusHandler] knows. *)
Definition known_type (s : string) : bool :=
  String.eqb s "holding" || String.eqb s "input" ||
  String.eqb s "coil" || String.eqb s "discrete".

(** Whether an invocation failed: it returned an exception. *)
Definition failed (r : run Result) : bool :=
  match r with
  | Ok (Error _) => true
  | _ => false
  end.

(** [h] with its total-requests counter at [n]. *)
Definition with_requests (h : ModbusHandler) (n : Z) : ModbusHandler :=
  {| config := config h; logger := logger h; holdingRegs := holdingRegs h;
     inputRegs := inputRegs h; coils := coils h;
     discreteInputs := discreteInputs h; counter := counter h;
     stats := {| RequestsHandled := n; Errors := Errors (stats h);
                 StartTime := StartTime (stats h) |} |}.

(** A read of input register 0, and [n] of them in a row. *)
Definition probe : Request :=
  ReqInput {| IR.UnitId := 1; IR.Addr := 0; IR.Quantity := 1 |}.
Definition probes (n : Z) : list Op := repeat (Call probe) (Z.to_nat n).

(** A rejected request and a tick, then a probe, on the tests' handler. *)
Definition mixed_ops : list Op := [Call foreign_request; Tick].
Definition handler_200_mixed : ModbusHandler := fst (exec mixed_ops handler_200).
Definition handler_200_probed : ModbusHandler :=
  fst (exec [Call probe] handler_200_mixed).

(** A table longer than the 16-bit address space, and a write of twelve
    registers that runs past address 65535. *)
Definition long_table_cfg : ModbusConfig := test_cfg 65600 10.
Definition write_past_16_bits : HR.t :=
  write_holding 1 65535 [1; 2; 3; 4; 5; 6; 7; 8; 9; 10; 11; 12].

(** ** Further predicates and inputs of the statements *)

(** [s[a : a+q]] *)
Definition slice {A} (s : list A) (a q : Z) : list A :=
  take (Z.to_nat q) (drop (Z.to_nat a) s).

(** Whether a request asks for a write. *)
Definition is_write (req : Request) : bool :=
  match req with
  | ReqHolding r => HR.IsWrite r
  | ReqCoils r => CR.IsWrite r
  | ReqInput _ | ReqDiscrete _ => false
  end.

(** The range of the request's table as it stands in [h]. *)
Definition table_range (h : ModbusHandler) (req : Request) : Result :=
  match req with
  | ReqHolding r => Registers (slice (holdingRegs h) (HR.Addr r) (HR.Quantity r))
  | ReqInput r => Registers (slice (inputRegs h) (IR.Addr r) (IR.Quantity r))
  | ReqCoils r => Bits (slice (coils h) (CR.Addr r) (CR.Quantity r))
  | ReqDiscrete r => Bits (slice (discreteInputs h) (DR.Addr r) (DR.Quantity r))
  end.

(** The two tables no method writes after the construction. *)
Definition same_inputs (h h' : ModbusHandler) : Prop :=
  inputRegs h' = inputRegs h /\ discreteInputs h' = discreteInputs h.

(** The holding registers outside [[a, a+n)] and the other three tables
    are the same in [h] and [h']. *)
Definition holding_outside (a n : Z) (h h' : ModbusHandler) : Prop :=
  inputRegs h' = inputRegs h /\ coils h' = coils h /\
  discreteInputs h' = discreteInputs h /\ counter h' = counter h /\
  len (holdingRegs h') = len (holdingRegs h) /\
  forall j, ~ (a <= j < a + n) -> index (holdingRegs h') j = index (holdingRegs h) j.

(** The coils outside [[a, a+n)] and the other three tables are the same
    in [h] and [h']. *)
Definition coils_outside (a n : Z) (h h' : ModbusHandler) : Prop :=
  holdingRegs h' = holdingRegs h /\ inputRegs h' = inputRegs h /\
  discreteInputs h' = discreteInputs h /\ counter h' = counter h /\
  len (coils h') = len (coils h) /\
  forall j, ~ (a <= j < a + n) -> index (coils h') j = index (coils h) j.

(** [req] cut down to its first [n] positions. *)
Definition holding_prefix (req : HR.t) (n : Z) : HR.t :=
  {| HR.UnitId := HR.UnitId req; HR.Addr := HR.Addr req; HR.Quantity := n;
     HR.IsWrite := HR.IsWrite req; HR.Args := HR.Args req |}.

Definition coils_prefix (req : CR.t) (n : Z) : CR.t :=
  {| CR.UnitId := CR.UnitId req; CR.Addr := CR.Addr req; CR.Quantity := n;
     CR.IsWrite := CR.IsWrite req; CR.Args := CR.Args req |}.

(** The number of counter ticks among [ops]. *)
Definition is_tick (o : Op) : bool :=
  match o with Tick => true | Call _ => false end.
Definition tick_count (ops : list Op) : Z :=
  len (filter (fun o => is_tick o = true) ops).

(** The counter after [n] increments from zero: it runs from 1 to 65535
    and starts again at 1. *)
Definition counter_after (n : Z) : Z :=
  if n =? 0 then 0 else (n - 1) mod 65535 + 1.

(** Whether a seed entry passes the bound of the seed loop, and whether
    it is then stored at address [a] of the table of kind [kind]. *)
Definition applies (c : ModbusConfig) (d : RegisterValue) : bool :=
  Address d <? uint16 (MaxRegisters c).
Definition hits (c : ModbusConfig) (kind : string) (a : Z) (d : RegisterValue) : bool :=
  applies c d && String.eqb (Type_ d) kind && (Address d =? a).

(** The entry of a table of kind [kind] at address [a] once the seed
    entries [l] have been gone through in order, [v0] being what it held
    and [f] the conversion of the table: the last entry that hits wins. *)
Fixpoint seeded {A} (f : Z -> A) (c : ModbusConfig) (kind : string) (a : Z)
    (l : list RegisterValue) (v0 : A) : A :=
  match l with
  | [] => v0
  | d :: l' => seeded f c kind a l' (if hits c kind a d then f (Value d) else v0)
  end.

Definition register_of (v : Z) : Z := v.
Definition bit_of (v : Z) : bool := negb (v =? 0).

(** What the seed loop logs for one entry. *)
Definition seed_warning (c : ModbusConfig) (d : RegisterValue) : list LogEntry :=
  if applies c d then
    if known_type (Type_ d) then [] else [unknown_type_warning]
  else [out_of_bounds_warning].

(** The second example configuration of the README, with one entry out
    of range, one of an unknown kind and one overwritten added. *)
Definition hvac_cfg : ModbusConfig :=
  {| UnitID := 15; MaxRegisters := 200; CounterAddress := 99;
     UpdateInterval := 1;
     InitialData :=
       [{| Type_ := "coil"; Address := 0; Value := 0 |};
        {| Type_ := "coil"; Address := 1; Value := 0 |};
        {| Type_ := "discrete"; Address := 0; Value := 1 |};
        {| Type_ := "discrete"; Address := 1; Value := 0 |};
        {| Type_ := "holding"; Address := 10; Value := 720 |};
        {| Type_ := "input"; Address := 20; Value := 715 |};
        {| Type_ := "input"; Address := 21; Value := 45 |};
        {| Type_ := "holding"; Address := 300; Value := 1 |};
        {| Type_ := "Holding"; Address := 11; Value := 2 |};
        {| Type_ := "holding"; Address := 99; Value := 3 |};
        {| Type_ := "holding"; Address := 10; Value := 721 |}] |}.

(** ** server.go: what the statements about Start talk of *)

Module Startup.

(** [k] attempts numbered from [first], each but attempt 1 after a wait
    of the retry delay. *)
Fixpoint schedule (c : ServerConfig) (first : Z) (k : nat) : list Server.Event :=
  match k with
  | O => []
  | S k' =>
      (if first =? 1 then [] else [Server.Wait (RetryDelay c)])
      ++ Server.StartServer first :: schedule c (first + 1) k'
  end.

(** The most attempts [Start] makes. *)
Definition max_attempts (c : ServerConfig) : Z := Z.max 1 (MaxRetries c).

(** What a return of [Start] with result [r] after trace [t] says of the
    world [w]. *)
Definition outcome (c : ServerConfig) (w : Server.World)
    (r : Server.StartResult) (t : list Server.Event) : Prop :=
  match r with
  | Server.Served =>
      1 <= Server.attempts t /\
      Server.startServer_fails w (Server.attempts t) = false
  | Server.MaxRetriesExceeded x =>
      x = MaxRetries c /\ Server.attempts t = max_attempts c /\
      Server.startServer_fails w (Server.attempts t) = true
  | Server.CtxErr =>
      (exists p, Server.ctx_done w p = true) /\
      (1 <= Server.attempts t ->
       Server.startServer_fails w (Server.attempts t) = true)
  end.

(** How a call of [startServer] ends: [modbus.NewServer] returns an error,
    [server.Start] returns an error, or the server runs. *)
Inductive Stage : Type := NewServerFails | ListenFails | Serves.

(** What [startServer] has set up in the supervisor: whether [s.server]
    is set, and how many register updaters and health checkers have been
    spawned (each one added to [s.wg]). *)
Record Supervisor : Type := {
  server_set : bool;
  updaters : Z;
  health_checkers : Z
}.

Definition idle : Supervisor :=
  {| server_set := false; updaters := 0; health_checkers := 0 |}.

(** The function [startServer] up to its return: the goroutines are
    spawned before [server.Start] is called. *)
Definition startServer (o : Stage) (s : Supervisor) : Supervisor * bool :=
  match o with
  | NewServerFails => (s, true)
  | ListenFails =>
      ({| server_set := true; updaters := updaters s + 1;
          health_checkers := health_checkers s + 1 |}, true)
  | Serves =>
      ({| server_set := true; updaters := updaters s + 1;
          health_checkers := health_checkers s + 1 |}, false)
  end.

(** The world of [Start] when the calls of [startServer] end as [stage]
    says and no [select] of [Start] finds the context cancelled. *)
Definition world_of (stage : Z -> Stage) : Server.World :=
  {| Server.startServer_fails := fun n => snd (startServer (stage n) idle);
     Server.ctx_done := fun _ => false |}.


(** A port that is taken during the first two attempts and free at the
    third. *)
Definition port_busy_twice (n : Z) : Stage :=
  if n <=? 2 then ListenFails else Serves.

End Startup.

(** ** logger.go: the level of a logger and the test [log] starts with *)

Module mlog.

(** The values the constants DEBUG, INFO, WARN and ERROR stand for. *)
Definition rank (l : LogLevel) : Z :=
  match l with DEBUG => 0 | INFO => 1 | WARN => 2 | ERROR => 3 end.

(** The level [NewLogger] gives a logger configured with [s]. *)
Definition level_of (s : string) : LogLevel :=
  if String.eqb s "DEBUG" then DEBUG
  else if String.eqb s "WARN" then WARN
  else if String.eqb s "ERROR" then ERROR
  else INFO.

(** Whether [log] goes on to write an entry of level [level] when the
    logger runs at [configured]: it returns at once if
    [level < l.level]. *)
Definition passes (configured level : LogLevel) : bool :=
  negb (rank level <? rank configured).

(** The entries of [calls] that pass the level test of a logger
    configured with [s]: the ones [log] goes on to write, to the file if
    there is one and to the console if it is configured. *)
Definition written (s : string) (calls : list LogEntry) : list LogEntry :=
  filter (fun e => passes (level_of s) (Level e) = true) calls.

End mlog.

(** The entries [HandleHoldingRegisters] logs. *)
Definition invalid_unit_warning : LogEntry :=
  {| Level := WARN; Message := "Invalid unit ID" |}.
Definition address_warning : LogEntry :=
  {| Level := WARN; Message := "Address out of bounds" |}.
Definition register_written : LogEntry :=
  {| Level := DEBUG; Message := "Register written" |}.
Definition holding_handled : LogEntry :=
  {| Level := DEBUG; Message := "Holding registers handled" |}.

(** The log of [h'] is the log of [h] with entries that satisfy [P]
    added. *)
Definition logs_only (P : LogEntry -> Prop) (h h' : ModbusHandler) : Prop :=
  exists ext, logger h' = logger h ++ ext /\ Forall P ext.

Definition same_log (h h' : ModbusHandler) : Prop := logger h' = logger h.

(** ** server.go: the loop of the register updater *)





(** An entry below level ERROR. *)
Definition quiet (e : LogEntry) : Prop := Level e <> ERROR.

(** The log of one invocation, by handler and outcome. *)
Definition invocation_log (req : Request) (h : ModbusHandler) : Prop :=
  let h' := fst (Handle req h) in
  match req with
  | ReqHolding r =>
      match snd (Handle req h) with
      | Ok (Error ErrIllegalFunction) =>
          logger h' = logger h ++ [invalid_unit_warning]
      | Ok (Error ErrIllegalDataAddress) =>
          logger h' = logger h ++ [address_warning]
      | Ok _ =>
          exists ext,
            logger h' = logger h ++ ext ++ [holding_handled] /\
            Forall (eq register_written) ext /\
            (HR.IsWrite r = false -> ext = [])
      | Panic _ =>
          exists ext,
            logger h' = logger h ++ ext /\
            Forall (eq register_written) ext /\
            (HR.IsWrite r = false -> ext = [])
      end
  | _ => logger h' = logger h
  end.


(** ** Inputs the statements are run on *)

(** The handler of the README's second configuration, a read of its two
    seeded input registers, and a write of three holding registers that
    spans its counter address. *)
Definition hvac_handler : ModbusHandler := must_new hvac_cfg 0.
Definition hvac_inputs : Request :=
  ReqInput {| IR.UnitId := 15; IR.Addr := 20; IR.Quantity := 2 |}.
Definition hvac_write : HR.t := write_holding 15 98 [1; 2; 3].
Definition hvac_coils_write : CR.t := write_coils 15 0 [true; false; true].

(** Ticks of the counter loop between a rejected and a served request. *)
Definition busy_run : list Op :=
  [Tick; Call foreign_request; Tick; Call probe; Tick].
Definition handler_200_busy : ModbusHandler := fst (exec busy_run handler_200).

(** Three retries, a second apart. *)
Definition three_retries : ServerConfig := {| MaxRetries := 3; RetryDelay := 1 |}.

(** A transport that never starts and a context found cancelled from the
    [p]-th time it is consulted. *)
Definition cancelled_at (p : nat) : Server.World :=
  {| Server.startServer_fails := fun _ => true;
     Server.ctx_done := fun k => Nat.leb p k |}.

(** * Slices: what [index] and [assign] return *)

Section Slices.
Context {A : Type}.
Implicit Types (s : list A) (i j : Z) (v x : A).

Lemma len_nonneg s : 0 <= len s.
Proof. unfold len. lia. Qed.

Lemma in_range_dec s i :
  (i <? 0) || (len s <=? i) = false <-> 0 <= i < len s.
Proof. rewrite orb_false_iff, Z.ltb_ge, Z.leb_gt. tauto. Qed.

Lemma out_of_range_dec s i :
  (i <? 0) || (len s <=? i) = true <-> ~ 0 <= i < len s.
Proof. rewrite orb_true_iff, Z.ltb_lt, Z.leb_le. lia. Qed.

Lemma index_Ok s i :
  0 <= i < len s -> exists x, index s i = Ok x /\ s !! Z.to_nat i = Some x.
Proof.
  intros Hi. unfold index.
  rewrite (proj2 (in_range_dec s i) Hi).
  destruct (lookup_lt_is_Some_2 s (Z.to_nat i)) as [x Hx].
  - unfold len in Hi. lia.
  - exists x. rewrite Hx. auto.
Qed.

Lemma index_Panic s i :
  ~ 0 <= i < len s -> index s i = Panic (IndexOutOfRange i (len s)).
Proof.
  intros Hi. unfold index. now rewrite (proj2 (out_of_range_dec s i) Hi).
Qed.

Lemma index_Ok_inv s i x : index s i = Ok x -> 0 <= i < len s.
Proof.
  intros H. destruct (decide (0 <= i < len s)) as [|Hn]; [assumption|].
  rewrite (index_Panic s i Hn) in H. discriminate.
Qed.

Lemma assign_Ok s i v :
  0 <= i < len s -> assign s i v = Ok (<[Z.to_nat i := v]> s).
Proof.
  intros Hi. unfold assign. now rewrite (proj2 (in_range_dec s i) Hi).
Qed.

Lemma assign_Panic s i v :
  ~ 0 <= i < len s -> assign s i v = Panic (IndexOutOfRange i (len s)).
Proof.
  intros Hi. unfold assign. now rewrite (proj2 (out_of_range_dec s i) Hi).
Qed.

Lemma assign_Ok_inv s i v s' :
  assign s i v = Ok s' -> 0 <= i < len s /\ s' = <[Z.to_nat i := v]> s.
Proof.
  intros H. destruct (decide (0 <= i < len s)) as [Hi|Hn].
  - rewrite (assign_Ok s i v Hi) in H. now inversion H.
  - rewrite (assign_Panic s i v Hn) in H. discriminate.
Qed.

Lemma len_insert s (n : nat) v : len (<[n := v]> s) = len s.
Proof. unfold len. now rewrite length_insert. Qed.

Lemma assign_len s i v s' : assign s i v = Ok s' -> len s' = len s.
Proof. intros [_ ->]%assign_Ok_inv. apply len_insert. Qed.

Lemma index_assign_eq s i v s' : assign s i v = Ok s' -> index s' i = Ok v.
Proof.
  intros [Hi ->]%assign_Ok_inv.
  destruct (index_Ok (<[Z.to_nat i := v]> s) i) as (x & Hx & Hl).
  - now rewrite len_insert.
  - rewrite list_lookup_insert_eq in Hl by (unfold len in Hi; lia).
    congruence.
Qed.

Lemma index_assign_ne s i j v s' :
  assign s i v = Ok s' -> j <> i -> index s' j = index s j.
Proof.
  intros [Hi ->]%assign_Ok_inv Hne. unfold index.
  rewrite len_insert.
  destruct ((j <? 0) || (len s <=? j)) eqn:Hj; [reflexivity|].
  apply in_range_dec in Hj.
  rewrite list_lookup_insert_ne by lia. reflexivity.
Qed.

Lemma len_replicate (n : Z) v : 0 <= n -> len (replicate (Z.to_nat n) v) = n.
Proof. intros Hn. unfold len. rewrite length_replicate. lia. Qed.

Lemma make_Ok (z : A) (n : Z) :
  0 <= n -> make z n = Ok (replicate (Z.to_nat n) z).
Proof. intros Hn. unfold make. destruct (Z.ltb_spec n 0); [lia | reflexivity]. Qed.

Lemma index_replicate (n : Z) (z : A) i :
  0 <= i < n -> index (replicate (Z.to_nat n) z) i = Ok z.
Proof.
  intros Hi.
  destruct (index_Ok (replicate (Z.to_nat n) z) i) as (x & Hx & Hl).
  - rewrite len_replicate; lia.
  - apply lookup_replicate in Hl as [-> _]. exact Hx.
Qed.
End Slices.

Lemma uint16_small (x : Z) : 0 <= x <= MaxUint16 -> uint16 x = x.
Proof. unfold uint16, MaxUint16. intros H. apply Z.mod_small. lia. Qed.

Lemma uint16_range (x : Z) : 0 <= uint16 x <= MaxUint16.
Proof. unfold uint16, MaxUint16. pose proof (Z.mod_pos_bound x 65536). lia. Qed.

Lemma uint64_small (x : Z) : 0 <= x <= MaxUint64 -> uint64 x = x.
Proof. unfold uint64, MaxUint64. intros H. apply Z.mod_small. lia. Qed.

Lemma uint64_range (x : Z) : 0 <= uint64 x <= MaxUint64.
Proof.
  unfold uint64, MaxUint64.
  pose proof (Z.mod_pos_bound x 18446744073709551616). lia.
Qed.

(** * The monad: what a computation keeps of the handler *)

Section Preserves.
Context (R : relation ModbusHandler) `{!PreOrder R}.

Lemma preserves_ret {A} (a : A) : preserves R (ret a).
Proof. intros h. simpl. reflexivity. Qed.

Lemma preserves_get : preserves R get.
Proof. intros h. simpl. reflexivity. Qed.

Lemma preserves_lift {A} (r : run A) : preserves R (lift r).
Proof. intros h. simpl. reflexivity. Qed.

Lemma preserves_bind {A B} (m : M A) (f : A -> M B) :
  preserves R m -> (forall a, preserves R (f a)) -> preserves R (bind m f).
Proof.
  intros Hm Hf h. unfold bind. specialize (Hm h).
  destruct (m h) as [h1 [a|e]]; simpl in *.
  - etransitivity; [exact Hm | apply Hf].
  - exact Hm.
Qed.

Lemma preserves_for_range {A} (body : Z -> A -> M A) :
  (forall i res, preserves R (body i res)) ->
  forall n i res, preserves R (for_range n i body res).
Proof.
  intros Hb n. induction n as [|n IH]; intros i res; simpl.
  - apply preserves_ret.
  - apply preserves_bind; [apply Hb | intros a; apply IH].
Qed.

Lemma preserves_for_each {A} (body : A -> M unit) :
  (forall x, preserves R (body x)) ->
  forall l, preserves R (for_each l body).
Proof.
  intros Hb l. induction l as [|x l IH]; simpl.
  - apply preserves_ret.
  - apply preserves_bind; [apply Hb | intros _; exact IH].
Qed.
End Preserves.

(** A loop that returns has run every iteration; one that finds its
    iterations returning returns. *)
Lemma for_range_app {A} (body : Z -> A -> M A) (n1 n2 : nat) :
  forall i res h,
    for_range (n1 + n2) i body res h =
    (res' <- for_range n1 i body res ;; for_range n2 (i + Z.of_nat n1) body res') h.
Proof.
  induction n1 as [|n1 IH]; intros i res h.
  - simpl. unfold bind, ret. now rewrite Z.add_0_r.
  - simpl. unfold bind.
    destruct (body i res h) as [h1 [r|e]]; [|reflexivity].
    rewrite IH. unfold bind.
    replace (i + 1 + Z.of_nat n1) with (i + Z.pos (Pos.of_succ_nat n1)) by lia.
    reflexivity.
Qed.


(** * What the handlers keep *)

Arguments index : simpl never.
Arguments assign : simpl never.
Arguments uint16 : simpl never.
Arguments uint64 : simpl never.
Arguments len : simpl never.

#[local] Instance frame_preorder : PreOrder frame.
Proof.
  split.
  - intros h. unfold frame. tauto.
  - intros h1 h2 h3 (C1 & S1 & K1 & I1 & D1 & L1 & M1 & P1) (C2 & S2 & K2 & I2 & D2 & L2 & M2 & P2).
    unfold frame. rewrite C1 in P2.
    repeat split; try congruence.
    intros Hc. rewrite (P2 Hc). exact (P1 Hc).
Qed.

(** Cases on every result a computation scrutinises. *)
Ltac run_cases :=
  repeat (simpl;
          match goal with
          | |- context [match ?x with _ => _ end] =>
              lazymatch x with
              | context [match _ with _ => _ end] => fail
              | _ => destruct x eqn:?
              end
          end); simpl.

Ltac frame_leaf :=
  unfold frame; simpl; repeat split; try reflexivity;
  try match goal with
      | H : assign _ _ _ = Ok ?s |- len ?s = _ => exact (assign_len _ _ _ _ H)
      end.

Lemma log_frame l msg : preserves frame (log l msg).
Proof. intros h. frame_leaf. Qed.

Lemma input_body_frame req i res : preserves frame (input_body req i res).
Proof.
  intros h. unfold input_body, load_input, bind, get, lift, ret.
  run_cases; frame_leaf.
Qed.

Lemma discrete_body_frame req i res : preserves frame (discrete_body req i res).
Proof.
  intros h. unfold discrete_body, load_discrete, bind, get, lift, ret.
  run_cases; frame_leaf.
Qed.

Lemma coils_body_frame req i res : preserves frame (coils_body req i res).
Proof.
  intros h.
  unfold coils_body, load_coil, store_coil, set_coils, bind, get, lift, ret.
  destruct (CR.IsWrite req); run_cases; frame_leaf.
Qed.

Lemma holding_body_frame req i res : preserves frame (holding_body req i res).
Proof.
  intros h.
  unfold holding_body, load_holding, store_holding, set_holdingRegs, log,
    bind, get, lift, ret.
  destruct (HR.IsWrite req); run_cases; frame_leaf;
    intros Hc;
    match goal with
    | H : assign _ _ _ = Ok _ |- _ => apply (index_assign_ne _ _ _ _ _ H)
    end;
    intros Heq;
    match goal with
    | H : negb (_ =? _) = true |- _ =>
        apply negb_true_iff, Z.eqb_neq in H; rewrite <- Heq in H; congruence
    end.
Qed.

(** * One invocation of a handler *)

Ltac handler_steps :=
  unfold AddRequestsHandled, AddErrors, set_stats, log, bind, get, ret; simpl.

Ltac handled_leaf :=
  unfold handled, same_tables, bumped; simpl;
  repeat match goal with
         | H : frame _ _ |- _ =>
             destruct H as (? & ? & ? & ? & ? & ? & ? & ?); simpl in *
         | H : negb (_ =? _) = true |- _ => apply negb_true_iff, Z.eqb_neq in H
         | H : negb (_ =? _) = false |- _ => apply negb_false_iff, Z.eqb_eq in H
         | H : (_ <? _) = true |- _ => apply Z.ltb_lt in H
         | H : (_ <? _) = false |- _ => apply Z.ltb_ge in H
         end;
  repeat split; try reflexivity; try assumption; try congruence; try lia;
  try match goal with
      | H : stats ?h2 = _ |- context [stats ?h2] => rewrite H; reflexivity
      end.

Lemma HandleHoldingRegisters_handled req h :
  handled h (HR.UnitId req) (HR.Addr req) (HR.Quantity req) (len (holdingRegs h))
    (fst (Handle (ReqHolding req) h)) (snd (Handle (ReqHolding req) h)).
Proof.
  unfold Handle, HandleHoldingRegisters. handler_steps.
  destruct (negb (HR.UnitId req =? UnitID (config h))) eqn:Hu; simpl;
    [handled_leaf|].
  destruct (len (holdingRegs h) <? HR.Addr req + HR.Quantity req) eqn:Hb; simpl;
    [handled_leaf|].
  match goal with
  | |- context [for_range ?n ?i ?b ?r ?h1] =>
      pose proof (preserves_for_range frame b (holding_body_frame req) n i r h1) as Hf;
      destruct (for_range n i b r h1) as [h2 [res|e]]
  end; simpl in *; handled_leaf.
Qed.

Lemma HandleInputRegisters_handled req h :
  handled h (IR.UnitId req) (IR.Addr req) (IR.Quantity req) (len (inputRegs h))
    (fst (Handle (ReqInput req) h)) (snd (Handle (ReqInput req) h)).
Proof.
  unfold Handle, HandleInputRegisters. handler_steps.
  destruct (negb (IR.UnitId req =? UnitID (config h))) eqn:Hu; simpl;
    [handled_leaf|].
  destruct (len (inputRegs h) <? IR.Addr req + IR.Quantity req) eqn:Hb; simpl;
    [handled_leaf|].
  match goal with
  | |- context [for_range ?n ?i ?b ?r ?h1] =>
      pose proof (preserves_for_range frame b (input_body_frame req) n i r h1) as Hf;
      destruct (for_range n i b r h1) as [h2 [res|e]]
  end; simpl in *; handled_leaf.
Qed.

Lemma HandleCoils_handled req h :
  handled h (CR.UnitId req) (CR.Addr req) (CR.Quantity req) (len (coils h))
    (fst (Handle (ReqCoils req) h)) (snd (Handle (ReqCoils req) h)).
Proof.
  unfold Handle, HandleCoils. handler_steps.
  destruct (negb (CR.UnitId req =? UnitID (config h))) eqn:Hu; simpl;
    [handled_leaf|].
  destruct (len (coils h) <? CR.Addr req + CR.Quantity req) eqn:Hb; simpl;
    [handled_leaf|].
  match goal with
  | |- context [for_range ?n ?i ?b ?r ?h1] =>
      pose proof (preserves_for_range frame b (coils_body_frame req) n i r h1) as Hf;
      destruct (for_range n i b r h1) as [h2 [res|e]]
  end; simpl in *; handled_leaf.
Qed.

Lemma HandleDiscreteInputs_handled req h :
  handled h (DR.UnitId req) (DR.Addr req) (DR.Quantity req) (len (discreteInputs h))
    (fst (Handle (ReqDiscrete req) h)) (snd (Handle (ReqDiscrete req) h)).
Proof.
  unfold Handle, HandleDiscreteInputs. handler_steps.
  destruct (negb (DR.UnitId req =? UnitID (config h))) eqn:Hu; simpl;
    [handled_leaf|].
  destruct (len (discreteInputs h) <? DR.Addr req + DR.Quantity req) eqn:Hb; simpl;
    [handled_leaf|].
  match goal with
  | |- context [for_range ?n ?i ?b ?r ?h1] =>
      pose proof (preserves_for_range frame b (discrete_body_frame req) n i r h1) as Hf;
      destruct (for_range n i b r h1) as [h2 [res|e]]
  end; simpl in *; handled_leaf.
Qed.

Lemma Handle_handled req h :
  handled h (req_UnitId req) (req_Addr req) (req_Quantity req) (table_len h req)
    (fst (Handle req h)) (snd (Handle req h)).
Proof.
  destruct req as [r|r|r|r]; simpl req_UnitId; simpl req_Addr;
    simpl req_Quantity; simpl table_len.
  - apply HandleHoldingRegisters_handled.
  - apply HandleInputRegisters_handled.
  - apply HandleCoils_handled.
  - apply HandleDiscreteInputs_handled.
Qed.

(** * Running computations *)

Lemma bind_Ok {A B} (m : M A) (f : A -> M B) h h1 a :
  m h = (h1, Ok a) -> bind m f h = f a h1.
Proof. intros E. unfold bind. now rewrite E. Qed.

Lemma bind_Panic {A B} (m : M A) (f : A -> M B) h h1 e :
  m h = (h1, Panic e) -> bind m f h = (h1, Panic e).
Proof. intros E. unfold bind. now rewrite E. Qed.

Lemma bind_Ok_inv {A B} (m : M A) (f : A -> M B) h h2 b :
  bind m f h = (h2, Ok b) ->
  exists h1 a, m h = (h1, Ok a) /\ f a h1 = (h2, Ok b).
Proof.
  unfold bind. destruct (m h) as [h1 [a|e]]; intros E.
  - exists h1, a. auto.
  - discriminate.
Qed.

Lemma for_each_total {A} (Q : ModbusHandler -> Prop) (body : A -> M unit) (l : list A) :
  (forall x h, In x l -> Q h -> exists h', body x h = (h', Ok tt) /\ Q h') ->
  forall h, Q h -> exists h', for_each l body h = (h', Ok tt) /\ Q h'.
Proof.
  induction l as [|x l IH]; intros Hb h HQ.
  - exists h. split; [reflexivity | exact HQ].
  - destruct (Hb x h (or_introl eq_refl) HQ) as (h1 & E1 & HQ1).
    destruct (IH (fun y k Hy => Hb y k (or_intror Hy)) h1 HQ1) as (h2 & E2 & HQ2).
    exists h2. split; [|exact HQ2].
    simpl. now rewrite (bind_Ok _ _ _ _ _ E1).
Qed.

Lemma for_each_app {A} (body : A -> M unit) (l1 l2 : list A) h :
  for_each (l1 ++ l2) body h = (for_each l1 body ;; for_each l2 body) h.
Proof.
  revert h. induction l1 as [|x l1 IH]; intros h; simpl.
  - reflexivity.
  - unfold bind. destruct (body x h) as [h1 [[]|e]]; [|reflexivity].
    rewrite IH. reflexivity.
Qed.

(** * NewModbusHandler *)

Lemma alloc_Ok c now :
  0 <= MaxRegisters c ->
  exists h, alloc c now = Ok h /\ sized c now h /\ logger h = [] /\
    holdingRegs h = replicate (Z.to_nat (MaxRegisters c)) 0 /\
    inputRegs h = replicate (Z.to_nat (MaxRegisters c)) 0 /\
    coils h = replicate (Z.to_nat (MaxRegisters c)) false /\
    discreteInputs h = replicate (Z.to_nat (MaxRegisters c)) false.
Proof.
  intros Hm. unfold alloc. rewrite !make_Ok by assumption.
  eexists. split; [reflexivity|].
  unfold sized; simpl. rewrite !len_replicate by assumption.
  repeat split; reflexivity.
Qed.

Lemma alloc_Panic c now :
  MaxRegisters c < 0 -> alloc c now = Panic MakeSliceLenOutOfRange.
Proof.
  intros Hm. unfold alloc, make.
  destruct (Z.ltb_spec (MaxRegisters c) 0); [reflexivity | lia].
Qed.

Lemma uint16_le (x : Z) : 0 <= x -> uint16 x <= x.
Proof. intros Hx. unfold uint16. apply Z.mod_le; lia. Qed.

(** No seed entry makes the construction panic, and none resizes a table. *)
Lemma seed_total c now d h :
  0 <= Address d -> sized c now h ->
  exists h', seed c d h = (h', Ok tt) /\ sized c now h'.
Proof.
  intros Hd (Hc & Hk & Hs & L1 & L2 & L3 & L4).
  assert (Hm : 0 <= MaxRegisters c) by (rewrite <- L1; apply len_nonneg).
  unfold seed.
  destruct (Z.leb_spec (uint16 (MaxRegisters c)) (Address d)) as [Hge|Hlt].
  { eexists. split; [reflexivity|]. unfold sized; simpl. tauto. }
  pose proof (uint16_le _ Hm) as Hle.
  repeat match goal with
         | |- context [String.eqb ?a ?b] => destruct (String.eqb a b)
         end;
    unfold store_holding, store_input, store_coil, store_discrete,
      set_holdingRegs, set_inputRegs, set_coils, set_discreteInputs,
      bind, get, lift, log;
    try rewrite assign_Ok by lia;
    (eexists; split; [reflexivity|]);
    unfold sized; simpl; rewrite ?len_insert; tauto.
Qed.

Lemma seeding_total c now h :
  Forall wf_RegisterValue (InitialData c) -> sized c now h ->
  exists h', for_each (InitialData c) (seed c) h = (h', Ok tt) /\ sized c now h'.
Proof.
  intros Hwf. apply for_each_total.
  intros d k Hin Hk. apply seed_total; [|exact Hk].
  rewrite Forall_forall in Hwf. apply list_elem_of_In in Hin.
  destruct (Hwf d Hin) as [[? _] _]. assumption.
Qed.

(** The construction: it panics exactly when the table size is negative
    or the counter address lies outside the tables. *)
Lemma NewModbusHandler_Ok c now :
  wf_ModbusConfig c -> CounterAddress c < MaxRegisters c ->
  exists h, NewModbusHandler c now = Ok h /\ sized c now h /\
    index (holdingRegs h) (CounterAddress c) = Ok 0.
Proof.
  intros (Hu & Hca & Hwf) Hlt.
  destruct (alloc_Ok c now ltac:(lia)) as (ha & Ea & Sa & _).
  destruct (seeding_total c now ha Hwf Sa) as (hs & Es & Ss).
  unfold NewModbusHandler. rewrite Ea.
  rewrite (bind_Ok _ _ _ _ _ Es).
  pose proof Ss as (Hc & Hk & Hst & L1 & L2 & L3 & L4).
  unfold store_holding, set_holdingRegs, log, bind, get, lift.
  rewrite assign_Ok by lia. simpl.
  eexists. split; [reflexivity|]. split.
  - unfold sized; simpl. rewrite len_insert. tauto.
  - simpl. apply (index_assign_eq (holdingRegs hs)). apply assign_Ok. lia.
Qed.

Lemma NewModbusHandler_Panic c now :
  wf_ModbusConfig c -> MaxRegisters c <= CounterAddress c ->
  NewModbusHandler c now =
  Panic (if MaxRegisters c <? 0 then MakeSliceLenOutOfRange
         else IndexOutOfRange (CounterAddress c) (MaxRegisters c)).
Proof.
  intros (Hu & Hca & Hwf) Hge.
  destruct (Z.ltb_spec (MaxRegisters c) 0) as [Hneg|Hpos].
  { unfold NewModbusHandler. now rewrite alloc_Panic. }
  destruct (alloc_Ok c now Hpos) as (ha & Ea & Sa & _).
  destruct (seeding_total c now ha Hwf Sa) as (hs & Es & Ss).
  unfold NewModbusHandler. rewrite Ea.
  rewrite (bind_Ok _ _ _ _ _ Es).
  destruct Ss as (Hc & Hk & Hst & L1 & L2 & L3 & L4).
  unfold store_holding, set_holdingRegs, log, bind, get, lift.
  rewrite assign_Panic by lia. simpl. now rewrite L1.
Qed.

Lemma NewModbusHandler_consistent c now h :
  wf_ModbusConfig c -> NewModbusHandler c now = Ok h ->
  consistent h /\ sized c now h.
Proof.
  intros Hwf E.
  destruct (Z.lt_ge_cases (CounterAddress c) (MaxRegisters c)) as [Hlt|Hge].
  - destruct (NewModbusHandler_Ok c now Hwf Hlt) as (h' & E' & Ss & Hi).
    rewrite E in E'. inversion E'; subst h'. split; [|exact Ss].
    destruct Ss as (Hc & Hk & Hst & L1 & L2 & L3 & L4).
    unfold consistent. rewrite Hc, Hk. unfold MaxUint16.
    repeat split; try assumption; try lia; apply Hwf.
  - rewrite (NewModbusHandler_Panic c now Hwf Hge) in E. discriminate.
Qed.

(** * UpdateCounter *)

Lemma UpdateCounter_spec h :
  consistent h ->
  exists h',
    UpdateCounter h = (h', Ok tt) /\ consistent h' /\
    config h' = config h /\ stats h' = stats h /\
    inputRegs h' = inputRegs h /\ coils h' = coils h /\
    discreteInputs h' = discreteInputs h /\
    counter h' = (if counter h =? MaxUint16 then 1 else counter h + 1) /\
    logger h' =
      logger h
      ++ (if counter h =? MaxUint16
          then [{| Level := WARN; Message := "Counter overflow, resetting" |}]
          else [])
      ++ [{| Level := DEBUG; Message := "Counter updated" |}] /\
    index (holdingRegs h') (CounterAddress (config h)) = Ok (counter h') /\
    (forall j, j <> CounterAddress (config h) ->
       index (holdingRegs h') j = index (holdingRegs h) j).
Proof.
  intros (Hwf & L1 & L2 & L3 & L4 & Hk & Hi).
  pose proof (index_Ok_inv _ _ _ Hi) as Hca.
  unfold UpdateCounter, store_holding, set_holdingRegs, set_counter, log,
    bind, get, lift, ret. simpl.
  rewrite assign_Ok by assumption. simpl.
  destruct (Z.eqb_spec (counter h) MaxUint16) as [Hmax|Hlt].
  - rewrite Hmax. change (uint16 (MaxUint16 + 1)) with 0. simpl.
    rewrite assign_Ok by (rewrite len_insert; assumption). simpl.
    eexists. split; [reflexivity|].
    assert (Hnew : index (<[Z.to_nat (CounterAddress (config h)) := 1]>
                     (<[Z.to_nat (CounterAddress (config h)) := 0]> (holdingRegs h)))
                     (CounterAddress (config h)) = Ok 1).
    { eapply index_assign_eq. apply assign_Ok. now rewrite len_insert. }
    unfold consistent; simpl. rewrite !len_insert. unfold MaxUint16.
    repeat split; try assumption; try lia; try apply Hwf.
    + rewrite <- app_assoc. reflexivity.
    + intros j Hj.
      rewrite (index_assign_ne (<[Z.to_nat (CounterAddress (config h)) := 0]> (holdingRegs h))
                 (CounterAddress (config h)) j 1)
        by (first [apply assign_Ok; now rewrite len_insert | assumption]).
      apply (index_assign_ne (holdingRegs h) (CounterAddress (config h)) j 0);
        [now apply assign_Ok | assumption].
  - assert (Hs : uint16 (counter h + 1) = counter h + 1)
      by (apply uint16_small; unfold MaxUint16 in *; lia).
    rewrite Hs.
    destruct (Z.eqb_spec (counter h + 1) 0) as [H0|_]; [lia|]. simpl.
    eexists. split; [reflexivity|].
    unfold consistent; simpl. rewrite !len_insert. unfold MaxUint16 in *.
    repeat split; try assumption; try lia; try apply Hwf.
    + eapply index_assign_eq. now apply assign_Ok.
    + eapply index_assign_eq. now apply assign_Ok.
    + intros j Hj.
      apply (index_assign_ne (holdingRegs h) (CounterAddress (config h)) j (counter h + 1));
        [now apply assign_Ok | assumption].
Qed.

(** * Executions keep the data model *)

Lemma handled_consistent h unit addr qty tlen h' r :
  consistent h -> handled h unit addr qty tlen h' r -> consistent h'.
Proof.
  intros (Hwf & L1 & L2 & L3 & L4 & Hk & Hi)
         (Hc & Hcnt & Hin & Hdi & Lh & Lc & Hp & _).
  unfold consistent. rewrite Hc, Hcnt, Hin, Hdi, Lh, Lc.
  repeat split; try assumption; try apply Hwf; try apply Hk.
  rewrite Hp; [exact Hi|].
  apply uint16_small. apply Hwf.
Qed.

Lemma exec_op_consistent o h h' :
  consistent h -> exec_op o h = (h', Ok tt) -> consistent h'.
Proof.
  intros Hc E. destruct o as [|req]; simpl in E.
  - destruct (UpdateCounter_spec h Hc) as (h1 & E1 & Hc1 & _).
    rewrite E1 in E. now inversion E; subst.
  - pose proof (Handle_handled req h) as Hh.
    unfold bind in E. destruct (Handle req h) as [h1 [r|e]]; [|discriminate].
    simpl in Hh. inversion E; subst. eapply handled_consistent; eassumption.
Qed.

Lemma runs_to_nil h h' : runs_to h [] h' <-> h' = h.
Proof.
  unfold runs_to, exec. simpl. unfold ret. split.
  - intros E. now inversion E.
  - intros ->. reflexivity.
Qed.

Lemma runs_to_cons h o ops h' :
  runs_to h (o :: ops) h' <->
  exists h1, exec_op o h = (h1, Ok tt) /\ runs_to h1 ops h'.
Proof.
  unfold runs_to, exec. simpl. split.
  - intros E. apply bind_Ok_inv in E as (h1 & [] & E1 & E2). eauto.
  - intros (h1 & E1 & E2). now rewrite (bind_Ok _ _ _ _ _ E1).
Qed.

Lemma runs_to_app h ops1 ops2 h' :
  runs_to h (ops1 ++ ops2) h' <->
  exists h1, runs_to h ops1 h1 /\ runs_to h1 ops2 h'.
Proof.
  revert h. induction ops1 as [|o ops1 IH]; intros h; simpl.
  - split.
    + intros E. exists h. split; [now apply runs_to_nil | exact E].
    + intros (h1 & ->%runs_to_nil & E). exact E.
  - rewrite runs_to_cons. split.
    + intros (h1 & E1 & (h2 & E2 & E3)%IH).
      exists h2. split; [apply runs_to_cons; eauto | exact E3].
    + intros (h2 & (h1 & E1 & E2)%runs_to_cons & E3).
      exists h1. split; [exact E1 | apply IH; eauto].
Qed.

Lemma runs_to_consistent h ops h' :
  consistent h -> runs_to h ops h' -> consistent h'.
Proof.
  revert h. induction ops as [|o ops IH]; intros h Hc.
  - now intros ->%runs_to_nil.
  - intros (h1 & E1 & E2)%runs_to_cons.
    eapply IH; [|exact E2]. eapply exec_op_consistent; eassumption.
Qed.

Lemma runs_to_config h ops h' :
  consistent h -> runs_to h ops h' -> config h' = config h.
Proof.
  revert h. induction ops as [|o ops IH]; intros h Hc.
  - now intros ->%runs_to_nil.
  - intros (h1 & E1 & E2)%runs_to_cons.
    rewrite (IH h1 (exec_op_consistent _ _ _ Hc E1) E2).
    destruct o as [|req]; simpl in E1.
    + destruct (UpdateCounter_spec h Hc) as (h2 & Eu & _ & Hcfg & _).
      rewrite Eu in E1. now inversion E1; subst.
    + pose proof (Handle_handled req h) as Hh.
      unfold bind in E1. destruct (Handle req h) as [h2 [r|e]]; [|discriminate].
      inversion E1; subst. apply Hh.
Qed.

(** * The rejections *)

Lemma Handle_mismatch (req : Request) (h : ModbusHandler) :
  req_UnitId req <> UnitID (config h) ->
  snd (Handle req h) = Ok (Error ErrIllegalFunction) /\
  same_tables h (fst (Handle req h)) /\
  bumped (stats h) (stats (fst (Handle req h))) true.
Proof.
  intros Hne. pose proof (Handle_handled req h) as (_ & _ & _ & _ & _ & _ & _ & Hr).
  destruct (snd (Handle req h)) as [[res|res|[|]]|e];
    try (destruct Hr as (Heq & _); contradiction).
  destruct Hr as (_ & Hs & Hb). auto.
Qed.

(** C3: a request whose unit identity differs from the configured one is
    answered with IllegalFunction, whichever of the four tables it is
    aimed at and whether or not its address range lies within the table;
    the four tables and the counter are left as they were. *)
Theorem identity_mismatch_rejected (req : Request) (h : ModbusHandler) :
  req_UnitId req <> UnitID (config h) ->
  snd (Handle req h) = Ok (Error ErrIllegalFunction) /\
  same_tables h (fst (Handle req h)).
Proof.
  intros Hne. destruct (Handle_mismatch req h Hne) as (E & Hs & _). auto.
Qed.

Lemma identity_mismatch_rejected_witness :
  table_len handler_200 foreign_request
    < req_Addr foreign_request + req_Quantity foreign_request /\
  snd (Handle foreign_request handler_200) = Ok (Error ErrIllegalFunction) /\
  same_tables handler_200 (fst (Handle foreign_request handler_200)).
Proof.
  split; [vm_compute; reflexivity|].
  apply (identity_mismatch_rejected foreign_request handler_200).
  vm_compute. discriminate.
Defined.

(** C2: with the configured unit identity, a request whose address plus
    quantity exceeds the length of its table is answered with
    IllegalDataAddress and leaves the four tables and the counter as they
    were; a request within the table is never answered with
    IllegalDataAddress. *)
Theorem out_of_range_rejected (req : Request) (h : ModbusHandler) :
  req_UnitId req = UnitID (config h) ->
  (table_len h req < req_Addr req + req_Quantity req ->
   snd (Handle req h) = Ok (Error ErrIllegalDataAddress) /\
   same_tables h (fst (Handle req h))) /\
  (req_Addr req + req_Quantity req <= table_len h req ->
   snd (Handle req h) <> Ok (Error ErrIllegalDataAddress)).
Proof.
  intros Hu. pose proof (Handle_handled req h) as (_ & _ & _ & _ & _ & _ & _ & Hr).
  split; intros Hb.
  - destruct (snd (Handle req h)) as [[res|res|[|]]|e];
      try (destruct Hr as (_ & Hle & _); lia).
    + destruct Hr as (Hne & _). contradiction.
    + destruct Hr as (_ & _ & Hs & _). auto.
  - intros E. rewrite E in Hr. destruct Hr as (_ & Hlt & _). lia.
Qed.

Lemma out_of_range_rejected_witness :
  (snd (Handle (ReqHolding (read_holding 1 199 5)) handler_200)
     = Ok (Error ErrIllegalDataAddress) /\
   same_tables handler_200 (fst (Handle (ReqHolding (read_holding 1 199 5)) handler_200))) /\
  snd (Handle (ReqCoils (write_coils 1 198 [true; false])) handler_200)
    <> Ok (Error ErrIllegalDataAddress).
Proof.
  split.
  - apply (out_of_range_rejected (ReqHolding (read_holding 1 199 5)) handler_200).
    + vm_compute. reflexivity.
    + vm_compute. reflexivity.
  - apply (out_of_range_rejected (ReqCoils (write_coils 1 198 [true; false])) handler_200).
    + vm_compute. reflexivity.
    + vm_compute. discriminate.
Defined.

(** C8, as the code has it: a request whose unit identity differs from the
    configured one is counted as a request and as an error, each counter
    going up by one modulo 2^64; the start time, the four tables and the
    counter are left as they were. *)
Theorem identity_mismatch_statistics (req : Request) (h : ModbusHandler) :
  req_UnitId req <> UnitID (config h) ->
  RequestsHandled (stats (fst (Handle req h)))
    = uint64 (RequestsHandled (stats h) + 1) /\
  Errors (stats (fst (Handle req h))) = uint64 (Errors (stats h) + 1) /\
  StartTime (stats (fst (Handle req h))) = StartTime (stats h) /\
  same_tables h (fst (Handle req h)).
Proof.
  intros Hne.
  destruct (Handle_mismatch req h Hne) as (_ & Hs & Hreq & Herr & Hst). auto.
Qed.

Lemma identity_mismatch_statistics_witness :
  RequestsHandled (stats (fst (Handle foreign_request handler_200)))
    = uint64 (RequestsHandled (stats handler_200) + 1) /\
  Errors (stats (fst (Handle foreign_request handler_200)))
    = uint64 (Errors (stats handler_200) + 1) /\
  StartTime (stats (fst (Handle foreign_request handler_200)))
    = StartTime (stats handler_200) /\
  same_tables handler_200 (fst (Handle foreign_request handler_200)).
Proof.
  apply (identity_mismatch_statistics foreign_request handler_200).
  vm_compute. discriminate.
Defined.

(** C8 as stated fails: the rejected request of the tests (unit 99 against
    a handler configured for unit 1) moves the total-requests counter of a
    fresh handler from 0 to 1. *)
Lemma identity_mismatch_counts_as_request :
  req_UnitId foreign_request <> UnitID (config handler_200) /\
  RequestsHandled (stats handler_200) = 0 /\
  RequestsHandled (stats (fst (Handle foreign_request handler_200))) = 1 /\
  ~ (RequestsHandled (stats (fst (Handle foreign_request handler_200)))
     = RequestsHandled (stats handler_200)).
Proof.
  vm_compute. repeat split; try reflexivity; discriminate.
Qed.

(** * Writing one value and reading it back *)

Lemma read_one_holding h a x :
  index (holdingRegs h) a = Ok x ->
  snd (HandleHoldingRegisters (read_holding (UnitID (config h)) a 1) h)
  = Ok (Values [x]).
Proof.
  intros Hx. pose proof (index_Ok_inv _ _ _ Hx) as Ha.
  unfold HandleHoldingRegisters, read_holding. handler_steps.
  rewrite Z.eqb_refl. simpl.
  destruct (Z.ltb_spec (len (holdingRegs h)) (a + 1)) as [Hlt|_]; [lia|].
  simpl. unfold holding_body, load_holding, bind, get, lift, ret. simpl.
  rewrite Z.add_0_r, Hx. reflexivity.
Qed.

Lemma write_one_holding h a v :
  0 <= a < len (holdingRegs h) ->
  uint16 a <> CounterAddress (config h) ->
  exists h1,
    HandleHoldingRegisters (write_holding (UnitID (config h)) a [v]) h
    = (h1, Ok (Values [v])) /\
    config h1 = config h /\ index (holdingRegs h1) a = Ok v.
Proof.
  intros Ha Hne.
  destruct (index_Ok (holdingRegs h) a Ha) as (old & Hold & _).
  pose proof (index_assign_eq (holdingRegs h) a v _ (assign_Ok _ a v Ha)) as Hnew.
  unfold HandleHoldingRegisters, write_holding. handler_steps.
  rewrite Z.eqb_refl. simpl. change (len [v]) with 1.
  destruct (Z.ltb_spec (len (holdingRegs h)) (a + 1)) as [Hlt|_]; [lia|].
  simpl.
  unfold holding_body, load_holding, store_holding, set_holdingRegs, log,
    bind, get, lift, ret. simpl.
  rewrite Z.add_0_r.
  destruct (Z.eqb_spec (uint16 a) (CounterAddress (config h))) as [|_];
    [contradiction|]. simpl.
  rewrite Hold. simpl. change (index [v] 0) with (Ok v).
  rewrite assign_Ok by assumption. simpl. rewrite Hnew.
  eexists. split; [reflexivity|]. split; [reflexivity | exact Hnew].
Qed.

Lemma write_counter_holding h a v :
  0 <= a < len (holdingRegs h) ->
  uint16 a = CounterAddress (config h) ->
  exists h1 old,
    HandleHoldingRegisters (write_holding (UnitID (config h)) a [v]) h
    = (h1, Ok (Values [old])) /\
    index (holdingRegs h) a = Ok old /\
    holdingRegs h1 = holdingRegs h /\ config h1 = config h /\
    counter h1 = counter h.
Proof.
  intros Ha Heq.
  destruct (index_Ok (holdingRegs h) a Ha) as (old & Hold & _).
  unfold HandleHoldingRegisters, write_holding. handler_steps.
  rewrite Z.eqb_refl. simpl. change (len [v]) with 1.
  destruct (Z.ltb_spec (len (holdingRegs h)) (a + 1)) as [Hlt|_]; [lia|].
  simpl.
  unfold holding_body, load_holding, store_holding, set_holdingRegs, log,
    bind, get, lift, ret. simpl.
  rewrite Z.add_0_r, Heq, Z.eqb_refl. simpl. rewrite Hold.
  eexists. exists old. repeat split; try reflexivity; exact Hold.
Qed.

Lemma read_one_coil h a x :
  index (coils h) a = Ok x ->
  snd (HandleCoils (read_coils (UnitID (config h)) a 1) h) = Ok (Values [x]).
Proof.
  intros Hx. pose proof (index_Ok_inv _ _ _ Hx) as Ha.
  unfold HandleCoils, read_coils. handler_steps.
  rewrite Z.eqb_refl. simpl.
  destruct (Z.ltb_spec (len (coils h)) (a + 1)) as [Hlt|_]; [lia|].
  simpl. unfold coils_body, load_coil, bind, get, lift, ret. simpl.
  rewrite Z.add_0_r, Hx. reflexivity.
Qed.

Lemma write_one_coil h a (v : bool) :
  0 <= a < len (coils h) ->
  exists h1,
    HandleCoils (write_coils (UnitID (config h)) a [v]) h = (h1, Ok (Values [v])) /\
    config h1 = config h /\ index (coils h1) a = Ok v.
Proof.
  intros Ha.
  pose proof (index_assign_eq (coils h) a v _ (assign_Ok _ a v Ha)) as Hnew.
  unfold HandleCoils, write_coils. handler_steps.
  rewrite Z.eqb_refl. simpl. change (len [v]) with 1.
  destruct (Z.ltb_spec (len (coils h)) (a + 1)) as [Hlt|_]; [lia|].
  simpl.
  unfold coils_body, load_coil, store_coil, set_coils, bind, get, lift, ret.
  simpl. rewrite Z.add_0_r. change (index [v] 0) with (Ok v).
  rewrite assign_Ok by assumption. simpl. rewrite Hnew.
  eexists. split; [reflexivity|]. split; [reflexivity | exact Hnew].
Qed.

(** C1: on a handler reached from its construction by any run of counter
    ticks and requests, writing [v] to an in-range holding register [a]
    other than the counter's and reading [a] back returns [v]; so does
    writing a bit to an in-range coil and reading it back; a write aimed
    at the counter address leaves the holding table and the counter as
    they were, and the read that follows returns the counter, the value
    the last increment put there. *)
Theorem write_then_read (c : ModbusConfig) (now : Z) (h0 h : ModbusHandler)
    (ops : list Op) (a v : Z) (b : bool) :
  wf_ModbusConfig c ->
  NewModbusHandler c now = Ok h0 ->
  runs_to h0 ops h ->
  0 <= a <= MaxUint16 -> a < MaxRegisters c ->
  let wr := HandleHoldingRegisters (write_holding (UnitID c) a [v]) h in
  let rd := HandleHoldingRegisters (read_holding (UnitID c) a 1) (fst wr) in
  let wc := HandleCoils (write_coils (UnitID c) a [b]) h in
  let rc := HandleCoils (read_coils (UnitID c) a 1) (fst wc) in
  (a <> CounterAddress c ->
   snd wr = Ok (Values [v]) /\ snd rd = Ok (Values [v])) /\
  (a = CounterAddress c ->
   holdingRegs (fst wr) = holdingRegs h /\ counter (fst wr) = counter h /\
   snd rd = Ok (Values [counter h])) /\
  snd wc = Ok (Values [b]) /\ snd rc = Ok (Values [b]).
Proof.
  intros Hwf Hnew Hrun Ha Hlt.
  destruct (NewModbusHandler_consistent c now h0 Hwf Hnew) as (Hc0 & Hs0).
  pose proof (runs_to_consistent _ _ _ Hc0 Hrun) as Hc.
  pose proof (runs_to_config _ _ _ Hc0 Hrun) as Hcfg.
  destruct Hs0 as (Hcfg0 & _). rewrite Hcfg0 in Hcfg. subst c.
  rewrite <- Hcfg in Hlt |- *. clear Hcfg.
  destruct Hc as (_ & L1 & _ & L3 & _ & _ & Hctr).
  pose proof (uint16_small a Ha) as Hu.
  cbv zeta. split; [|split; [|split]].
  - intros Hne.
    destruct (write_one_holding h a v) as (h1 & E & Hcf & Hi); [lia | congruence |].
    rewrite E. simpl. split; [reflexivity|].
    rewrite <- Hcf. now apply read_one_holding.
  - intros Heq.
    destruct (write_counter_holding h a v) as (h1 & old & E & Ho & Hh & Hcf & Hk);
      [lia | congruence |].
    rewrite E. simpl. split; [exact Hh|]. split; [exact Hk|].
    rewrite <- Hcf. apply read_one_holding.
    rewrite Hh, Heq. exact Hctr.
  - destruct (write_one_coil h a b) as (h1 & E & _); [lia|].
    rewrite E. reflexivity.
  - destruct (write_one_coil h a b) as (h1 & E & Hcf & Hi); [lia|].
    rewrite E. simpl. rewrite <- Hcf. now apply read_one_coil.
Qed.

Lemma test_cfg_wf : wf_ModbusConfig (test_cfg 200 10).
Proof.
  unfold wf_ModbusConfig, test_cfg, MaxUint16; simpl.
  repeat split; try lia. constructor.
Defined.

Lemma write_then_read_witness :
  snd (HandleHoldingRegisters (read_holding 1 5 1)
         (fst (HandleHoldingRegisters (write_holding 1 5 [12345]) handler_200_at_5)))
  = Ok (Values [12345]) /\
  snd (HandleHoldingRegisters (read_holding 1 10 1)
         (fst (HandleHoldingRegisters (write_holding 1 10 [999]) handler_200_at_5)))
  = Ok (Values [5]) /\
  snd (HandleCoils (read_coils 1 7 1)
         (fst (HandleCoils (write_coils 1 7 [true]) handler_200_at_5)))
  = Ok (Values [true]).
Proof.
  assert (Hnew : NewModbusHandler (test_cfg 200 10) 0 = Ok handler_200)
    by (vm_compute; reflexivity).
  assert (Hrun : runs_to handler_200 five_ticks handler_200_at_5)
    by (vm_compute; reflexivity).
  assert (Hm : MaxUint16 = 65535) by reflexivity.
  split; [|split].
  - refine (proj2 (proj1 (write_then_read (test_cfg 200 10) 0 handler_200
                            handler_200_at_5 five_ticks 5 12345 true
                            test_cfg_wf Hnew Hrun _ _) _));
      simpl; lia.
  - refine (proj2 (proj2 (proj1 (proj2
              (write_then_read (test_cfg 200 10) 0 handler_200
                 handler_200_at_5 five_ticks 10 999 true
                 test_cfg_wf Hnew Hrun _ _)) _)));
      simpl; lia.
  - refine (proj2 (proj2 (proj2
              (write_then_read (test_cfg 200 10) 0 handler_200
                 handler_200_at_5 five_ticks 7 0 true
                 test_cfg_wf Hnew Hrun _ _))));
      simpl; lia.
Defined.

(** * Writing a range and reading it back *)

Section SliceAppend.
Context {A : Type}.
Implicit Types (s t : list A) (i : Z) (x : A).

Lemma len_app s t : len (s ++ t) = len s + len t.
Proof. unfold len. rewrite length_app. lia. Qed.

Lemma index_app_l s t i : 0 <= i < len s -> index (s ++ t) i = index s i.
Proof.
  intros Hi. unfold index.
  rewrite (proj2 (in_range_dec s i) Hi).
  rewrite (proj2 (in_range_dec (s ++ t) i)) by (rewrite len_app; pose proof (len_nonneg t); lia).
  rewrite lookup_app_l by (unfold len in Hi; lia).
  destruct (s !! Z.to_nat i) eqn:E; [reflexivity|].
  apply lookup_ge_None in E. unfold len in Hi. lia.
Qed.

Lemma index_app_last s x : index (s ++ [x]) (len s) = Ok x.
Proof.
  pose proof (len_nonneg s) as Hn.
  destruct (index_Ok (s ++ [x]) (len s)) as (y & Hy & Hl).
  - rewrite len_app. change (len [x]) with 1. lia.
  - unfold len in Hl. rewrite Nat2Z.id in Hl.
    rewrite lookup_app_r in Hl by lia.
    rewrite Nat.sub_diag in Hl. simpl in Hl. congruence.
Qed.

Lemma index_ext s t :
  len s = len t -> (forall i, 0 <= i < len s -> index s i = index t i) -> s = t.
Proof.
  intros Hl Hi. apply list_eq. intros n.
  destruct (decide (n < length s)%nat) as [Hn|Hn].
  - specialize (Hi (Z.of_nat n) ltac:(unfold len; lia)).
    destruct (index_Ok s (Z.of_nat n)) as (x & Hx & Hsx); [unfold len; lia|].
    destruct (index_Ok t (Z.of_nat n)) as (y & Hy & Hty); [unfold len in *; lia|].
    rewrite Nat2Z.id in Hsx, Hty. rewrite Hsx, Hty.
    rewrite Hx, Hy in Hi. now inversion Hi.
  - rewrite !(proj2 (lookup_ge_None _ _)); [reflexivity | | ]; unfold len in *; lia.
Qed.
End SliceAppend.

(** A loop whose iterations return carries its invariant from the first
    index to the last. *)
Lemma for_range_invariant {A} (I : Z -> A -> ModbusHandler -> Prop)
    (body : Z -> A -> M A) :
  forall (n : nat) (i0 : Z),
    (forall i res h, i0 <= i < i0 + Z.of_nat n -> I i res h ->
       exists h' res', body i res h = (h', Ok res') /\ I (i + 1) res' h') ->
    forall res h, I i0 res h ->
      exists h' res',
        for_range n i0 body res h = (h', Ok res') /\ I (i0 + Z.of_nat n) res' h'.
Proof.
  induction n as [|n IH]; intros i0 Hb res h HI.
  - exists h, res. split; [reflexivity|]. now rewrite Z.add_0_r.
  - destruct (Hb i0 res h ltac:(lia) HI) as (h1 & r1 & E1 & HI1).
    destruct (IH (i0 + 1) (fun i r k Hi => Hb i r k ltac:(lia)) r1 h1 HI1)
      as (h2 & r2 & E2 & HI2).
    exists h2, r2. split.
    + simpl. unfold bind. now rewrite E1.
    + replace (i0 + Z.of_nat (S n)) with (i0 + 1 + Z.of_nat n) by lia.
      exact HI2.
Qed.

Lemma read_holding_range h u a q :
  0 <= a -> 0 <= q -> a + q <= len (holdingRegs h) ->
  exists res,
    for_range (Z.to_nat q) 0 (holding_body (read_holding u a q)) [] h
    = (h, Ok res) /\
    len res = q /\
    (forall i, 0 <= i < q -> index res i = index (holdingRegs h) (a + i)).
Proof.
  intros Ha Hq Hb.
  destruct (for_range_invariant
              (fun k res hk =>
                 hk = h /\ len res = k /\
                 forall i, 0 <= i < k -> index res i = index (holdingRegs h) (a + i))
              (holding_body (read_holding u a q)) (Z.to_nat q) 0)
    with (res := @nil Z) (h := h) as (h' & res & E & -> & Hl & Hi).
  - intros i res hk Hr (-> & Hl & Hres).
    destruct (index_Ok (holdingRegs h) (a + i)) as (x & Hx & _); [lia|].
    unfold holding_body, read_holding, load_holding, bind, get, lift, ret.
    simpl. rewrite Hx.
    do 2 eexists. split; [reflexivity|]. split; [reflexivity|]. split.
    + rewrite len_app. change (len [x]) with 1. lia.
    + intros j Hj. destruct (Z.eq_dec j i) as [->|Hne].
      * rewrite <- Hl at 1. rewrite index_app_last. now rewrite Hx.
      * rewrite index_app_l by lia. apply Hres. lia.
  - split; [reflexivity|]. split; [reflexivity|]. intros i Hr. lia.
  - exists res. rewrite E. split; [reflexivity|]. split; [lia|].
    intros i Hr. apply Hi. lia.
Qed.

Lemma write_holding_range req h :
  HR.IsWrite req = true ->
  0 <= HR.Addr req -> 0 <= HR.Quantity req ->
  HR.Addr req + HR.Quantity req <= len (holdingRegs h) ->
  HR.Quantity req <= len (HR.Args req) ->
  exists h' res,
    for_range (Z.to_nat (HR.Quantity req)) 0 (holding_body req) [] h
    = (h', Ok res) /\
    config h' = config h /\ len (holdingRegs h') = len (holdingRegs h) /\
    len res = HR.Quantity req /\
    (forall i, 0 <= i < HR.Quantity req ->
       index (holdingRegs h') (HR.Addr req + i)
       = (if uint16 (HR.Addr req + i) =? CounterAddress (config h)
          then index (holdingRegs h) (HR.Addr req + i)
          else index (HR.Args req) i) /\
       index res i = index (holdingRegs h') (HR.Addr req + i)).
Proof.
  intros Hw Ha Hq Hb Hargs.
  set (E := fun i =>
              if uint16 (HR.Addr req + i) =? CounterAddress (config h)
              then index (holdingRegs h) (HR.Addr req + i)
              else index (HR.Args req) i).
  destruct (for_range_invariant
              (fun k res hk =>
                 config hk = config h /\
                 len (holdingRegs hk) = len (holdingRegs h) /\
                 len res = k /\
                 (forall i, 0 <= i < k ->
                    index (holdingRegs hk) (HR.Addr req + i) = E i /\
                    index res i = E i) /\
                 (forall j, HR.Addr req + k <= j ->
                    index (holdingRegs hk) j = index (holdingRegs h) j))
              (holding_body req) (Z.to_nat (HR.Quantity req)) 0)
    with (res := @nil Z) (h := h) as (h' & res & Eq & Hc & Hl & Hr & Hpos & _).
  - intros i res hk Hi (Hc & Hl & Hr & Hpos & Hfut).
    destruct (index_Ok (holdingRegs hk) (HR.Addr req + i)) as (old & Hold & _);
      [lia|].
    destruct (index_Ok (HR.Args req) i) as (v & Hv & _); [lia|].
    unfold holding_body, load_holding, store_holding, set_holdingRegs, log,
      bind, get, lift, ret.
    rewrite Hw. simpl. rewrite Hc.
    destruct (Z.eqb_spec (uint16 (HR.Addr req + i)) (CounterAddress (config h)))
      as [Hprot|Hfree]; simpl.
    + rewrite Hold. do 2 eexists. split; [reflexivity|].
      split; [exact Hc|]. split; [exact Hl|]. split; [|split].
      * rewrite len_app. change (len [old]) with 1. lia.
      * intros j Hj. destruct (Z.eq_dec j i) as [->|Hne].
        -- unfold E.
           destruct (Z.eqb_spec (uint16 (HR.Addr req + i))
                       (CounterAddress (config h))); [|contradiction].
           rewrite <- (Hfut (HR.Addr req + i)) by lia.
           split; [reflexivity|].
           rewrite <- Hr at 1. rewrite index_app_last. now rewrite Hold.
        -- destruct (Hpos j ltac:(lia)) as (H1 & H2).
           split; [exact H1|]. rewrite index_app_l by lia. exact H2.
      * intros j Hj. apply Hfut. lia.
    + rewrite Hold, Hv. rewrite assign_Ok by lia. simpl.
      pose proof (assign_Ok (holdingRegs hk) (HR.Addr req + i) v ltac:(lia)) as Has.
      rewrite (index_assign_eq _ _ _ _ Has).
      do 2 eexists. split; [reflexivity|]. simpl.
      split; [exact Hc|]. split; [now rewrite len_insert|]. split; [|split].
      * rewrite len_app. change (len [v]) with 1. lia.
      * intros j Hj. destruct (Z.eq_dec j i) as [->|Hne].
        -- unfold E.
           destruct (Z.eqb_spec (uint16 (HR.Addr req + i))
                       (CounterAddress (config h))); [contradiction|].
           rewrite (index_assign_eq _ _ _ _ Has). split; [now rewrite Hv|].
           rewrite <- Hr at 1. rewrite index_app_last. now rewrite Hv.
        -- destruct (Hpos j ltac:(lia)) as (H1 & H2).
           rewrite (index_assign_ne _ _ _ _ _ Has) by lia.
           split; [exact H1|]. rewrite index_app_l by lia. exact H2.
      * intros j Hj. rewrite (index_assign_ne _ _ _ _ _ Has) by lia.
        apply Hfut. lia.
  - split; [reflexivity|]. split; [reflexivity|]. split; [reflexivity|].
    split; [intros i Hi; lia|]. intros j Hj. reflexivity.
  - exists h', res. rewrite Eq. split; [reflexivity|].
    split; [exact Hc|]. split; [exact Hl|]. split; [lia|].
    intros i Hi. destruct (Hpos i ltac:(lia)) as (H1 & H2).
    split; [exact H1|]. now rewrite H1, H2.
Qed.

Lemma read_coils_range h u a q :
  0 <= a -> 0 <= q -> a + q <= len (coils h) ->
  exists res,
    for_range (Z.to_nat q) 0 (coils_body (read_coils u a q)) [] h = (h, Ok res) /\
    len res = q /\
    (forall i, 0 <= i < q -> index res i = index (coils h) (a + i)).
Proof.
  intros Ha Hq Hb.
  destruct (for_range_invariant
              (fun k res hk =>
                 hk = h /\ len res = k /\
                 forall i, 0 <= i < k -> index res i = index (coils h) (a + i))
              (coils_body (read_coils u a q)) (Z.to_nat q) 0)
    with (res := @nil bool) (h := h) as (h' & res & E & -> & Hl & Hi).
  - intros i res hk Hr (-> & Hl & Hres).
    destruct (index_Ok (coils h) (a + i)) as (x & Hx & _); [lia|].
    unfold coils_body, read_coils, load_coil, bind, get, lift, ret.
    simpl. rewrite Hx.
    do 2 eexists. split; [reflexivity|]. split; [reflexivity|]. split.
    + rewrite len_app. change (len [x]) with 1. lia.
    + intros j Hj. destruct (Z.eq_dec j i) as [->|Hne].
      * rewrite <- Hl at 1. rewrite index_app_last. now rewrite Hx.
      * rewrite index_app_l by lia. apply Hres. lia.
  - split; [reflexivity|]. split; [reflexivity|]. intros i Hr. lia.
  - exists res. rewrite E. split; [reflexivity|]. split; [lia|].
    intros i Hr. apply Hi. lia.
Qed.

Lemma write_coils_range req h :
  CR.IsWrite req = true ->
  0 <= CR.Addr req -> 0 <= CR.Quantity req ->
  CR.Addr req + CR.Quantity req <= len (coils h) ->
  CR.Quantity req <= len (CR.Args req) ->
  exists h' res,
    for_range (Z.to_nat (CR.Quantity req)) 0 (coils_body req) [] h = (h', Ok res) /\
    config h' = config h /\ len (coils h') = len (coils h) /\
    len res = CR.Quantity req /\
    (forall i, 0 <= i < CR.Quantity req ->
       index (coils h') (CR.Addr req + i) = index (CR.Args req) i /\
       index res i = index (CR.Args req) i).
Proof.
  intros Hw Ha Hq Hb Hargs.
  destruct (for_range_invariant
              (fun k res hk =>
                 config hk = config h /\ len (coils hk) = len (coils h) /\
                 len res = k /\
                 (forall i, 0 <= i < k ->
                    index (coils hk) (CR.Addr req + i) = index (CR.Args req) i /\
                    index res i = index (CR.Args req) i))
              (coils_body req) (Z.to_nat (CR.Quantity req)) 0)
    with (res := @nil bool) (h := h) as (h' & res & Eq & Hc & Hl & Hr & Hpos).
  - intros i res hk Hi (Hc & Hl & Hr & Hpos).
    destruct (index_Ok (CR.Args req) i) as (v & Hv & _); [lia|].
    unfold coils_body, load_coil, store_coil, set_coils, bind, get, lift, ret.
    rewrite Hw. simpl. rewrite Hv. rewrite assign_Ok by lia. simpl.
    pose proof (assign_Ok (coils hk) (CR.Addr req + i) v ltac:(lia)) as Has.
    rewrite (index_assign_eq _ _ _ _ Has).
    do 2 eexists. split; [reflexivity|]. simpl.
    split; [exact Hc|]. split; [now rewrite len_insert|]. split.
    + rewrite len_app. change (len [v]) with 1. lia.
    + intros j Hj. destruct (Z.eq_dec j i) as [->|Hne].
      * rewrite (index_assign_eq _ _ _ _ Has). split; [now rewrite Hv|].
        rewrite <- Hr at 1. rewrite index_app_last. now rewrite Hv.
      * destruct (Hpos j ltac:(lia)) as (H1 & H2).
        rewrite (index_assign_ne _ _ _ _ _ Has) by lia.
        split; [exact H1|]. rewrite index_app_l by lia. exact H2.
  - split; [reflexivity|]. split; [reflexivity|]. split; [reflexivity|].
    intros i Hi; lia.
  - exists h', res. rewrite Eq. split; [reflexivity|].
    split; [exact Hc|]. split; [exact Hl|]. split; [lia|].
    intros i Hi. apply Hpos. lia.
Qed.

(** * The counter from a fresh handler *)

Lemma ticks_succ (n : Z) : 0 <= n -> ticks (n + 1) = ticks n ++ [Tick].
Proof.
  intros Hn. unfold ticks.
  rewrite Z2Nat.inj_add by lia.
  change (Z.to_nat 1) with 1%nat.
  rewrite repeat_app. reflexivity.
Qed.

Lemma UpdateCounter_step h :
  consistent h ->
  exists h',
    UpdateCounter h = (h', Ok tt) /\ consistent h' /\
    index (holdingRegs h') (CounterAddress (config h)) = Ok (counter h') /\
    1 <= counter h' <= MaxUint16 /\
    (counter h < MaxUint16 ->
     counter h' = counter h + 1 /\ logger h' = logger h ++ [counter_updated]) /\
    (counter h = MaxUint16 ->
     counter h' = 1 /\
     logger h' = logger h ++ [overflow_warning; counter_updated]).
Proof.
  intros Hc. pose proof Hc as (_ & _ & _ & _ & _ & Hk & _).
  destruct (UpdateCounter_spec h Hc)
    as (h' & E & Hc' & _ & _ & _ & _ & _ & Hcnt & Hlog & Hi & _).
  exists h'. split; [exact E|]. split; [exact Hc'|]. split; [exact Hi|].
  destruct (Z.eqb_spec (counter h) MaxUint16) as [Hmax|Hne];
    rewrite Hcnt, Hlog; unfold MaxUint16 in *.
  - repeat split; try lia.
  - repeat split; try lia.
Qed.

Lemma ticks_count h0 :
  consistent h0 -> counter h0 = 0 ->
  forall n, 0 <= n <= MaxUint16 ->
    exists h, runs_to h0 (ticks n) h /\ consistent h /\ counter h = n.
Proof.
  intros Hc0 Hk0 n [Hn Hle]. revert Hle.
  pattern n. apply natlike_ind; [| |exact Hn]; clear n Hn.
  - intros _. exists h0. split; [|split; assumption].
    apply runs_to_nil. reflexivity.
  - intros n Hn IH Hle.
    destruct IH as (h & Hrun & Hc & Hk); [lia|].
    destruct (UpdateCounter_step h Hc) as (h' & E & Hc' & _ & _ & Hinc & _).
    exists h'. split; [|split; [exact Hc'|]].
    + change (Z.succ n) with (n + 1). rewrite ticks_succ by assumption.
      apply runs_to_app. exists h. split; [exact Hrun|].
      apply runs_to_cons. exists h'. split; [exact E|].
      apply runs_to_nil. reflexivity.
    + destruct Hinc as (-> & _); lia.
Qed.

(** C4: a fresh handler has its counter at 0; from any handler reached
    from it, an increment returns, leaves the counter between 1 and 65535
    and mirrored in the holding register at the counter address, adds one
    to a counter below 65535, and takes a counter of 65535 to 1 with a
    warning logged; so the n-th increment in a row gives n up to 65535
    and the 65536th gives 1. *)
Theorem counter_increments (c : ModbusConfig) (now : Z) (h0 : ModbusHandler) :
  wf_ModbusConfig c ->
  NewModbusHandler c now = Ok h0 ->
  counter h0 = 0 /\
  (forall ops h, runs_to h0 ops h ->
     exists h',
       UpdateCounter h = (h', Ok tt) /\
       index (holdingRegs h') (CounterAddress c) = Ok (counter h') /\
       1 <= counter h' <= MaxUint16 /\
       (counter h < MaxUint16 ->
        counter h' = counter h + 1 /\
        logger h' = logger h ++ [counter_updated]) /\
       (counter h = MaxUint16 ->
        counter h' = 1 /\
        logger h' = logger h ++ [overflow_warning; counter_updated])) /\
  (forall n, 0 <= n <= MaxUint16 ->
     exists h, runs_to h0 (ticks n) h /\ counter h = n) /\
  (exists h, runs_to h0 (ticks (MaxUint16 + 1)) h /\ counter h = 1).
Proof.
  intros Hwf Hnew.
  destruct (NewModbusHandler_consistent c now h0 Hwf Hnew) as (Hc0 & Hcfg0 & Hk0 & _).
  split; [exact Hk0|]. split; [|split].
  - intros ops h Hrun.
    pose proof (runs_to_consistent _ _ _ Hc0 Hrun) as Hc.
    pose proof (runs_to_config _ _ _ Hc0 Hrun) as Hcfg.
    destruct (UpdateCounter_step h Hc) as (h' & E & _ & Hi & Hr & Hinc & Hwrap).
    exists h'. rewrite <- Hcfg0, <- Hcfg. auto.
  - intros n Hn.
    destruct (ticks_count h0 Hc0 Hk0 n Hn) as (h & Hrun & _ & Hk). eauto.
  - destruct (ticks_count h0 Hc0 Hk0 MaxUint16) as (h & Hrun & Hc & Hk);
      [unfold MaxUint16; lia|].
    destruct (UpdateCounter_step h Hc) as (h' & E & _ & _ & _ & _ & Hwrap).
    exists h'. split; [|apply Hwrap, Hk].
    rewrite ticks_succ by (unfold MaxUint16; lia).
    apply runs_to_app. exists h. split; [exact Hrun|].
    apply runs_to_cons. exists h'. split; [exact E|].
    apply runs_to_nil. reflexivity.
Qed.

Lemma counter_increments_witness :
  counter handler_200 = 0 /\
  (exists h, runs_to handler_200 (ticks 5) h /\ counter h = 5) /\
  (exists h, runs_to handler_200 (ticks (MaxUint16 + 1)) h /\ counter h = 1).
Proof.
  assert (Hnew : NewModbusHandler (test_cfg 200 10) 0 = Ok handler_200)
    by (vm_compute; reflexivity).
  destruct (counter_increments (test_cfg 200 10) 0 handler_200 test_cfg_wf Hnew)
    as (H0 & _ & Hn & Hw).
  split; [exact H0|]. split; [|exact Hw].
  apply Hn. unfold MaxUint16. lia.
Defined.

(** * The accesses of the write loops *)










(** Closed side conditions, by evaluation. *)
Ltac by_compute :=
  vm_compute; repeat split; first [reflexivity | discriminate].



(** * Start: the retries *)

Section StartFails.
Import Server.
Variable c : ServerConfig.
Variable w : World.
Hypothesis always_fails : forall n, startServer_fails w n = true.
Hypothesis never_cancelled : forall k, ctx_done w k = false.

Lemma actions_app t1 t2 : actions (t1 ++ t2) = actions t1 ++ actions t2.
Proof. unfold actions. apply filter_app. Qed.

Lemma Start_loop_retries :
  forall (k fuel : nat) (retryCount : Z) (polls : nat) (trace : list Event),
    1 <= retryCount -> retryCount + Z.of_nat k = MaxRetries c ->
    (k < fuel)%nat ->
    exists t,
      Start_loop c w fuel retryCount polls trace
      = Some (MaxRetriesExceeded (MaxRetries c), trace ++ t) /\
      actions t = retries c (retryCount + 1) k.
Proof.
  induction k as [|k IH]; intros fuel rc polls trace Hrc Hm Hfuel;
    (destruct fuel as [|fuel]; [lia|]); simpl Start_loop;
    rewrite never_cancelled;
    (destruct (Z.ltb_spec 0 rc) as [_|]; [|lia]).
  - destruct (Z.leb_spec (MaxRetries c) rc) as [_|]; [|lia].
    exists []. rewrite app_nil_r. split; reflexivity.
  - destruct (Z.leb_spec (MaxRetries c) rc) as [|_]; [lia|].
    rewrite never_cancelled, always_fails.
    destruct (IH fuel (rc + 1) (S (S polls))
                ((((trace ++ [Log WARN "Retrying server start"])
                     ++ [Wait (RetryDelay c)]) ++ [StartServer (rc + 1)])
                   ++ [Log ERROR "Server start failed"]))
      as (t & E & Ht); [lia | lia | lia |].
    exists ([Log WARN "Retrying server start"; Wait (RetryDelay c);
             StartServer (rc + 1); Log ERROR "Server start failed"] ++ t).
    split.
    + rewrite E. f_equal. f_equal. rewrite <- !app_assoc. reflexivity.
    + rewrite actions_app, Ht. reflexivity.
Qed.

Lemma Start_fails (fuel : nat) :
  1 <= MaxRetries c -> (Z.to_nat (MaxRetries c) < fuel)%nat ->
  exists t,
    Start c w fuel = Some (MaxRetriesExceeded (MaxRetries c), t) /\
    actions t = StartServer 1 :: retries c 2 (Z.to_nat (MaxRetries c - 1)).
Proof.
  intros Hm Hfuel. unfold Start.
  destruct fuel as [|fuel]; [lia|]. simpl Start_loop.
  rewrite never_cancelled, always_fails. simpl.
  destruct (Start_loop_retries (Z.to_nat (MaxRetries c - 1)) fuel 1 1%nat
              [StartServer 1; Log ERROR "Server start failed"])
    as (t & E & Ht); [lia | lia | lia |].
  exists ([StartServer 1; Log ERROR "Server start failed"] ++ t).
  split; [exact E|]. rewrite actions_app, Ht. reflexivity.
Qed.

Lemma attempts_actions t : attempts (actions t) = attempts t.
Proof.
  unfold attempts, actions. f_equal. apply list_filter_filter_l.
  intros e He. unfold is_action. now rewrite He.
Qed.

Lemma waits_actions t : waits (actions t) = waits t.
Proof.
  unfold waits, actions. f_equal. apply list_filter_filter_l.
  intros e He. unfold is_action. rewrite He. apply orb_true_r.
Qed.

Lemma attempts_retries n k : attempts (retries c n k) = Z.of_nat k.
Proof.
  revert n. induction k as [|k IH]; intros n; [reflexivity|].
  specialize (IH (n + 1)). unfold attempts, len in *. simpl retries.
  rewrite !filter_cons. simpl.
  destruct (decide (false = true)); [discriminate|].
  destruct (decide (true = true)); [|congruence].
  simpl length. lia.
Qed.

Lemma waits_retries n k : waits (retries c n k) = Z.of_nat k.
Proof.
  revert n. induction k as [|k IH]; intros n; [reflexivity|].
  specialize (IH (n + 1)). unfold waits, len in *. simpl retries.
  rewrite !filter_cons. simpl.
  destruct (decide (false = true)); [discriminate|].
  destruct (decide (true = true)); [|congruence].
  simpl length. lia.
Qed.
End StartFails.

(** C6: with a transport whose start always fails, a context that is
    never cancelled and a maximum retry count m of at least 1, Start
    returns (for every bound on the iterations above m) the
    max-retries-exceeded error after exactly m calls of startServer and
    m - 1 waits of the retry delay: the first attempt comes at once, and
    each later one after one wait. *)
Theorem start_retries_then_fails (c : ServerConfig) (w : Server.World) (fuel : nat) :
  (forall n, Server.startServer_fails w n = true) ->
  (forall k, Server.ctx_done w k = false) ->
  1 <= MaxRetries c ->
  (Z.to_nat (MaxRetries c) < fuel)%nat ->
  exists t,
    Server.Start c w fuel = Some (Server.MaxRetriesExceeded (MaxRetries c), t) /\
    Server.actions t
    = Server.StartServer 1 :: Server.retries c 2 (Z.to_nat (MaxRetries c - 1)) /\
    Server.attempts t = MaxRetries c /\
    Server.waits t = MaxRetries c - 1.
Proof.
  intros Hf Hd Hm Hfuel.
  destruct (Start_fails c w Hf Hd fuel Hm Hfuel) as (t & E & Ht).
  exists t. split; [exact E|]. split; [exact Ht|]. split.
  - rewrite <- attempts_actions, Ht.
    change (Server.StartServer 1 :: ?l) with ([Server.StartServer 1] ++ l).
    unfold Server.attempts. rewrite filter_app. unfold len. rewrite length_app.
    pose proof (attempts_retries c 2 (Z.to_nat (MaxRetries c - 1))) as Hr.
    unfold Server.attempts, len in Hr.
    rewrite Nat2Z.inj_add, Hr. change (Z.of_nat (length _)) with 1. lia.
  - rewrite <- waits_actions, Ht.
    change (Server.StartServer 1 :: ?l) with ([Server.StartServer 1] ++ l).
    unfold Server.waits. rewrite filter_app. unfold len. rewrite length_app.
    pose proof (waits_retries c 2 (Z.to_nat (MaxRetries c - 1))) as Hr.
    unfold Server.waits, len in Hr.
    rewrite Nat2Z.inj_add, Hr. change (Z.of_nat (length _)) with 0. lia.
Qed.

Lemma start_retries_then_fails_witness :
  exists t,
    Server.Start {| MaxRetries := 3; RetryDelay := 1 |} Server.always_failing 10
    = Some (Server.MaxRetriesExceeded 3, t) /\
    Server.actions t
    = [Server.StartServer 1; Server.Wait 1; Server.StartServer 2;
       Server.Wait 1; Server.StartServer 3] /\
    Server.attempts t = 3 /\ Server.waits t = 2.
Proof.
  apply (start_retries_then_fails {| MaxRetries := 3; RetryDelay := 1 |}
           Server.always_failing 10).
  - intros n. reflexivity.
  - intros k. reflexivity.
  - simpl. lia.
  - simpl. lia.
Defined.

(** * The construction and its configuration *)





(** What the loop over the seed list does with one entry while the table
    size fits 16 bits. *)
Lemma seed_within_uint16 (c : ModbusConfig) (now : Z) (d : RegisterValue)
    (h : ModbusHandler) :
  MaxRegisters c <= MaxUint16 -> wf_RegisterValue d -> sized c now h ->
  (MaxRegisters c <= Address d ->
   seed c d h = log WARN "Initial data address out of bounds, skipping" h) /\
  (Address d < MaxRegisters c -> known_type (Type_ d) = false ->
   seed c d h = log WARN "Unknown initial data type in config, skipping" h) /\
  (Address d < MaxRegisters c -> Type_ d = "holding" ->
   seed c d h = set_holdingRegs (<[Z.to_nat (Address d) := Value d]> (holdingRegs h)) h) /\
  (Address d < MaxRegisters c -> Type_ d = "input" ->
   seed c d h = set_inputRegs (<[Z.to_nat (Address d) := Value d]> (inputRegs h)) h) /\
  (Address d < MaxRegisters c -> Type_ d = "coil" ->
   seed c d h
   = set_coils (<[Z.to_nat (Address d) := negb (Value d =? 0)]> (coils h)) h) /\
  (Address d < MaxRegisters c -> Type_ d = "discrete" ->
   seed c d h
   = set_discreteInputs
       (<[Z.to_nat (Address d) := negb (Value d =? 0)]> (discreteInputs h)) h).
Proof.
  intros Hmax ((Ha & _) & _) (Hc & Hk & Hs & L1 & L2 & L3 & L4).
  assert (Hm : 0 <= MaxRegisters c) by (rewrite <- L1; apply len_nonneg).
  assert (Hu : uint16 (MaxRegisters c) = MaxRegisters c)
    by (apply uint16_small; lia).
  unfold seed. rewrite Hu.
  split; [|split; [|split; [|split; [|split]]]].
  - intros Hge. destruct (Z.leb_spec (MaxRegisters c) (Address d)); [reflexivity | lia].
  - intros Hlt Hunk. destruct (Z.leb_spec (MaxRegisters c) (Address d)); [lia|].
    unfold known_type in Hunk.
    apply orb_false_iff in Hunk as (Hunk & ->).
    apply orb_false_iff in Hunk as (Hunk & ->).
    apply orb_false_iff in Hunk as (-> & ->). reflexivity.
  - intros Hlt ->. destruct (Z.leb_spec (MaxRegisters c) (Address d)); [lia|].
    simpl. unfold store_holding, bind, get, lift.
    now rewrite assign_Ok by lia.
  - intros Hlt ->. destruct (Z.leb_spec (MaxRegisters c) (Address d)); [lia|].
    simpl. unfold store_input, bind, get, lift.
    now rewrite assign_Ok by lia.
  - intros Hlt ->. destruct (Z.leb_spec (MaxRegisters c) (Address d)); [lia|].
    simpl. unfold store_coil, bind, get, lift.
    now rewrite assign_Ok by lia.
  - intros Hlt ->. destruct (Z.leb_spec (MaxRegisters c) (Address d)); [lia|].
    simpl. unfold store_discrete, bind, get, lift.
    now rewrite assign_Ok by lia.
Qed.

(** C5 at a table of 65536 entries: the bound of the seed loop is
    uint16(MaxRegisters), which is 0 there, so the entry for holding
    register 5, an address below MaxRegisters, is skipped with the
    out-of-bounds warning and the register keeps its zero value. *)
Theorem seed_skipped_in_full_space :
  Forall (fun d => Address d < MaxRegisters full_space_cfg /\
                   known_type (Type_ d) = true)
    (InitialData full_space_cfg) /\
  uint16 (MaxRegisters full_space_cfg) = 0 /\
  match NewModbusHandler full_space_cfg 0 with
  | Ok h =>
      index (holdingRegs h) 5 = Ok 0 /\
      logger h = [out_of_bounds_warning; handler_initialized]
  | Panic _ => False
  end.
Proof.
  split; [|split].
  - repeat constructor.
  - reflexivity.
  - vm_compute. split; reflexivity.
Qed.

(** * The statistics *)

Lemma GetStats_snapshot h : GetStats h = stats h.
Proof. unfold GetStats. now destruct (stats h). Qed.

Lemma handled_bumped h unit addr qty tlen h' r :
  handled h unit addr qty tlen h' r -> bumped (stats h) (stats h') (failed r).
Proof.
  intros (_ & _ & _ & _ & _ & _ & _ & Hr).
  destruct r as [[res|res|[|]]|e]; simpl; tauto.
Qed.

Lemma Handle_bumped req h :
  bumped (stats h) (stats (fst (Handle req h))) (failed (snd (Handle req h))).
Proof. eapply handled_bumped. apply Handle_handled. Qed.

Lemma calls_cons o ops :
  calls (o :: ops) = (if is_call o then 1 else 0) + calls ops.
Proof.
  unfold calls, len. rewrite filter_cons.
  destruct o; simpl; lia.
Qed.

Lemma calls_app ops1 ops2 : calls (ops1 ++ ops2) = calls ops1 + calls ops2.
Proof.
  unfold calls, len. rewrite filter_app, length_app. lia.
Qed.

Lemma calls_nonneg ops : 0 <= calls ops.
Proof. unfold calls. apply len_nonneg. Qed.

Lemma exec_stats ops :
  forall h h',
    consistent h -> runs_to h ops h' ->
    0 <= Errors (stats h) <= RequestsHandled (stats h) ->
    RequestsHandled (stats h) + calls ops <= MaxUint64 ->
    RequestsHandled (stats h') = RequestsHandled (stats h) + calls ops /\
    Errors (stats h) <= Errors (stats h') <= RequestsHandled (stats h') /\
    StartTime (stats h') = StartTime (stats h).
Proof.
  induction ops as [|o ops IH]; intros h h' Hc Hrun He Hmax.
  - apply runs_to_nil in Hrun. subst h'. change (calls []) with 0. lia.
  - apply runs_to_cons in Hrun as (h1 & E1 & Hrun).
    pose proof (exec_op_consistent _ _ _ Hc E1) as Hc1.
    rewrite calls_cons in Hmax |- *.
    pose proof (calls_nonneg ops) as Hn.
    destruct o as [|req]; simpl in E1, Hmax |- *.
    + destruct (UpdateCounter_spec h Hc) as (h2 & Eu & _ & _ & Hst & _).
      rewrite Eu in E1. inversion E1; subst h2.
      destruct (IH h1 h' Hc1 Hrun) as (HR & HE & HT); rewrite ?Hst; try lia.
      rewrite Hst in HR, HE, HT. lia.
    + pose proof (Handle_bumped req h) as (HR1 & HE1 & HT1).
      unfold bind in E1.
      destruct (Handle req h) as [h2 [r|e]]; [|discriminate].
      inversion E1; subst h2. simpl in HR1, HE1, HT1.
      rewrite uint64_small in HR1 by lia.
      assert (HE1' : Errors (stats h) <= Errors (stats h1)
                     <= Errors (stats h) + 1).
      { destruct r as [res|res|err]; simpl in HE1;
          [| |rewrite uint64_small in HE1 by lia]; lia. }
      destruct (IH h1 h' Hc1 Hrun) as (HR & HE & HT); lia.
Qed.

Lemma runs_to_StartTime h ops h' :
  consistent h -> runs_to h ops h' ->
  StartTime (stats h') = StartTime (stats h).
Proof.
  revert h. induction ops as [|o ops IH]; intros h Hc.
  - now intros ->%runs_to_nil.
  - intros (h1 & E1 & E2)%runs_to_cons.
    rewrite (IH h1 (exec_op_consistent _ _ _ Hc E1) E2).
    destruct o as [|req]; simpl in E1.
    + destruct (UpdateCounter_spec h Hc) as (h2 & Eu & _ & _ & Hst & _).
      rewrite Eu in E1. inversion E1; subst. now rewrite Hst.
    + pose proof (Handle_bumped req h) as (_ & _ & HT).
      unfold bind in E1. destruct (Handle req h) as [h2 [r|e]]; [|discriminate].
      inversion E1; subst. exact HT.
Qed.

(** C9, as the code has it: every invocation of a handler adds one to the
    total-requests counter and, when it fails, one to the error counter,
    both modulo 2^64, and leaves the start time alone, as does an
    increment of the counter register, which leaves the statistics as a
    whole alone; along a run of fewer than 2^64 invocations from the
    construction the total-requests counter is the number of invocations
    so far, neither counter ever decreases, the errors never exceed the
    total requests, and the start time is the time of construction. *)
Theorem statistics_count (c : ModbusConfig) (now : Z)
    (h0 h1 h2 : ModbusHandler) (ops1 ops2 : list Op) (req : Request) :
  wf_ModbusConfig c ->
  NewModbusHandler c now = Ok h0 ->
  runs_to h0 ops1 h1 -> runs_to h1 ops2 h2 ->
  (RequestsHandled (stats (fst (Handle req h1)))
     = uint64 (RequestsHandled (stats h1) + 1) /\
   Errors (stats (fst (Handle req h1)))
     = (if failed (snd (Handle req h1)) then uint64 (Errors (stats h1) + 1)
        else Errors (stats h1)) /\
   StartTime (stats (fst (Handle req h1))) = StartTime (stats h1)) /\
  stats (fst (UpdateCounter h1)) = stats h1 /\
  StartTime (stats h2) = now /\
  (calls (ops1 ++ ops2) <= MaxUint64 ->
   RequestsHandled (stats h1) = calls ops1 /\
   RequestsHandled (stats h2) = calls ops1 + calls ops2 /\
   RequestsHandled (stats h1) <= RequestsHandled (stats h2) /\
   Errors (stats h1) <= Errors (stats h2) /\
   Errors (stats h2) <= RequestsHandled (stats h2)).
Proof.
  intros Hwf Hnew Hrun1 Hrun2.
  destruct (NewModbusHandler_consistent c now h0 Hwf Hnew)
    as (Hc0 & _ & _ & Hst0 & _).
  pose proof (runs_to_consistent _ _ _ Hc0 Hrun1) as Hc1.
  assert (Hrun : runs_to h0 (ops1 ++ ops2) h2)
    by (apply runs_to_app; eauto).
  pose proof (calls_nonneg ops1) as Hn1. pose proof (calls_nonneg ops2) as Hn2.
  split; [apply Handle_bumped|]. split; [|split].
  - destruct (UpdateCounter_spec h1 Hc1) as (h' & E & _ & _ & Hst & _).
    rewrite E. exact Hst.
  - rewrite (runs_to_StartTime _ _ _ Hc0 Hrun), Hst0. reflexivity.
  - intros Hmax. rewrite calls_app in Hmax.
    destruct (exec_stats ops1 h0 h1 Hc0 Hrun1) as (HR1 & HE1 & _);
      rewrite ?Hst0; simpl; try lia.
    rewrite Hst0 in HR1, HE1. simpl in HR1, HE1.
    destruct (exec_stats ops2 h1 h2 Hc1 Hrun2) as (HR2 & HE2 & _); lia.
Qed.

Lemma statistics_count_witness :
  RequestsHandled (stats handler_200_mixed) = 1 /\
  RequestsHandled (stats handler_200_probed) = 2 /\
  Errors (stats handler_200_mixed) <= Errors (stats handler_200_probed) /\
  Errors (stats handler_200_probed) <= RequestsHandled (stats handler_200_probed) /\
  StartTime (stats handler_200_probed) = 0.
Proof.
  pose proof (statistics_count (test_cfg 200 10) 0 handler_200
                handler_200_mixed handler_200_probed mixed_ops [Call probe] probe
                test_cfg_wf ltac:(by_compute) ltac:(by_compute) ltac:(by_compute))
    as (_ & _ & HT & H).
  specialize (H ltac:(by_compute)).
  destruct H as (H1 & H2 & _ & H4 & H5).
  repeat split; assumption.
Defined.

(** ** The counters are 64 bits wide *)

Lemma probes_succ (n : Z) : 0 <= n -> probes (n + 1) = probes n ++ [Call probe].
Proof.
  intros Hn. unfold probes.
  rewrite Z2Nat.inj_add by lia.
  change (Z.to_nat 1) with 1%nat.
  rewrite repeat_app. reflexivity.
Qed.

Lemma probe_counted h r :
  UnitID (config h) = 1 -> index (inputRegs h) 0 = Ok 0 ->
  Handle probe (with_requests h r)
  = (with_requests h (uint64 (r + 1)), Ok (Registers [0])).
Proof.
  intros Hu Hi. pose proof (index_Ok_inv _ _ _ Hi) as Hl.
  unfold Handle, HandleInputRegisters, probe, with_requests. handler_steps.
  rewrite Hu. simpl. change (0 + 1) with 1. change (0 + 0) with 0.
  destruct (Z.ltb_spec (len (inputRegs h)) 1); [lia|].
  simpl. unfold input_body, load_input, bind, get, lift, ret. simpl.
  change (0 + 0) with 0. rewrite Hi. reflexivity.
Qed.

Lemma probes_run h r :
  UnitID (config h) = 1 -> index (inputRegs h) 0 = Ok 0 -> 0 <= r ->
  forall n, 0 <= n -> r + n <= MaxUint64 ->
    runs_to (with_requests h r) (probes n) (with_requests h (r + n)).
Proof.
  intros Hu Hi Hr n Hn. pattern n. apply natlike_ind; [| |exact Hn]; clear n Hn.
  - intros _. rewrite Z.add_0_r. apply runs_to_nil. reflexivity.
  - intros n Hn IH Hmax. change (Z.succ n) with (n + 1) in *.
    rewrite probes_succ by assumption.
    apply runs_to_app. exists (with_requests h (r + n)). split; [apply IH; lia|].
    apply runs_to_cons. exists (with_requests h (r + (n + 1))). split.
    + change (exec_op (Call probe)) with (bind (Handle probe) (fun _ => ret tt)).
      unfold bind. rewrite (probe_counted h (r + n) Hu Hi).
      rewrite uint64_small by lia. unfold ret. do 2 f_equal. lia.
    + apply runs_to_nil. reflexivity.
Qed.

Lemma handler_200_fresh : with_requests handler_200 0 = handler_200.
Proof. vm_compute. reflexivity. Qed.

(** C9 as stated fails: the handler of the tests after 2^64 - 1 probes
    has its total-requests counter at 2^64 - 1, and the next invocation,
    which succeeds, takes it to 0: it is not one more, and it has
    decreased. *)
Lemma requests_counter_wraps :
  runs_to handler_200 (probes MaxUint64) (with_requests handler_200 MaxUint64) /\
  RequestsHandled (stats (with_requests handler_200 MaxUint64)) = MaxUint64 /\
  snd (Handle probe (with_requests handler_200 MaxUint64)) = Ok (Registers [0]) /\
  RequestsHandled (stats (fst (Handle probe (with_requests handler_200 MaxUint64)))) = 0.
Proof.
  split; [|split; [|split]].
  - pose proof (probes_run handler_200 0 eq_refl
                  ltac:(vm_compute; reflexivity) ltac:(lia)
                  MaxUint64 ltac:(unfold MaxUint64; lia) ltac:(lia)) as H.
    rewrite handler_200_fresh, Z.add_0_l in H. exact H.
  - reflexivity.
  - vm_compute. reflexivity.
  - vm_compute. reflexivity.
Qed.

(** * What no operation does to the tables *)

#[local] Instance same_inputs_preorder : PreOrder same_inputs.
Proof.
  split.
  - intros h. split; reflexivity.
  - intros h1 h2 h3 (I1 & D1) (I2 & D2). split; congruence.
Qed.

#[local] Instance holding_outside_preorder a n : PreOrder (holding_outside a n).
Proof.
  split.
  - intros h. unfold holding_outside. repeat split; reflexivity.
  - intros h1 h2 h3 (I1 & C1 & D1 & K1 & L1 & P1) (I2 & C2 & D2 & K2 & L2 & P2).
    unfold holding_outside. repeat split; try congruence.
    intros j Hj. rewrite (P2 j Hj). exact (P1 j Hj).
Qed.

#[local] Instance coils_outside_preorder a n : PreOrder (coils_outside a n).
Proof.
  split.
  - intros h. unfold coils_outside. repeat split; reflexivity.
  - intros h1 h2 h3 (H1 & I1 & D1 & K1 & L1 & P1) (H2 & I2 & D2 & K2 & L2 & P2).
    unfold coils_outside. repeat split; try congruence.
    intros j Hj. rewrite (P2 j Hj). exact (P1 j Hj).
Qed.

(** A loop keeps what each of its iterations keeps. *)
Lemma for_range_keeps {A} (R : relation ModbusHandler) `{!PreOrder R}
    (body : Z -> A -> M A) :
  forall (n : nat) (i0 : Z),
    (forall i res, i0 <= i < i0 + Z.of_nat n -> preserves R (body i res)) ->
    forall res, preserves R (for_range n i0 body res).
Proof.
  induction n as [|n IH]; intros i0 Hb res; simpl.
  - now apply preserves_ret.
  - apply preserves_bind; [assumption | apply Hb; lia |].
    intros a. apply IH. intros i r Hi. apply Hb. lia.
Qed.

Lemma UpdateCounter_same_inputs : preserves same_inputs UpdateCounter.
Proof.
  intros h.
  unfold UpdateCounter, store_holding, set_holdingRegs, set_counter, log,
    bind, get, lift, ret.
  run_cases; split; reflexivity.
Qed.

Lemma exec_op_same_inputs o : preserves same_inputs (exec_op o).
Proof.
  destruct o as [|req]; simpl.
  - apply UpdateCounter_same_inputs.
  - apply (preserves_bind same_inputs); [|intros; apply (preserves_ret same_inputs)].
    intros h. pose proof (Handle_handled req h) as (_ & _ & Hi & Hd & _).
    split; assumption.
Qed.

(** X1: whatever the run of ticks and requests, and whether or not it
    ends in a panic, the input registers and the discrete inputs are
    afterwards what they were before: no method writes them once the
    handler is constructed. *)
Theorem read_only_tables_never_change (h : ModbusHandler) (ops : list Op) :
  inputRegs (fst (exec ops h)) = inputRegs h /\
  discreteInputs (fst (exec ops h)) = discreteInputs h.
Proof.
  apply (preserves_for_each same_inputs exec_op exec_op_same_inputs ops h).
Qed.

(** X2: no request, of whichever kind and size and whatever its outcome,
    changes the counter or the holding register at the counter address. *)
Theorem requests_never_touch_counter (req : Request) (h : ModbusHandler) :
  0 <= CounterAddress (config h) <= MaxUint16 ->
  counter (fst (Handle req h)) = counter h /\
  index (holdingRegs (fst (Handle req h))) (CounterAddress (config h))
  = index (holdingRegs h) (CounterAddress (config h)).
Proof.
  intros Hca. pose proof (Handle_handled req h) as (_ & Hk & _ & _ & _ & _ & Hp & _).
  split; [exact Hk|]. apply Hp. now apply uint16_small.
Qed.

Lemma holding_outside_weaken a n a' h h' :
  a <= a' < a + n -> holding_outside a' 1 h h' -> holding_outside a n h h'.
Proof.
  intros Ha (I & C & D & K & L & P). unfold holding_outside.
  repeat split; try assumption. intros j Hj. apply P. lia.
Qed.

Lemma coils_outside_weaken a n a' h h' :
  a <= a' < a + n -> coils_outside a' 1 h h' -> coils_outside a n h h'.
Proof.
  intros Ha (H & I & D & K & L & P). unfold coils_outside.
  repeat split; try assumption. intros j Hj. apply P. lia.
Qed.

Ltac outside_leaf :=
  unfold holding_outside, coils_outside; simpl; repeat split; try reflexivity;
  try match goal with
      | H : assign _ _ _ = Ok ?s |- len ?s = _ => exact (assign_len _ _ _ _ H)
      end;
  try (intros j Hj;
       match goal with
       | H : assign _ _ _ = Ok _ |- _ => apply (index_assign_ne _ _ _ _ _ H); lia
       end).

Lemma holding_body_outside req i res :
  preserves (holding_outside (HR.Addr req + i) 1) (holding_body req i res).
Proof.
  intros h.
  unfold holding_body, load_holding, store_holding, set_holdingRegs, log,
    bind, get, lift, ret.
  destruct (HR.IsWrite req); run_cases; outside_leaf.
Qed.

Lemma coils_body_outside req i res :
  preserves (coils_outside (CR.Addr req + i) 1) (coils_body req i res).
Proof.
  intros h.
  unfold coils_body, load_coil, store_coil, set_coils, bind, get, lift, ret.
  destruct (CR.IsWrite req); run_cases; outside_leaf.
Qed.

Lemma holding_loop_outside req (n : nat) i0 res :
  preserves (holding_outside (HR.Addr req + i0) (Z.of_nat n))
    (for_range n i0 (holding_body req) res).
Proof.
  apply for_range_keeps; [typeclasses eauto|].
  intros i r Hi h.
  apply (holding_outside_weaken _ _ (HR.Addr req + i)); [lia|].
  apply holding_body_outside.
Qed.

Lemma coils_loop_outside req (n : nat) i0 res :
  preserves (coils_outside (CR.Addr req + i0) (Z.of_nat n))
    (for_range n i0 (coils_body req) res).
Proof.
  apply for_range_keeps; [typeclasses eauto|].
  intros i r Hi h.
  apply (coils_outside_weaken _ _ (CR.Addr req + i)); [lia|].
  apply coils_body_outside.
Qed.

Lemma HandleHoldingRegisters_outside req h :
  holding_outside (HR.Addr req) (HR.Quantity req) h
    (fst (HandleHoldingRegisters req h)).
Proof.
  unfold HandleHoldingRegisters. handler_steps.
  destruct (negb (HR.UnitId req =? UnitID (config h))); simpl; [outside_leaf|].
  destruct (len (holdingRegs h) <? HR.Addr req + HR.Quantity req); simpl;
    [outside_leaf|].
  match goal with
  | |- context [for_range ?n ?i ?b ?r ?h1] =>
      pose proof (holding_loop_outside req n i r h1) as Hf;
      destruct (for_range n i b r h1) as [h2 [res|e]]
  end; simpl in *;
    destruct Hf as (I & C & D & K & L & P);
    unfold holding_outside; simpl; repeat split; try assumption;
    intros j Hj; apply P; lia.
Qed.

Lemma HandleCoils_outside req h :
  coils_outside (CR.Addr req) (CR.Quantity req) h (fst (HandleCoils req h)).
Proof.
  unfold HandleCoils. handler_steps.
  destruct (negb (CR.UnitId req =? UnitID (config h))); simpl; [outside_leaf|].
  destruct (len (coils h) <? CR.Addr req + CR.Quantity req); simpl;
    [outside_leaf|].
  match goal with
  | |- context [for_range ?n ?i ?b ?r ?h1] =>
      pose proof (coils_loop_outside req n i r h1) as Hf;
      destruct (for_range n i b r h1) as [h2 [res|e]]
  end; simpl in *;
    destruct Hf as (H & I & D & K & L & P);
    unfold coils_outside; simpl; repeat split; try assumption;
    intros j Hj; apply P; lia.
Qed.

(** X3: a holding-register request, whatever its outcome, leaves every
    holding register outside its range of addresses as it was, and the
    input registers, coils, discrete inputs and counter as they were; a
    coil request does the same with the two writable tables exchanged. *)
Theorem writes_stay_in_range (h : ModbusHandler) (req : HR.t) (creq : CR.t) :
  (inputRegs (fst (HandleHoldingRegisters req h)) = inputRegs h /\
   coils (fst (HandleHoldingRegisters req h)) = coils h /\
   discreteInputs (fst (HandleHoldingRegisters req h)) = discreteInputs h /\
   counter (fst (HandleHoldingRegisters req h)) = counter h /\
   forall j, ~ (HR.Addr req <= j < HR.Addr req + HR.Quantity req) ->
     index (holdingRegs (fst (HandleHoldingRegisters req h))) j
     = index (holdingRegs h) j) /\
  (holdingRegs (fst (HandleCoils creq h)) = holdingRegs h /\
   inputRegs (fst (HandleCoils creq h)) = inputRegs h /\
   discreteInputs (fst (HandleCoils creq h)) = discreteInputs h /\
   counter (fst (HandleCoils creq h)) = counter h /\
   forall j, ~ (CR.Addr creq <= j < CR.Addr creq + CR.Quantity creq) ->
     index (coils (fst (HandleCoils creq h))) j = index (coils h) j).
Proof.
  split.
  - destruct (HandleHoldingRegisters_outside req h) as (I & C & D & K & _ & P).
    auto.
  - destruct (HandleCoils_outside creq h) as (H & I & D & K & _ & P). auto.
Qed.

Lemma requests_never_touch_counter_witness :
  counter (fst (Handle (ReqHolding hvac_write) hvac_handler))
  = counter hvac_handler /\
  index (holdingRegs (fst (Handle (ReqHolding hvac_write) hvac_handler)))
    (CounterAddress (config hvac_handler))
  = index (holdingRegs hvac_handler) (CounterAddress (config hvac_handler)).
Proof.
  apply (requests_never_touch_counter (ReqHolding hvac_write) hvac_handler).
  by_compute.
Defined.

(** * Reads *)

Section Slice.
Context {A : Type}.
Implicit Types (s : list A) (a q i : Z).

Lemma len_slice s a q :
  0 <= a -> 0 <= q -> a + q <= len s -> len (slice s a q) = q.
Proof.
  intros Ha Hq Hb. unfold slice, len in *.
  rewrite length_take, length_drop. lia.
Qed.

Lemma index_slice s a q i :
  0 <= a -> 0 <= i < q -> a + q <= len s ->
  index (slice s a q) i = index s (a + i).
Proof.
  intros Ha Hi Hb.
  destruct (index_Ok (slice s a q) i) as (x & Hx & Hlx);
    [rewrite len_slice; lia|].
  destruct (index_Ok s (a + i)) as (y & Hy & Hly); [lia|].
  rewrite Hx, Hy. f_equal.
  unfold slice in Hlx. rewrite lookup_take_lt in Hlx by lia.
  rewrite lookup_drop in Hlx.
  replace (Z.to_nat a + Z.to_nat i)%nat with (Z.to_nat (a + i)) in Hlx by lia.
  congruence.
Qed.
End Slice.

(** A loop that appends the entries of a table from [a] on, and does
    nothing else, returns the slice of the table. *)
Lemma read_loop {A} (tbl : ModbusHandler -> list A) (body : Z -> list A -> M (list A))
    (a q : Z) (h : ModbusHandler) :
  (forall i res k,
     body i res k = match index (tbl k) (a + i) with
                    | Ok x => (k, Ok (res ++ [x]))
                    | Panic e => (k, Panic e)
                    end) ->
  0 <= a -> 0 <= q -> a + q <= len (tbl h) ->
  for_range (Z.to_nat q) 0 body [] h = (h, Ok (slice (tbl h) a q)).
Proof.
  intros Hbody Ha Hq Hb.
  destruct (for_range_invariant
              (fun k res hk =>
                 hk = h /\ len res = k /\
                 forall i, 0 <= i < k -> index res i = index (tbl h) (a + i))
              body (Z.to_nat q) 0)
    with (res := @nil A) (h := h) as (h' & res & E & -> & Hl & Hi).
  - intros i res hk Hr (-> & Hl & Hres).
    destruct (index_Ok (tbl h) (a + i)) as (x & Hx & _); [lia|].
    rewrite Hbody, Hx.
    do 2 eexists. split; [reflexivity|]. split; [reflexivity|]. split.
    + rewrite len_app. change (len [x]) with 1. lia.
    + intros j Hj. destruct (Z.eq_dec j i) as [->|Hne].
      * rewrite <- Hl at 1. rewrite index_app_last. now rewrite Hx.
      * rewrite index_app_l by lia. apply Hres. lia.
  - split; [reflexivity|]. split; [reflexivity|]. intros i Hr. lia.
  - rewrite E. do 2 f_equal. apply index_ext.
    + rewrite len_slice by lia. lia.
    + intros i Hr. rewrite index_slice by lia. apply Hi. lia.
Qed.

Lemma holding_body_read req i res k :
  HR.IsWrite req = false ->
  holding_body req i res k
  = match index (holdingRegs k) (HR.Addr req + i) with
    | Ok x => (k, Ok (res ++ [x]))
    | Panic e => (k, Panic e)
    end.
Proof.
  intros Hw. unfold holding_body, load_holding, bind, get, lift, ret.
  rewrite Hw. simpl. now destruct (index (holdingRegs k) (HR.Addr req + i)).
Qed.

Lemma coils_body_read req i res k :
  CR.IsWrite req = false ->
  coils_body req i res k
  = match index (coils k) (CR.Addr req + i) with
    | Ok x => (k, Ok (res ++ [x]))
    | Panic e => (k, Panic e)
    end.
Proof.
  intros Hw. unfold coils_body, load_coil, bind, get, lift, ret.
  rewrite Hw. simpl. now destruct (index (coils k) (CR.Addr req + i)).
Qed.

Lemma input_body_read req i res k :
  input_body req i res k
  = match index (inputRegs k) (IR.Addr req + i) with
    | Ok x => (k, Ok (res ++ [x]))
    | Panic e => (k, Panic e)
    end.
Proof.
  unfold input_body, load_input, bind, get, lift, ret.
  now destruct (index (inputRegs k) (IR.Addr req + i)).
Qed.

Lemma discrete_body_read req i res k :
  discrete_body req i res k
  = match index (discreteInputs k) (DR.Addr req + i) with
    | Ok x => (k, Ok (res ++ [x]))
    | Panic e => (k, Panic e)
    end.
Proof.
  unfold discrete_body, load_discrete, bind, get, lift, ret.
  now destruct (index (discreteInputs k) (DR.Addr req + i)).
Qed.

(** X4: a request that does not write, carries the configured unit
    identity and lies within its table is answered with exactly the
    entries of the table from Addr to Addr + Quantity - 1, in order (none
    when Quantity is 0), and leaves the four tables and the counter as
    they were; this holds for each of the four handlers. *)
Theorem reads_return_the_range (req : Request) (h : ModbusHandler) :
  is_write req = false ->
  req_UnitId req = UnitID (config h) ->
  0 <= req_Addr req -> 0 <= req_Quantity req ->
  req_Addr req + req_Quantity req <= table_len h req ->
  snd (Handle req h) = Ok (table_range h req) /\
  same_tables h (fst (Handle req h)).
Proof.
  intros Hw Hu Ha Hq Hb.
  destruct req as [r|r|r|r]; simpl in Hw, Hu, Ha, Hq, Hb |- *.
  - unfold HandleHoldingRegisters. handler_steps.
    rewrite Hu, Z.eqb_refl. simpl.
    destruct (Z.ltb_spec (len (holdingRegs h)) (HR.Addr r + HR.Quantity r)); [lia|].
    match goal with
    | |- context [for_range ?cnt ?ix ?b ?rs ?h1] =>
        rewrite (read_loop holdingRegs b (HR.Addr r) (HR.Quantity r) h1
                   (fun j res k => holding_body_read r j res k Hw) Ha Hq Hb)
    end.
    simpl. split; [reflexivity|]. unfold same_tables. simpl. tauto.
  - unfold HandleInputRegisters. handler_steps.
    rewrite Hu, Z.eqb_refl. simpl.
    destruct (Z.ltb_spec (len (inputRegs h)) (IR.Addr r + IR.Quantity r)); [lia|].
    match goal with
    | |- context [for_range ?cnt ?ix ?b ?rs ?h1] =>
        rewrite (read_loop inputRegs b (IR.Addr r) (IR.Quantity r) h1
                   (input_body_read r) Ha Hq Hb)
    end.
    simpl. split; [reflexivity|]. unfold same_tables. simpl. tauto.
  - unfold HandleCoils. handler_steps.
    rewrite Hu, Z.eqb_refl. simpl.
    destruct (Z.ltb_spec (len (coils h)) (CR.Addr r + CR.Quantity r)); [lia|].
    match goal with
    | |- context [for_range ?cnt ?ix ?b ?rs ?h1] =>
        rewrite (read_loop coils b (CR.Addr r) (CR.Quantity r) h1
                   (fun j res k => coils_body_read r j res k Hw) Ha Hq Hb)
    end.
    simpl. split; [reflexivity|]. unfold same_tables. simpl. tauto.
  - unfold HandleDiscreteInputs. handler_steps.
    rewrite Hu, Z.eqb_refl. simpl.
    destruct (Z.ltb_spec (len (discreteInputs h)) (DR.Addr r + DR.Quantity r)); [lia|].
    match goal with
    | |- context [for_range ?cnt ?ix ?b ?rs ?h1] =>
        rewrite (read_loop discreteInputs b (DR.Addr r) (DR.Quantity r) h1
                   (discrete_body_read r) Ha Hq Hb)
    end.
    simpl. split; [reflexivity|]. unfold same_tables. simpl. tauto.
Qed.

Lemma reads_return_the_range_witness :
  snd (Handle hvac_inputs hvac_handler) = Ok (Registers [715; 45]) /\
  same_tables hvac_handler (fst (Handle hvac_inputs hvac_handler)).
Proof.
  apply (reads_return_the_range hvac_inputs hvac_handler); by_compute.
Defined.

(** * Writes that run out of values *)

Lemma coils_write_prefix req h :
  CR.IsWrite req = true -> 0 <= CR.Addr req ->
  CR.Addr req + CR.Quantity req <= len (coils h) ->
  forall h1, h1 = fst (for_range (Z.to_nat (CR.Quantity req)) 0 (coils_body req) [] h) ->
  forall i, 0 <= i < CR.Quantity req -> i < len (CR.Args req) ->
    index (coils h1) (CR.Addr req + i) = index (CR.Args req) i.
Proof.
  intros Hw Ha Hb h1 -> i Hi Hargs.
  pose proof (len_nonneg (CR.Args req)) as Hn.
  set (n := Z.min (CR.Quantity req) (len (CR.Args req))).
  replace (Z.to_nat (CR.Quantity req))
    with (Z.to_nat n + Z.to_nat (CR.Quantity req - n))%nat by lia.
  rewrite for_range_app.
  destruct (write_coils_range (coils_prefix req n) h Hw)
    as (h2 & res & E & _ & Hl & _ & Hpos); simpl; try lia.
  simpl in E, Hpos.
  change (coils_body (coils_prefix req n)) with (coils_body req) in E.
  rewrite (bind_Ok _ _ _ _ _ E).
  destruct (Hpos i ltac:(lia)) as (Hw2 & _). rewrite <- Hw2.
  pose proof (coils_loop_outside req (Z.to_nat (CR.Quantity req - n))
                (0 + Z.of_nat (Z.to_nat n)) res h2) as (_ & _ & _ & _ & _ & P).
  apply P. lia.
Qed.

Lemma holding_write_prefix req h :
  HR.IsWrite req = true -> 0 <= HR.Addr req ->
  HR.Addr req + HR.Quantity req <= len (holdingRegs h) ->
  forall h1, h1 = fst (for_range (Z.to_nat (HR.Quantity req)) 0 (holding_body req) [] h) ->
  forall i, 0 <= i < HR.Quantity req -> i < len (HR.Args req) ->
    index (holdingRegs h1) (HR.Addr req + i)
    = (if uint16 (HR.Addr req + i) =? CounterAddress (config h)
       then index (holdingRegs h) (HR.Addr req + i)
       else index (HR.Args req) i).
Proof.
  intros Hw Ha Hb h1 -> i Hi Hargs.
  pose proof (len_nonneg (HR.Args req)) as Hn.
  set (n := Z.min (HR.Quantity req) (len (HR.Args req))).
  replace (Z.to_nat (HR.Quantity req))
    with (Z.to_nat n + Z.to_nat (HR.Quantity req - n))%nat by lia.
  rewrite for_range_app.
  destruct (write_holding_range (holding_prefix req n) h Hw)
    as (h2 & res & E & _ & Hl & _ & Hpos); simpl; try lia.
  simpl in E, Hpos.
  change (holding_body (holding_prefix req n)) with (holding_body req) in E.
  rewrite (bind_Ok _ _ _ _ _ E).
  destruct (Hpos i ltac:(lia)) as (Hw2 & _). rewrite <- Hw2.
  pose proof (holding_loop_outside req (Z.to_nat (HR.Quantity req - n))
                (0 + Z.of_nat (Z.to_nat n)) res h2) as (_ & _ & _ & _ & _ & P).
  apply P. lia.
Qed.

(** X5: a write that passes the identity and bounds checks stores its
    values in ascending order of address and keeps what it has stored
    when it then panics for want of a value: whatever the outcome, every
    position of the range for which Args carries a value holds that value
    afterwards (a holding register whose address, as a uint16, is the
    counter's holds what it held). *)
Theorem partial_writes_are_kept (h : ModbusHandler) (req : HR.t) (creq : CR.t) :
  HR.wf req -> CR.wf creq ->
  HR.IsWrite req = true -> CR.IsWrite creq = true ->
  HR.UnitId req = UnitID (config h) -> CR.UnitId creq = UnitID (config h) ->
  HR.Addr req + HR.Quantity req <= len (holdingRegs h) ->
  CR.Addr creq + CR.Quantity creq <= len (coils h) ->
  (forall i, 0 <= i < HR.Quantity req -> i < len (HR.Args req) ->
     index (holdingRegs (fst (HandleHoldingRegisters req h))) (HR.Addr req + i)
     = (if uint16 (HR.Addr req + i) =? CounterAddress (config h)
        then index (holdingRegs h) (HR.Addr req + i)
        else index (HR.Args req) i)) /\
  (forall i, 0 <= i < CR.Quantity creq -> i < len (CR.Args creq) ->
     index (coils (fst (HandleCoils creq h))) (CR.Addr creq + i)
     = index (CR.Args creq) i).
Proof.
  intros (_ & Ha & _) (_ & Hca & _) Hw Hcw Hu Hcu Hb Hcb. split.
  - intros i Hi Hargs.
    unfold HandleHoldingRegisters. handler_steps.
    rewrite Hu, Z.eqb_refl. simpl.
    destruct (Z.ltb_spec (len (holdingRegs h)) (HR.Addr req + HR.Quantity req));
      [lia|].
    match goal with
    | |- context [for_range ?cnt ?ix ?b ?rs ?h1] =>
        pose proof (holding_write_prefix req h1 Hw ltac:(lia) Hb _ eq_refl i Hi Hargs)
          as Hp;
        destruct (for_range cnt ix b rs h1) as [h2 [res|e]]
    end; simpl in *; exact Hp.
  - intros i Hi Hargs.
    unfold HandleCoils. handler_steps.
    rewrite Hcu, Z.eqb_refl. simpl.
    destruct (Z.ltb_spec (len (coils h)) (CR.Addr creq + CR.Quantity creq));
      [lia|].
    match goal with
    | |- context [for_range ?cnt ?ix ?b ?rs ?h1] =>
        pose proof (coils_write_prefix creq h1 Hcw ltac:(lia) Hcb _ eq_refl i Hi Hargs)
          as Hp;
        destruct (for_range cnt ix b rs h1) as [h2 [res|e]]
    end; simpl in *; exact Hp.
Qed.

Lemma partial_writes_are_kept_witness :
  index (holdingRegs (fst (HandleHoldingRegisters short_holding_write handler_200))) 5
  = Ok 7 /\
  index (coils (fst (HandleCoils short_coils_write handler_200))) 0 = Ok true.
Proof.
  destruct (partial_writes_are_kept handler_200 short_holding_write
              short_coils_write
              ltac:(by_compute) ltac:(by_compute) ltac:(by_compute)
              ltac:(by_compute) ltac:(by_compute) ltac:(by_compute)
              ltac:(by_compute) ltac:(by_compute)) as [H C].
  split.
  - exact (H 0 ltac:(by_compute) ltac:(by_compute)).
  - exact (C 0 ltac:(by_compute) ltac:(by_compute)).
Defined.

(** * The counter along a run *)

Lemma counter_after_succ (n : Z) :
  0 <= n ->
  counter_after (n + 1)
  = (if counter_after n =? MaxUint16 then 1 else counter_after n + 1).
Proof.
  intros Hn. unfold counter_after, MaxUint16.
  destruct (Z.eqb_spec (n + 1) 0) as [|_]; [lia|].
  destruct (Z.eqb_spec n 0) as [->|Hpos]; [reflexivity|].
  replace (n + 1 - 1) with (n - 1 + 1) by lia.
  rewrite <- (Z.add_mod_idemp_l (n - 1) 1 65535) by lia.
  pose proof (Z.mod_pos_bound (n - 1) 65535 ltac:(lia)) as Hr.
  destruct (Z.eqb_spec ((n - 1) mod 65535 + 1) 65535) as [E|E].
  - rewrite E. reflexivity.
  - rewrite (Z.mod_small ((n - 1) mod 65535 + 1)) by lia. reflexivity.
Qed.

Lemma tick_count_cons o ops :
  tick_count (o :: ops) = (if is_tick o then 1 else 0) + tick_count ops.
Proof.
  unfold tick_count, len. rewrite filter_cons.
  destruct o; simpl; lia.
Qed.

Lemma tick_count_nonneg ops : 0 <= tick_count ops.
Proof. unfold tick_count. apply len_nonneg. Qed.

Lemma exec_counter ops :
  forall h h' n,
    consistent h -> runs_to h ops h' -> 0 <= n ->
    counter h = counter_after n ->
    counter h' = counter_after (n + tick_count ops).
Proof.
  induction ops as [|o ops IH]; intros h h' n Hc Hrun Hn Hk.
  - apply runs_to_nil in Hrun. subst h'.
    change (tick_count []) with 0. now rewrite Z.add_0_r.
  - apply runs_to_cons in Hrun as (h1 & E1 & Hrun).
    pose proof (exec_op_consistent _ _ _ Hc E1) as Hc1.
    rewrite tick_count_cons.
    destruct o as [|req]; simpl in E1 |- *.
    + destruct (UpdateCounter_spec h Hc)
        as (h2 & Eu & _ & _ & _ & _ & _ & _ & Hcnt & _).
      rewrite Eu in E1. inversion E1; subst h2.
      rewrite Z.add_assoc. apply (IH h1 h' (n + 1)); try assumption; [lia|].
      rewrite Hcnt, Hk. symmetry. now apply counter_after_succ.
    + pose proof (Handle_handled req h) as (_ & Hkeep & _).
      unfold bind in E1. destruct (Handle req h) as [h2 [r|e]]; [|discriminate].
      inversion E1; subst h2. simpl in Hkeep.
      apply (IH h1 h' n); try assumption. congruence.
Qed.

(** X6: on a handler reached from its construction by a run of ticks and
    requests, the counter depends on the number n of ticks alone, however
    the clients' requests are interleaved: it is 0 before the first tick
    and ((n - 1) mod 65535) + 1 after the n-th, and the holding register
    at the counter address holds the same value. *)
Theorem counter_counts_ticks (c : ModbusConfig) (now : Z)
    (h0 h : ModbusHandler) (ops : list Op) :
  wf_ModbusConfig c ->
  NewModbusHandler c now = Ok h0 ->
  runs_to h0 ops h ->
  counter h = counter_after (tick_count ops) /\
  index (holdingRegs h) (CounterAddress c) = Ok (counter h).
Proof.
  intros Hwf Hnew Hrun.
  destruct (NewModbusHandler_consistent c now h0 Hwf Hnew) as (Hc0 & Hcfg0 & Hk0 & _).
  pose proof (runs_to_consistent _ _ _ Hc0 Hrun) as Hc.
  pose proof (runs_to_config _ _ _ Hc0 Hrun) as Hcfg.
  split.
  - apply (exec_counter ops h0 h 0 Hc0 Hrun); [lia | exact Hk0].
  - destruct Hc as (_ & _ & _ & _ & _ & _ & Hi).
    now rewrite <- Hcfg0, <- Hcfg.
Qed.

Lemma counter_counts_ticks_witness :
  counter handler_200_busy = counter_after (tick_count busy_run) /\
  index (holdingRegs handler_200_busy) (CounterAddress (test_cfg 200 10))
  = Ok (counter handler_200_busy).
Proof.
  apply (counter_counts_ticks (test_cfg 200 10) 0 handler_200 handler_200_busy
           busy_run test_cfg_wf).
  - vm_compute. reflexivity.
  - vm_compute. reflexivity.
Defined.

(** * The tables after the construction *)

Lemma seed_step c now d h :
  0 <= Address d -> sized c now h ->
  exists h',
    seed c d h = (h', Ok tt) /\ sized c now h' /\
    logger h' = logger h ++ seed_warning c d /\
    (forall a, index (holdingRegs h') a
               = if hits c "holding" a d then Ok (register_of (Value d))
                 else index (holdingRegs h) a) /\
    (forall a, index (inputRegs h') a
               = if hits c "input" a d then Ok (register_of (Value d))
                 else index (inputRegs h) a) /\
    (forall a, index (coils h') a
               = if hits c "coil" a d then Ok (bit_of (Value d))
                 else index (coils h) a) /\
    (forall a, index (discreteInputs h') a
               = if hits c "discrete" a d then Ok (bit_of (Value d))
                 else index (discreteInputs h) a).
Proof.
  intros Hd (Hc & Hk & Hs & L1 & L2 & L3 & L4).
  assert (Hm : 0 <= MaxRegisters c) by (rewrite <- L1; apply len_nonneg).
  pose proof (uint16_le _ Hm) as Hle.
  unfold seed, hits, seed_warning, applies, known_type.
  destruct (Z.leb_spec (uint16 (MaxRegisters c)) (Address d)) as [Hge|Hlt].
  { destruct (Z.ltb_spec (Address d) (uint16 (MaxRegisters c))); [lia|].
    eexists. split; [reflexivity|]. unfold sized; simpl.
    repeat split; try assumption; reflexivity. }
  destruct (Z.ltb_spec (Address d) (uint16 (MaxRegisters c))); [|lia].
  assert (Hhit : forall (A : Type) (s : list A) (v : A) a,
             len s = MaxRegisters c ->
             index (<[Z.to_nat (Address d) := v]> s) a
             = if Address d =? a then Ok v else index s a).
  { intros A s v a Hl.
    pose proof (assign_Ok s (Address d) v ltac:(lia)) as Has.
    destruct (Z.eqb_spec (Address d) a) as [<-|Hne].
    - apply (index_assign_eq _ _ _ _ Has).
    - apply (index_assign_ne _ _ _ _ _ Has). congruence. }
  destruct (String.eqb_spec (Type_ d) "holding") as [E|N1].
  { try rewrite E. simpl. unfold store_holding, set_holdingRegs, bind, get, lift.
    rewrite assign_Ok by lia. simpl.
    eexists. split; [reflexivity|]. unfold sized; simpl.
    rewrite len_insert, app_nil_r.
    repeat split; try assumption; try reflexivity.
    intros a. now apply Hhit. }
  destruct (String.eqb_spec (Type_ d) "input") as [E|N2].
  { try rewrite E. simpl. unfold store_input, set_inputRegs, bind, get, lift.
    rewrite assign_Ok by lia. simpl.
    eexists. split; [reflexivity|]. unfold sized; simpl.
    rewrite len_insert, app_nil_r.
    repeat split; try assumption; try reflexivity.
    intros a. now apply Hhit. }
  destruct (String.eqb_spec (Type_ d) "coil") as [E|N3].
  { try rewrite E. simpl. unfold store_coil, set_coils, bind, get, lift.
    rewrite assign_Ok by lia. simpl.
    eexists. split; [reflexivity|]. unfold sized; simpl.
    rewrite len_insert, app_nil_r.
    repeat split; try assumption; try reflexivity.
    intros a. now apply Hhit. }
  destruct (String.eqb_spec (Type_ d) "discrete") as [E|N4].
  { try rewrite E. simpl. unfold store_discrete, set_discreteInputs, bind, get, lift.
    rewrite assign_Ok by lia. simpl.
    eexists. split; [reflexivity|]. unfold sized; simpl.
    rewrite len_insert, app_nil_r.
    repeat split; try assumption; try reflexivity.
    intros a. now apply Hhit. }
  eexists. split; [reflexivity|]. unfold sized; simpl.
  repeat split; try assumption; reflexivity.
Qed.

Lemma seeding_result c now l :
  forall h,
    Forall wf_RegisterValue l -> sized c now h ->
    exists h',
      for_each l (seed c) h = (h', Ok tt) /\ sized c now h' /\
      logger h' = logger h ++ concat (map (seed_warning c) l) /\
      (forall a v, index (holdingRegs h) a = Ok v ->
         index (holdingRegs h') a = Ok (seeded register_of c "holding" a l v)) /\
      (forall a v, index (inputRegs h) a = Ok v ->
         index (inputRegs h') a = Ok (seeded register_of c "input" a l v)) /\
      (forall a v, index (coils h) a = Ok v ->
         index (coils h') a = Ok (seeded bit_of c "coil" a l v)) /\
      (forall a v, index (discreteInputs h) a = Ok v ->
         index (discreteInputs h') a = Ok (seeded bit_of c "discrete" a l v)).
Proof.
  induction l as [|d l IH]; intros h Hwf Hs.
  - exists h. simpl. rewrite app_nil_r.
    split; [reflexivity|]. split; [exact Hs|]. split; [reflexivity|].
    repeat split; intros a v Hv; exact Hv.
  - inversion Hwf as [|d' l' Hd Hl]; subst.
    destruct (seed_step c now d h) as (h1 & E1 & S1 & Lg1 & H1 & I1 & C1 & D1);
      [apply Hd | exact Hs |].
    destruct (IH h1 Hl S1) as (h2 & E2 & S2 & Lg2 & H2 & I2 & C2 & D2).
    exists h2. split; [simpl; now rewrite (bind_Ok _ _ _ _ _ E1)|].
    split; [exact S2|]. split.
    { rewrite Lg2, Lg1. simpl. now rewrite app_assoc. }
    repeat split; intros a v Hv; simpl.
    + apply H2. rewrite H1. destruct (hits c "holding" a d); [reflexivity | exact Hv].
    + apply I2. rewrite I1. destruct (hits c "input" a d); [reflexivity | exact Hv].
    + apply C2. rewrite C1. destruct (hits c "coil" a d); [reflexivity | exact Hv].
    + apply D2. rewrite D1. destruct (hits c "discrete" a d); [reflexivity | exact Hv].
Qed.

(** X7: a construction that returns leaves, at every address below
    MaxRegisters, each table with the value of the last seed entry of its
    kind and that address that passed the bound of the seed loop
    (Address < uint16(MaxRegisters)), converted to a bit for coils and
    discrete inputs, and with zero or false where there is none; the
    holding register at the counter address is 0 whatever was seeded
    there. *)
Theorem tables_after_construction (c : ModbusConfig) (now : Z)
    (h : ModbusHandler) (a : Z) :
  wf_ModbusConfig c ->
  NewModbusHandler c now = Ok h ->
  0 <= a < MaxRegisters c ->
  index (holdingRegs h) a
  = Ok (if a =? CounterAddress c then 0
        else seeded register_of c "holding" a (InitialData c) 0) /\
  index (inputRegs h) a = Ok (seeded register_of c "input" a (InitialData c) 0) /\
  index (coils h) a = Ok (seeded bit_of c "coil" a (InitialData c) false) /\
  index (discreteInputs h) a
  = Ok (seeded bit_of c "discrete" a (InitialData c) false).
Proof.
  intros Hwf Hnew Ha.
  pose proof Hwf as (_ & Hca & Hseeds).
  destruct (Z.lt_ge_cases (CounterAddress c) (MaxRegisters c)) as [Hlt|Hge];
    [|rewrite (NewModbusHandler_Panic c now Hwf Hge) in Hnew; discriminate].
  destruct (alloc_Ok c now ltac:(lia)) as (ha & Ea & Sa & _ & Th & Ti & Tc & Td).
  destruct (seeding_result c now (InitialData c) ha Hseeds Sa)
    as (hs & Es & Ss & _ & H & I & C & D).
  unfold NewModbusHandler in Hnew. rewrite Ea in Hnew.
  rewrite (bind_Ok _ _ _ _ _ Es) in Hnew.
  pose proof Ss as (_ & _ & _ & L1 & _).
  unfold store_holding, set_holdingRegs, log, bind, get, lift in Hnew.
  rewrite assign_Ok in Hnew by lia. simpl in Hnew.
  inversion Hnew; subst h; clear Hnew. simpl.
  pose proof (assign_Ok (holdingRegs hs) (CounterAddress c) 0 ltac:(lia)) as Has.
  split; [|split; [|split]].
  - destruct (Z.eqb_spec a (CounterAddress c)) as [->|Hne].
    + apply (index_assign_eq _ _ _ _ Has).
    + rewrite (index_assign_ne _ _ _ _ _ Has) by assumption.
      apply H. rewrite Th. now apply index_replicate.
  - apply I. rewrite Ti. now apply index_replicate.
  - apply C. rewrite Tc. now apply index_replicate.
  - apply D. rewrite Td. now apply index_replicate.
Qed.

(** X8: a construction that returns has logged, in the order of the seed
    list, one out-of-bounds warning for each entry that fails the bound
    of the seed loop and one unknown-type warning for each entry that
    passes it with a kind other than holding, input, coil and discrete,
    nothing for the entries it stored, and then the one line that the
    handler is initialized. *)
Theorem log_after_construction (c : ModbusConfig) (now : Z) (h : ModbusHandler) :
  wf_ModbusConfig c ->
  NewModbusHandler c now = Ok h ->
  logger h = concat (map (seed_warning c) (InitialData c)) ++ [handler_initialized].
Proof.
  intros Hwf Hnew.
  pose proof Hwf as (_ & Hca & Hseeds).
  destruct (Z.lt_ge_cases (CounterAddress c) (MaxRegisters c)) as [Hlt|Hge];
    [|rewrite (NewModbusHandler_Panic c now Hwf Hge) in Hnew; discriminate].
  destruct (alloc_Ok c now ltac:(lia)) as (ha & Ea & Sa & La & _).
  destruct (seeding_result c now (InitialData c) ha Hseeds Sa)
    as (hs & Es & Ss & Lg & _).
  unfold NewModbusHandler in Hnew. rewrite Ea in Hnew.
  rewrite (bind_Ok _ _ _ _ _ Es) in Hnew.
  pose proof Ss as (_ & _ & _ & L1 & _).
  unfold store_holding, set_holdingRegs, log, bind, get, lift in Hnew.
  rewrite assign_Ok in Hnew by lia. simpl in Hnew.
  inversion Hnew; subst h; clear Hnew. simpl.
  rewrite Lg, La. reflexivity.
Qed.

Lemma hvac_cfg_wf : wf_ModbusConfig hvac_cfg.
Proof.
  unfold wf_ModbusConfig, hvac_cfg, wf_RegisterValue, MaxUint16; simpl.
  repeat split; try lia.
  repeat (apply List.Forall_cons; [simpl; lia|]). apply List.Forall_nil.
Defined.

Lemma tables_after_construction_witness :
  index (holdingRegs hvac_handler) 10
  = Ok (if 10 =? CounterAddress hvac_cfg then 0
        else seeded register_of hvac_cfg "holding" 10 (InitialData hvac_cfg) 0) /\
  index (inputRegs hvac_handler) 10
  = Ok (seeded register_of hvac_cfg "input" 10 (InitialData hvac_cfg) 0) /\
  index (coils hvac_handler) 10
  = Ok (seeded bit_of hvac_cfg "coil" 10 (InitialData hvac_cfg) false) /\
  index (discreteInputs hvac_handler) 10
  = Ok (seeded bit_of hvac_cfg "discrete" 10 (InitialData hvac_cfg) false).
Proof.
  apply (tables_after_construction hvac_cfg 0 hvac_handler 10 hvac_cfg_wf).
  - vm_compute. reflexivity.
  - simpl. lia.
Defined.

Lemma log_after_construction_witness :
  logger hvac_handler
  = concat (map (seed_warning hvac_cfg) (InitialData hvac_cfg))
    ++ [handler_initialized].
Proof.
  apply (log_after_construction hvac_cfg 0 hvac_handler hvac_cfg_wf).
  vm_compute. reflexivity.
Defined.

(** * Start: every way it returns *)

Lemma attempts_app t1 t2 :
  Server.attempts (t1 ++ t2) = Server.attempts t1 + Server.attempts t2.
Proof.
  unfold Server.attempts, len. rewrite filter_app, length_app. lia.
Qed.

Lemma attempts_nonneg t : 0 <= Server.attempts t.
Proof. unfold Server.attempts. apply len_nonneg. Qed.

Lemma Start_loop_spec (c : ServerConfig) (w : Server.World) :
  forall (fuel : nat) (rc : Z) (polls : nat) (trace : list Server.Event),
    0 <= rc <= Startup.max_attempts c ->
    (Z.to_nat (Startup.max_attempts c - rc) < fuel)%nat ->
    exists r t,
      Server.Start_loop c w fuel rc polls trace = Some (r, trace ++ t) /\
      Server.actions t
      = Startup.schedule c (rc + 1) (Z.to_nat (Server.attempts t)) /\
      rc + Server.attempts t <= Startup.max_attempts c /\
      (forall j, rc < j < rc + Server.attempts t ->
         Server.startServer_fails w j = true) /\
      match r with
      | Server.Served =>
          1 <= Server.attempts t /\
          Server.startServer_fails w (rc + Server.attempts t) = false
      | Server.MaxRetriesExceeded x =>
          x = MaxRetries c /\
          rc + Server.attempts t = Startup.max_attempts c /\
          (1 <= Server.attempts t ->
           Server.startServer_fails w (rc + Server.attempts t) = true)
      | Server.CtxErr =>
          (exists p, Server.ctx_done w p = true) /\
          (1 <= Server.attempts t ->
           Server.startServer_fails w (rc + Server.attempts t) = true)
      end.
Proof.
  unfold Startup.max_attempts.
  induction fuel as [|f IH]; intros rc polls trace Hrc Hfuel; [lia|].
  simpl Server.Start_loop.
  destruct (Server.ctx_done w polls) eqn:Hd.
  { exists Server.CtxErr, []. rewrite app_nil_r.
    change (Server.attempts []) with 0.
    split; [reflexivity|]. split; [reflexivity|]. split; [lia|].
    split; [intros j Hj; lia|]. split; [eauto | lia]. }
  destruct (Z.ltb_spec 0 rc) as [Hpos|Hzero].
  - destruct (Z.leb_spec (MaxRetries c) rc) as [Hmax|Hless].
    { exists (Server.MaxRetriesExceeded (MaxRetries c)), []. rewrite app_nil_r.
      change (Server.attempts []) with 0.
      split; [reflexivity|]. split; [reflexivity|]. split; [lia|].
      split; [intros j Hj; lia|]. split; [reflexivity|]. split; lia. }
    destruct (Server.ctx_done w (S polls)) eqn:Hd2.
    { exists Server.CtxErr, [Server.Log WARN "Retrying server start"].
      change (Server.attempts [Server.Log WARN "Retrying server start"]) with 0.
      split; [reflexivity|]. split; [reflexivity|]. split; [lia|].
      split; [intros j Hj; lia|]. split; [eauto | lia]. }
    destruct (Server.startServer_fails w (rc + 1)) eqn:Hf.
    + destruct (IH (rc + 1) (S (S polls))
                  ((((trace ++ [Server.Log WARN "Retrying server start"])
                       ++ [Server.Wait (RetryDelay c)])
                      ++ [Server.StartServer (rc + 1)])
                     ++ [Server.Log ERROR "Server start failed"]))
        as (r & t & E & Hact & Hle & Hall & Hr); [lia | lia |].
      pose proof (attempts_nonneg t) as Hn.
      exists r, ([Server.Log WARN "Retrying server start";
                  Server.Wait (RetryDelay c); Server.StartServer (rc + 1);
                  Server.Log ERROR "Server start failed"] ++ t).
      assert (Ha : Server.attempts
                     ([Server.Log WARN "Retrying server start";
                       Server.Wait (RetryDelay c); Server.StartServer (rc + 1);
                       Server.Log ERROR "Server start failed"] ++ t)
                   = 1 + Server.attempts t)
        by (rewrite attempts_app; reflexivity).
      rewrite Ha.
      split; [rewrite E; do 2 f_equal; rewrite <- !app_assoc; reflexivity|].
      split.
      { rewrite actions_app, Hact.
        replace (Z.to_nat (1 + Server.attempts t))
          with (S (Z.to_nat (Server.attempts t))) by lia.
        simpl Startup.schedule.
        destruct (Z.eqb_spec (rc + 1) 1) as [|_]; [lia|]. reflexivity. }
      split; [lia|]. split.
      { intros j Hj. destruct (Z.eq_dec j (rc + 1)) as [->|Hne];
          [exact Hf | apply Hall; lia]. }
      replace (rc + (1 + Server.attempts t)) with (rc + 1 + Server.attempts t) by lia.
      assert (Hlast : (1 <= Server.attempts t ->
                       Server.startServer_fails w (rc + 1 + Server.attempts t) = true) ->
                      Server.startServer_fails w (rc + 1 + Server.attempts t) = true).
      { intros Hl. destruct (Z.eq_dec (Server.attempts t) 0) as [Hz|Hnz];
          [rewrite Hz, Z.add_0_r; exact Hf | apply Hl; lia]. }
      destruct r as [| |x].
      * destruct Hr as (H1 & H2). split; [lia | exact H2].
      * destruct Hr as (H1 & H2). split; [exact H1 | intros _; exact (Hlast H2)].
      * destruct Hr as (H1 & H2 & H3).
        split; [exact H1|]. split; [lia | intros _; exact (Hlast H3)].
    + exists Server.Served,
        [Server.Log WARN "Retrying server start"; Server.Wait (RetryDelay c);
         Server.StartServer (rc + 1)].
      change (Server.attempts
                [Server.Log WARN "Retrying server start";
                 Server.Wait (RetryDelay c); Server.StartServer (rc + 1)]) with 1.
      split; [do 2 f_equal; rewrite <- !app_assoc; reflexivity|].
      split.
      { change (Z.to_nat 1) with 1%nat. simpl Startup.schedule.
        destruct (Z.eqb_spec (rc + 1) 1) as [|_]; [lia|]. reflexivity. }
      split; [lia|]. split; [intros j Hj; lia|]. split; [lia | exact Hf].
  - assert (rc = 0) by lia. subst rc. change (0 + 1) with 1.
    destruct (Server.startServer_fails w 1) eqn:Hf.
    + destruct (IH 1 (S polls)
                  ((trace ++ [Server.StartServer 1])
                     ++ [Server.Log ERROR "Server start failed"]))
        as (r & t & E & Hact & Hle & Hall & Hr); [lia | lia |].
      pose proof (attempts_nonneg t) as Hn.
      exists r, ([Server.StartServer 1; Server.Log ERROR "Server start failed"] ++ t).
      assert (Ha : Server.attempts
                     ([Server.StartServer 1;
                       Server.Log ERROR "Server start failed"] ++ t)
                   = 1 + Server.attempts t)
        by (rewrite attempts_app; reflexivity).
      rewrite Ha.
      split; [rewrite E; do 2 f_equal; rewrite <- !app_assoc; reflexivity|].
      split.
      { rewrite actions_app, Hact.
        replace (Z.to_nat (1 + Server.attempts t))
          with (S (Z.to_nat (Server.attempts t))) by lia.
        reflexivity. }
      split; [lia|]. split.
      { intros j Hj. destruct (Z.eq_dec j 1) as [->|Hne];
          [exact Hf | apply Hall; lia]. }
      replace (0 + (1 + Server.attempts t)) with (1 + Server.attempts t) by lia.
      assert (Hlast : (1 <= Server.attempts t ->
                       Server.startServer_fails w (1 + Server.attempts t) = true) ->
                      Server.startServer_fails w (1 + Server.attempts t) = true).
      { intros Hl. destruct (Z.eq_dec (Server.attempts t) 0) as [Hz|Hnz];
          [rewrite Hz; exact Hf | apply Hl; lia]. }
      destruct r as [| |x].
      * destruct Hr as (H1 & H2). split; [lia | exact H2].
      * destruct Hr as (H1 & H2). split; [exact H1 | intros _; exact (Hlast H2)].
      * destruct Hr as (H1 & H2 & H3).
        split; [exact H1|]. split; [lia | intros _; exact (Hlast H3)].
    + exists Server.Served, [Server.StartServer 1].
      change (Server.attempts [Server.StartServer 1]) with 1.
      split; [reflexivity|]. split; [reflexivity|].
      split; [lia|]. split; [intros j Hj; lia|]. split; [lia | exact Hf].
Qed.

Lemma waits_schedule_later c first k :
  2 <= first -> Server.waits (Startup.schedule c first k) = Z.of_nat k.
Proof.
  revert first. induction k as [|k IH]; intros first Hf; [reflexivity|].
  simpl Startup.schedule.
  destruct (Z.eqb_spec first 1) as [|_]; [lia|].
  specialize (IH (first + 1) ltac:(lia)).
  unfold Server.waits, len in *. simpl app.
  rewrite !filter_cons. simpl.
  destruct (decide (true = true)); [|congruence].
  destruct (decide (false = true)); [discriminate|].
  simpl length. lia.
Qed.

Lemma waits_schedule c k :
  Server.waits (Startup.schedule c 1 k) = Z.max 0 (Z.of_nat k - 1).
Proof.
  destruct k as [|k]; [reflexivity|].
  simpl Startup.schedule. change (1 + 1) with 2.
  pose proof (waits_schedule_later c 2 k ltac:(lia)) as Hw.
  unfold Server.waits, len in *. simpl app.
  rewrite filter_cons. simpl.
  destruct (decide (false = true)); [discriminate|]. lia.
Qed.

Lemma Start_spec (c : ServerConfig) (w : Server.World) (fuel : nat) :
  (Z.to_nat (Startup.max_attempts c) < fuel)%nat ->
  exists r t,
    Server.Start c w fuel = Some (r, t) /\
    Server.actions t = Startup.schedule c 1 (Z.to_nat (Server.attempts t)) /\
    Server.attempts t <= Startup.max_attempts c /\
    Server.waits t = Z.max 0 (Server.attempts t - 1) /\
    (forall j, 1 <= j < Server.attempts t -> Server.startServer_fails w j = true) /\
    Startup.outcome c w r t.
Proof.
  intros Hfuel.
  destruct (Start_loop_spec c w fuel 0 0%nat [])
    as (r & t & E & Hact & Hle & Hall & Hr);
    [unfold Startup.max_attempts; lia | now rewrite Z.sub_0_r |].
  pose proof (attempts_nonneg t) as Hn.
  exists r, t. split; [exact E|]. split; [exact Hact|]. split; [lia|].
  split; [|split].
  - rewrite <- waits_actions, Hact, waits_schedule. lia.
  - intros j Hj. apply Hall. lia.
  - unfold Startup.outcome. destruct r as [| |x]; simpl in Hr |- *.
    + exact Hr.
    + exact Hr.
    + destruct Hr as (H1 & H2 & H3). split; [exact H1|]. split; [lia|].
      apply H3. unfold Startup.max_attempts in *. lia.
Qed.


Lemma Start_succeeds (c : ServerConfig) (w : Server.World) (fuel : nat) (k : Z) :
  (forall p, Server.ctx_done w p = false) ->
  1 <= k <= Startup.max_attempts c ->
  (forall j, 1 <= j < k -> Server.startServer_fails w j = true) ->
  Server.startServer_fails w k = false ->
  (Z.to_nat (Startup.max_attempts c) < fuel)%nat ->
  exists t,
    Server.Start c w fuel = Some (Server.Served, t) /\
    Server.attempts t = k /\ Server.waits t = k - 1 /\
    Server.actions t = Startup.schedule c 1 (Z.to_nat k).
Proof.
  intros Hctx Hk Hfail Hok Hfuel.
  destruct (Start_spec c w fuel Hfuel) as (r & t & E & Hact & Hle & Hw & Hall & Hr).
  assert (Hlast : r <> Server.Served ->
                  forall j, 1 <= j <= Server.attempts t ->
                    Server.startServer_fails w j = true).
  { intros Hns j Hj.
    destruct (Z.eq_dec j (Server.attempts t)) as [->|Hne]; [|apply Hall; lia].
    destruct r as [| |x]; simpl in Hr; [congruence | apply Hr; lia | apply Hr]. }
  destruct r as [| |x]; simpl in Hr.
  - destruct Hr as (H1 & H2).
    assert (Server.attempts t = k).
    { destruct (Z.lt_trichotomy (Server.attempts t) k) as [Hlt|[Heq|Hgt]].
      - rewrite (Hfail (Server.attempts t) ltac:(lia)) in H2. discriminate.
      - exact Heq.
      - rewrite (Hall k ltac:(lia)) in Hok. discriminate. }
    exists t. split; [exact E|]. split; [assumption|]. split; [lia|].
    now rewrite Hact, H.
  - destruct Hr as ((p & Hp) & _). rewrite Hctx in Hp. discriminate.
  - destruct Hr as (_ & H2 & _).
    rewrite (Hlast ltac:(discriminate) k ltac:(lia)) in Hok. discriminate.
Qed.

(** X10: when no select of Start finds the context cancelled, calls 1
    to k - 1 of startServer fail and call k succeeds (it serves until the
    context is cancelled and returns nil), with k at most max(1,
    MaxRetries), Start makes exactly k calls with k - 1 waits between
    them and returns nil. *)
Theorem start_succeeds_after_retries (c : ServerConfig) (w : Server.World)
    (fuel : nat) (k : Z) :
  (forall p, Server.ctx_done w p = false) ->
  1 <= k <= Startup.max_attempts c ->
  (forall j, 1 <= j < k -> Server.startServer_fails w j = true) ->
  Server.startServer_fails w k = false ->
  (Z.to_nat (Startup.max_attempts c) < fuel)%nat ->
  exists t,
    Server.Start c w fuel = Some (Server.Served, t) /\
    Server.attempts t = k /\ Server.waits t = k - 1 /\
    Server.actions t = Startup.schedule c 1 (Z.to_nat k).
Proof. apply Start_succeeds. Qed.

(** ** The loops a start attempt leaves behind *)




(** ** Cancellation *)

Lemma Start_loop_cancelled (c : ServerConfig) (w : Server.World) (p : nat) :
  (forall n, Server.startServer_fails w n = true) ->
  (forall k, (k < p)%nat -> Server.ctx_done w k = false) ->
  Server.ctx_done w p = true ->
  Z.of_nat p <= 2 * Startup.max_attempts c - 1 ->
  forall (fuel : nat) (rc : Z) (polls : nat) (trace : list Server.Event),
    1 <= rc -> Z.of_nat polls = 2 * rc - 1 -> (polls <= p)%nat ->
    (Z.to_nat (Startup.max_attempts c - rc) < fuel)%nat ->
    exists t,
      Server.Start_loop c w fuel rc polls trace = Some (Server.CtxErr, trace ++ t) /\
      Server.attempts t = (Z.of_nat p + 1) / 2 - rc.
Proof.
  intros Hf Hbefore Hat Hp. unfold Startup.max_attempts in *.
  induction fuel as [|f IH]; intros rc polls trace Hrc Hpolls Hle Hfuel; [lia|].
  simpl Server.Start_loop.
  destruct (Nat.eq_dec polls p) as [->|Hne].
  { rewrite Hat. exists []. rewrite app_nil_r. split; [reflexivity|].
    change (Server.attempts []) with 0.
    rewrite Hpolls. replace (2 * rc - 1 + 1) with (rc * 2) by lia.
    rewrite Z.div_mul by lia. lia. }
  rewrite (Hbefore polls) by lia.
  destruct (Z.ltb_spec 0 rc) as [_|]; [|lia].
  destruct (Z.leb_spec (MaxRetries c) rc) as [Hmax|Hless]; [lia|].
  destruct (Nat.eq_dec (S polls) p) as [<-|Hne2].
  { rewrite Hat. exists [Server.Log WARN "Retrying server start"].
    split; [reflexivity|].
    change (Server.attempts [Server.Log WARN "Retrying server start"]) with 0.
    replace (Z.of_nat (S polls) + 1) with (1 + rc * 2) by lia.
    rewrite Z.div_add by lia. change (1 / 2) with 0. lia. }
  rewrite (Hbefore (S polls)) by lia. rewrite Hf.
  destruct (IH (rc + 1) (S (S polls))
              ((((trace ++ [Server.Log WARN "Retrying server start"])
                   ++ [Server.Wait (RetryDelay c)])
                  ++ [Server.StartServer (rc + 1)])
                 ++ [Server.Log ERROR "Server start failed"]))
    as (t & E & Ha); [lia | lia | lia | lia |].
  exists ([Server.Log WARN "Retrying server start"; Server.Wait (RetryDelay c);
           Server.StartServer (rc + 1); Server.Log ERROR "Server start failed"]
            ++ t).
  split; [rewrite E; do 2 f_equal; rewrite <- !app_assoc; reflexivity|].
  rewrite attempts_app, Ha.
  change (Server.attempts
            [Server.Log WARN "Retrying server start"; Server.Wait (RetryDelay c);
             Server.StartServer (rc + 1); Server.Log ERROR "Server start failed"])
    with 1.
  lia.
Qed.

(** X12: the context is consulted at the top of every iteration and once
    more during every wait. When the transport keeps failing and the
    context is first found cancelled at consultation number p (counted
    from 0), with p below 2 max(1, MaxRetries), Start returns the
    context's error having made (p + 1) / 2 attempts, each but the first
    after one full wait: no attempt follows the cancellation, and a
    cancellation seen at the top of the iteration after the last allowed
    attempt wins over the max-retries error. *)
Theorem start_cancelled (c : ServerConfig) (w : Server.World) (fuel p : nat) :
  (forall n, Server.startServer_fails w n = true) ->
  (forall k, (k < p)%nat -> Server.ctx_done w k = false) ->
  Server.ctx_done w p = true ->
  Z.of_nat p <= 2 * Startup.max_attempts c - 1 ->
  (Z.to_nat (Startup.max_attempts c) < fuel)%nat ->
  exists t,
    Server.Start c w fuel = Some (Server.CtxErr, t) /\
    Server.attempts t = (Z.of_nat p + 1) / 2 /\
    Server.waits t = Z.max 0 (Server.attempts t - 1).
Proof.
  intros Hf Hbefore Hat Hp Hfuel.
  destruct (Start_spec c w fuel Hfuel) as (r & t & E & _ & _ & Hw & _).
  assert (Hc : exists t', Server.Start c w fuel = Some (Server.CtxErr, t') /\
                          Server.attempts t' = (Z.of_nat p + 1) / 2).
  { clear E Hw. unfold Server.Start.
    destruct fuel as [|f]; [lia|]. simpl Server.Start_loop.
    destruct p as [|p].
    - rewrite Hat. exists []. split; reflexivity.
    - rewrite (Hbefore 0%nat) by lia. simpl. rewrite Hf.
      destruct (Start_loop_cancelled c w (S p) Hf Hbefore Hat Hp f 1 1%nat
                  [Server.StartServer 1; Server.Log ERROR "Server start failed"])
        as (t' & E' & Ha); [lia | lia | lia | lia |].
      exists ([Server.StartServer 1; Server.Log ERROR "Server start failed"] ++ t').
      split; [exact E'|]. rewrite attempts_app, Ha.
      change (Server.attempts
                [Server.StartServer 1; Server.Log ERROR "Server start failed"])
        with 1.
      lia. }
  destruct Hc as (t' & E' & Ha). rewrite E in E'. inversion E'; subst.
  exists t'. split; [exact E|]. split; [exact Ha | exact Hw].
Qed.


Lemma start_succeeds_after_retries_witness :
  exists t,
    Server.Start three_retries (Startup.world_of Startup.port_busy_twice) 10
    = Some (Server.Served, t) /\
    Server.attempts t = 3 /\ Server.waits t = 3 - 1 /\
    Server.actions t = Startup.schedule three_retries 1 (Z.to_nat 3).
Proof.
  apply (start_succeeds_after_retries three_retries
           (Startup.world_of Startup.port_busy_twice) 10 3).
  - intros p. reflexivity.
  - vm_compute. split; discriminate.
  - intros j Hj. simpl. unfold Startup.port_busy_twice.
    destruct (Z.leb_spec j 2); [reflexivity | lia].
  - reflexivity.
  - vm_compute. lia.
Defined.


Lemma start_cancelled_witness :
  exists t,
    Server.Start three_retries (cancelled_at 2) 10 = Some (Server.CtxErr, t) /\
    Server.attempts t = (Z.of_nat 2 + 1) / 2 /\
    Server.waits t = Z.max 0 (Server.attempts t - 1).
Proof.
  apply (start_cancelled three_retries (cancelled_at 2) 10 2).
  - intros n. reflexivity.
  - intros k Hk. destruct k as [|[|k]]; [reflexivity | reflexivity | lia].
  - reflexivity.
  - vm_compute. discriminate.
  - vm_compute. lia.
Defined.

(** * What the handler logs *)

#[local] Instance same_log_preorder : PreOrder same_log.
Proof.
  split.
  - intros h. reflexivity.
  - intros h1 h2 h3 E1 E2. unfold same_log in *. congruence.
Qed.

#[local] Instance logs_only_preorder P : PreOrder (logs_only P).
Proof.
  split.
  - intros h. exists []. split; [now rewrite app_nil_r | constructor].
  - intros h1 h2 h3 (e1 & E1 & F1) (e2 & E2 & F2). exists (e1 ++ e2). split.
    + rewrite E2, E1. now rewrite <- app_assoc.
    + apply Forall_app. split; assumption.
Qed.

(** A state reached by the steps of a method, against the state the
    method started from. *)
Ltac log_leaf :=
  unfold logs_only, same_log; simpl;
  first
    [ reflexivity
    | exists []; split; [now rewrite app_nil_r | constructor]
    | eexists; split;
      [ rewrite <- ?app_assoc; reflexivity
      | simpl;
        repeat (apply Forall_cons;
                split; [first [reflexivity | unfold quiet; simpl; discriminate]|]);
        solve [constructor] ] ].

Lemma input_body_same_log req i res : preserves same_log (input_body req i res).
Proof.
  intros h. unfold input_body, load_input, bind, get, lift, ret.
  run_cases; log_leaf.
Qed.

Lemma discrete_body_same_log req i res :
  preserves same_log (discrete_body req i res).
Proof.
  intros h. unfold discrete_body, load_discrete, bind, get, lift, ret.
  run_cases; log_leaf.
Qed.

Lemma coils_body_same_log req i res : preserves same_log (coils_body req i res).
Proof.
  intros h.
  unfold coils_body, load_coil, store_coil, set_coils, bind, get, lift, ret.
  destruct (CR.IsWrite req); run_cases; log_leaf.
Qed.

Lemma holding_body_logs req i res :
  preserves (logs_only (eq register_written)) (holding_body req i res).
Proof.
  intros h.
  unfold holding_body, load_holding, store_holding, set_holdingRegs, log,
    bind, get, lift, ret.
  destruct (HR.IsWrite req); run_cases; log_leaf.
Qed.

Lemma holding_body_read_same_log req i res :
  HR.IsWrite req = false -> preserves same_log (holding_body req i res).
Proof.
  intros Hr h.
  unfold holding_body, load_holding, bind, get, lift, ret.
  rewrite Hr. run_cases; log_leaf.
Qed.

Lemma Handle_log req h : invocation_log req h.
Proof.
  unfold invocation_log. destruct req as [r|r|r|r].
  - unfold Handle, HandleHoldingRegisters. handler_steps.
    destruct (negb (HR.UnitId r =? UnitID (config h))); simpl; [reflexivity|].
    destruct (len (holdingRegs h) <? HR.Addr r + HR.Quantity r); simpl;
      [reflexivity|].
    match goal with
    | |- context [for_range ?cnt ?ix ?b ?r0 ?h1] =>
        pose proof (preserves_for_range _ b (holding_body_logs r) cnt ix r0 h1)
          as (ext & E & F);
        assert (Hq : HR.IsWrite r = false -> ext = []);
        [ intros Hr;
          pose proof (preserves_for_range same_log b
                        (fun j res => holding_body_read_same_log r j res Hr)
                        cnt ix r0 h1) as Es;
          unfold same_log in Es; rewrite Es in E;
          apply (app_inv_head (logger h1)); rewrite app_nil_r; symmetry; exact E
        | destruct (for_range cnt ix b r0 h1) as [h2 [res|e]] ]
    end; simpl in *.
    + exists ext. split; [rewrite E; now rewrite <- app_assoc|]. split; assumption.
    + exists ext. repeat split; assumption.
  - unfold Handle, HandleInputRegisters. handler_steps.
    destruct (negb (IR.UnitId r =? UnitID (config h))); simpl; [reflexivity|].
    destruct (len (inputRegs h) <? IR.Addr r + IR.Quantity r); simpl;
      [reflexivity|].
    match goal with
    | |- context [for_range ?cnt ?ix ?b ?r0 ?h1] =>
        pose proof (preserves_for_range same_log b (input_body_same_log r)
                      cnt ix r0 h1) as Es;
        destruct (for_range cnt ix b r0 h1) as [h2 [res|e]]
    end; simpl in *; exact Es.
  - unfold Handle, HandleCoils. handler_steps.
    destruct (negb (CR.UnitId r =? UnitID (config h))); simpl; [reflexivity|].
    destruct (len (coils h) <? CR.Addr r + CR.Quantity r); simpl;
      [reflexivity|].
    match goal with
    | |- context [for_range ?cnt ?ix ?b ?r0 ?h1] =>
        pose proof (preserves_for_range same_log b (coils_body_same_log r)
                      cnt ix r0 h1) as Es;
        destruct (for_range cnt ix b r0 h1) as [h2 [res|e]]
    end; simpl in *; exact Es.
  - unfold Handle, HandleDiscreteInputs. handler_steps.
    destruct (negb (DR.UnitId r =? UnitID (config h))); simpl; [reflexivity|].
    destruct (len (discreteInputs h) <? DR.Addr r + DR.Quantity r); simpl;
      [reflexivity|].
    match goal with
    | |- context [for_range ?cnt ?ix ?b ?r0 ?h1] =>
        pose proof (preserves_for_range same_log b (discrete_body_same_log r)
                      cnt ix r0 h1) as Es;
        destruct (for_range cnt ix b r0 h1) as [h2 [res|e]]
    end; simpl in *; exact Es.
Qed.

(** X13: of the four handlers only HandleHoldingRegisters logs.  A
    holding-register request refused for its unit id adds the one warning
    "Invalid unit ID", one refused for its range the one warning "Address
    out of bounds"; one that is served adds a "Register written" entry for
    registers it stored (none for a read) and then "Holding registers
    handled", and one that panics only the "Register written" entries.
    An input-register, coil or discrete-input request leaves the log as it
    was, whether served, refused or ended by a panic. *)
Theorem handler_logging (req : Request) (h : ModbusHandler) :
  let h' := fst (Handle req h) in
  match req with
  | ReqHolding r =>
      match snd (Handle req h) with
      | Ok (Error ErrIllegalFunction) =>
          logger h' = logger h ++ [invalid_unit_warning]
      | Ok (Error ErrIllegalDataAddress) =>
          logger h' = logger h ++ [address_warning]
      | Ok _ =>
          exists ext,
            logger h' = logger h ++ ext ++ [holding_handled] /\
            Forall (eq register_written) ext /\
            (HR.IsWrite r = false -> ext = [])
      | Panic _ =>
          exists ext,
            logger h' = logger h ++ ext /\
            Forall (eq register_written) ext /\
            (HR.IsWrite r = false -> ext = [])
      end
  | _ => logger h' = logger h
  end.
Proof. exact (Handle_log req h). Qed.

(** ** Nothing is logged as an error *)

Lemma quiet_written l : Forall quiet l -> mlog.written "ERROR" l = [].
Proof.
  unfold mlog.written. induction 1 as [|e l He _ IH]; [reflexivity|].
  rewrite filter_cons, IH.
  unfold quiet in He. destruct e as [[] msg]; simpl in *; congruence.
Qed.

Lemma Handle_quiet req : preserves (logs_only quiet) (Handle req).
Proof.
  intros h. pose proof (Handle_log req h) as H. unfold invocation_log in H.
  assert (Hw : forall ext, Forall (eq register_written) ext -> Forall quiet ext).
  { intros ext F. eapply Forall_impl; [exact F|].
    intros e <-. unfold quiet. simpl. discriminate. }
  unfold logs_only.
  destruct req as [r|r|r|r]; cbv beta iota zeta in H;
    try (exists []; split; [rewrite H; now rewrite app_nil_r | constructor]).
  destruct (snd (Handle (ReqHolding r) h)) as [[res|res|[|]]|e].
  - destruct H as (ext & E & F & _). exists (ext ++ [holding_handled]).
    split; [exact E|]. apply Forall_app. split; [now apply Hw|].
    repeat constructor. unfold quiet. simpl. discriminate.
  - destruct H as (ext & E & F & _). exists (ext ++ [holding_handled]).
    split; [exact E|]. apply Forall_app. split; [now apply Hw|].
    repeat constructor. unfold quiet. simpl. discriminate.
  - exists [invalid_unit_warning]. split; [exact H|].
    repeat constructor. unfold quiet. simpl. discriminate.
  - exists [address_warning]. split; [exact H|].
    repeat constructor. unfold quiet. simpl. discriminate.
  - destruct H as (ext & E & F & _). exists ext. split; [exact E | now apply Hw].
Qed.

Lemma UpdateCounter_quiet : preserves (logs_only quiet) UpdateCounter.
Proof.
  intros h.
  unfold UpdateCounter, store_holding, set_holdingRegs, set_counter, log,
    bind, get, lift, ret.
  run_cases; log_leaf.
Qed.

Lemma exec_quiet ops : preserves (logs_only quiet) (exec ops).
Proof.
  apply preserves_for_each; [typeclasses eauto|].
  intros [|req]; simpl.
  - apply UpdateCounter_quiet.
  - apply preserves_bind; [typeclasses eauto | apply Handle_quiet |].
    intros a. apply preserves_ret. typeclasses eauto.
Qed.

Lemma seed_quiet c d : preserves (logs_only quiet) (seed c d).
Proof.
  intros h.
  unfold seed, store_holding, store_input, store_coil, store_discrete,
    set_holdingRegs, set_inputRegs, set_coils, set_discreteInputs, log,
    bind, get, lift, ret.
  run_cases; log_leaf.
Qed.

Lemma alloc_log c now h : alloc c now = Ok h -> logger h = [].
Proof.
  unfold alloc. intros E.
  destruct (make 0 (MaxRegisters c)); [|discriminate].
  destruct (make false (MaxRegisters c)); [|discriminate].
  inversion E. reflexivity.
Qed.

Lemma NewModbusHandler_quiet c now h :
  NewModbusHandler c now = Ok h -> Forall quiet (logger h).
Proof.
  unfold NewModbusHandler. intros E.
  destruct (alloc c now) as [ha|e] eqn:Ea; [|discriminate].
  assert (P : preserves (logs_only quiet)
                (for_each (InitialData c) (seed c) ;;
                 store_holding (CounterAddress c) 0 ;;
                 log INFO "Handler initialized")).
  { apply preserves_bind; [typeclasses eauto | |].
    - apply preserves_for_each; [typeclasses eauto|]. apply seed_quiet.
    - intros _ h1.
      unfold store_holding, set_holdingRegs, log, bind, get, lift, ret.
      run_cases; log_leaf. }
  specialize (P ha).
  match type of E with
  | context [match ?m with _ => _ end] => destruct m as [h1 [u|e]]
  end; [|discriminate].
  inversion E; subst. simpl in P. destruct P as (ext & Ex & F).
  rewrite Ex, (alloc_log _ _ _ Ea). exact F.
Qed.

(** X14: no method of the handler logs at level ERROR: from the
    construction on, through any run of ticks and requests and whether or
    not the run ends in a panic, every entry handed to the logger is of a
    lower level, so a logger configured at level "ERROR", as the one of
    the tests is, writes none of them. *)
Theorem nothing_logged_as_error (c : ModbusConfig) (now : Z)
    (h0 : ModbusHandler) (ops : list Op) :
  NewModbusHandler c now = Ok h0 ->
  Forall (fun e => Level e <> ERROR) (logger (fst (exec ops h0))) /\
  mlog.written "ERROR" (logger (fst (exec ops h0))) = [].
Proof.
  intros E.
  assert (F : Forall quiet (logger (fst (exec ops h0)))).
  { destruct (exec_quiet ops h0) as (ext & Ex & Fx).
    rewrite Ex. apply Forall_app. split; [|exact Fx].
    eapply NewModbusHandler_quiet. exact E. }
  split; [exact F | now apply quiet_written].
Qed.

Lemma nothing_logged_as_error_witness :
  Forall (fun e => Level e <> ERROR) (logger (fst (exec busy_run hvac_handler))) /\
  mlog.written "ERROR" (logger (fst (exec busy_run hvac_handler))) = [].
Proof.
  apply (nothing_logged_as_error hvac_cfg 0 hvac_handler busy_run).
  vm_compute. reflexivity.
Defined.

(** * The register updater *)




(** * Writes of a range, read back *)

(** X16: a write of holding registers answers with the values of the range as
    the write left them, and so does the read of the same range that
    follows: each position holds the value written there, but for the
    positions whose address, taken as a uint16, is the counter's, which
    hold what they held. *)
Theorem write_range_then_read_holding (req : HR.t) (h : ModbusHandler) :
  HR.wf req -> HR.IsWrite req = true ->
  HR.UnitId req = UnitID (config h) ->
  HR.Addr req + HR.Quantity req <= len (holdingRegs h) ->
  HR.Quantity req <= len (HR.Args req) ->
  exists h' res,
    HandleHoldingRegisters req h = (h', Ok (Values res)) /\
    snd (HandleHoldingRegisters
           (read_holding (HR.UnitId req) (HR.Addr req) (HR.Quantity req)) h')
    = Ok (Values res) /\
    len res = HR.Quantity req /\
    (forall i, 0 <= i < HR.Quantity req ->
       index res i
       = (if uint16 (HR.Addr req + i) =? CounterAddress (config h)
          then index (holdingRegs h) (HR.Addr req + i)
          else index (HR.Args req) i)).
Proof.
  intros (_ & Ha & Hq) Hw Hu Hb Hargs.
  unfold HandleHoldingRegisters at 1. handler_steps.
  rewrite Hu, Z.eqb_refl. simpl.
  destruct (Z.ltb_spec (len (holdingRegs h)) (HR.Addr req + HR.Quantity req));
    [lia|].
  match goal with
  | |- context [for_range ?n ?i ?b ?r ?h1] =>
      destruct (write_holding_range req h1 Hw) as (h' & res & E & Hc & Hl & Hr & Hpos);
        [lia | lia | assumption | assumption |]
  end.
  rewrite E. simpl in *. eexists. exists res. split; [reflexivity|].
  split; [|split; [exact Hr|]].
  - unfold HandleHoldingRegisters, read_holding. handler_steps.
    rewrite Hc, Z.eqb_refl. simpl.
    destruct (Z.ltb_spec (len (holdingRegs h')) (HR.Addr req + HR.Quantity req));
      [lia|].
    match goal with
    | |- context [for_range ?n ?i ?b ?r ?h1] =>
        destruct (read_holding_range h1 (UnitID (config h)) (HR.Addr req)
                    (HR.Quantity req)) as (res' & E' & Hr' & Hpos');
          [lia | lia | simpl; lia |]
    end.
    unfold read_holding in E'. rewrite E'. simpl. do 2 f_equal.
    apply index_ext; [lia|]. intros i Hi.
    rewrite Hpos' by lia. simpl.
    destruct (Hpos i ltac:(lia)) as (_ & ->). reflexivity.
  - intros i Hi. destruct (Hpos i Hi) as (H1 & H2). now rewrite H2, H1.
Qed.

(** X17: a write of coils answers with the values written, and so does the
    read of the same range that follows. *)
Theorem write_range_then_read_coils (req : CR.t) (h : ModbusHandler) :
  CR.wf req -> CR.IsWrite req = true ->
  CR.UnitId req = UnitID (config h) ->
  CR.Addr req + CR.Quantity req <= len (coils h) ->
  CR.Quantity req <= len (CR.Args req) ->
  exists h' res,
    HandleCoils req h = (h', Ok (Values res)) /\
    snd (HandleCoils
           (read_coils (CR.UnitId req) (CR.Addr req) (CR.Quantity req)) h')
    = Ok (Values res) /\
    len res = CR.Quantity req /\
    (forall i, 0 <= i < CR.Quantity req -> index res i = index (CR.Args req) i).
Proof.
  intros (_ & Ha & Hq) Hw Hu Hb Hargs.
  unfold HandleCoils at 1. handler_steps.
  rewrite Hu, Z.eqb_refl. simpl.
  destruct (Z.ltb_spec (len (coils h)) (CR.Addr req + CR.Quantity req)); [lia|].
  match goal with
  | |- context [for_range ?n ?i ?b ?r ?h1] =>
      destruct (write_coils_range req h1 Hw) as (h' & res & E & Hc & Hl & Hr & Hpos);
        [lia | lia | assumption | assumption |]
  end.
  rewrite E. simpl in *. eexists. exists res. split; [reflexivity|].
  split; [|split; [exact Hr|]].
  - unfold HandleCoils, read_coils. handler_steps.
    rewrite Hc, Z.eqb_refl. simpl.
    destruct (Z.ltb_spec (len (coils h')) (CR.Addr req + CR.Quantity req)); [lia|].
    match goal with
    | |- context [for_range ?n ?i ?b ?r ?h1] =>
        destruct (read_coils_range h1 (UnitID (config h)) (CR.Addr req)
                    (CR.Quantity req)) as (res' & E' & Hr' & Hpos');
          [lia | lia | simpl; lia |]
    end.
    unfold read_coils in E'. rewrite E'. simpl. do 2 f_equal.
    apply index_ext; [lia|]. intros i Hi.
    rewrite Hpos' by lia. simpl.
    destruct (Hpos i ltac:(lia)) as (-> & ->). reflexivity.
  - intros i Hi. apply Hpos. exact Hi.
Qed.

Lemma write_range_then_read_holding_witness :
  exists h' res,
    HandleHoldingRegisters hvac_write hvac_handler = (h', Ok (Values res)) /\
    snd (HandleHoldingRegisters
           (read_holding (HR.UnitId hvac_write) (HR.Addr hvac_write)
              (HR.Quantity hvac_write)) h')
    = Ok (Values res) /\
    len res = HR.Quantity hvac_write /\
    (forall i, 0 <= i < HR.Quantity hvac_write ->
       index res i
       = (if uint16 (HR.Addr hvac_write + i) =? CounterAddress (config hvac_handler)
          then index (holdingRegs hvac_handler) (HR.Addr hvac_write + i)
          else index (HR.Args hvac_write) i)).
Proof.
  apply (write_range_then_read_holding hvac_write hvac_handler); by_compute.
Defined.

Lemma write_range_then_read_coils_witness :
  exists h' res,
    HandleCoils hvac_coils_write hvac_handler = (h', Ok (Values res)) /\
    snd (HandleCoils
           (read_coils (CR.UnitId hvac_coils_write) (CR.Addr hvac_coils_write)
              (CR.Quantity hvac_coils_write)) h')
    = Ok (Values res) /\
    len res = CR.Quantity hvac_coils_write /\
    (forall i, 0 <= i < CR.Quantity hvac_coils_write ->
       index res i = index (CR.Args hvac_coils_write) i).
Proof.
  apply (write_range_then_read_coils hvac_coils_write hvac_handler); by_compute.
Defined.

(** * The tests of handler_test.go and the scenarios of the specification *)

Example TestModbusHandler_ValidRead :
  on_new (test_cfg 200 10) (HandleHoldingRegisters (read_holding 1 0 5))
  = Some (Ok (Values [0; 0; 0; 0; 0])).
Proof. vm_compute. reflexivity. Qed.

Example TestModbusHandler_InvalidUnitID :
  on_new (test_cfg 200 10) (HandleHoldingRegisters (read_holding 99 0 1))
  = Some (Ok (Exception ErrIllegalFunction)).
Proof. vm_compute. reflexivity. Qed.

Example TestModbusHandler_OutOfBounds :
  on_new (test_cfg 200 10) (HandleHoldingRegisters (read_holding 1 199 5))
  = Some (Ok (Exception ErrIllegalDataAddress)).
Proof. vm_compute. reflexivity. Qed.

Example TestCounterUpdate :
  on_new (test_cfg 200 10)
    (UpdateCounter ;; UpdateCounter ;; UpdateCounter ;; UpdateCounter ;; UpdateCounter ;;
     r1 <- HandleHoldingRegisters (read_holding 1 10 1) ;;
     r2 <- HandleHoldingRegisters (write_holding 1 10 [999]) ;;
     r3 <- HandleHoldingRegisters (read_holding 1 10 1) ;;
     ret (r1, r2, r3))
  = Some (Ok (Values [5], Values [5], Values [5])).
Proof. vm_compute. reflexivity. Qed.

Example TestRegisterWrite :
  on_new (test_cfg 200 10)
    (HandleHoldingRegisters (write_holding 1 5 [12345]) ;;
     HandleHoldingRegisters (read_holding 1 5 1))
  = Some (Ok (Values [12345])).
Proof. vm_compute. reflexivity. Qed.

Example Start_three_retries :
  option_map (fun r => (fst r, Server.actions (snd r)))
    (Server.Start {| MaxRetries := 3; RetryDelay := 1 |} Server.always_failing 10)
  = Some (Server.MaxRetriesExceeded 3,
          [Server.StartServer 1; Server.Wait 1; Server.StartServer 2;
           Server.Wait 1; Server.StartServer 3]).
Proof. vm_compute. reflexivity. Qed.

Example counter_write_without_value :
  on_new (test_cfg 200 10) (HandleHoldingRegisters empty_counter_write)
  = Some (Ok (Values [0])).
Proof. vm_compute. reflexivity. Qed.

Example short_coils_write_panics :
  on_new (test_cfg 200 10) (HandleCoils short_coils_write)
  = Some (Panic (IndexOutOfRange 1 1)).
Proof. vm_compute. reflexivity. Qed.

Example counter_wraps_to_one :
  match NewModbusHandler (test_cfg 200 10) 0 with
  | Ok h =>
      let full := fst (set_counter MaxUint16 h) in
      counter (fst (UpdateCounter full)) = 1 /\
      index (holdingRegs (fst (UpdateCounter full))) 10 = Ok 1
  | Panic _ => False
  end.
Proof. vm_compute. split; reflexivity. Qed.

(** In a table longer than 65536 entries the protection of the counter
    compares uint16(addr): the position at 65536 + 10 is left unwritten
    like the counter's. *)
Example write_past_16_bits_result :
  on_new long_table_cfg (HandleHoldingRegisters write_past_16_bits)
  = Some (Ok (Values [1; 2; 3; 4; 5; 6; 7; 8; 9; 10; 11; 0])).
Proof. vm_compute. reflexivity. Qed.
